(** * Parking management system: session lifecycle and payment settlement

    A shallow embedding of the Python sources
      - [payment.py]            (RFID link protocol, settlement transaction),
      - [car_entry.py], [car_exit.py] (plate validation, voting, exit check),
      - [dashboard/database.py] (fee computation, log-to-database merge),
    together with the properties the specification states about them.

    Conventions of the embedding.
      - A Python [str] is a Rocq [string]; its characters stand for the code
        points below 256.  The checks of the plate format ([str.isalpha],
        [str.isupper], [str.isdigit]) follow Python's Unicode tables on this
        range; white space, printable characters and [int()] are those of
        ASCII, which is what the serial link and the log carry.
      - A [datetime] is the number of microseconds since a fixed epoch, a
        [timedelta] the difference of two of them.  The number of hours of a
        duration is the exact quotient by 3 600 000 000 (the source computes
        it in double precision, which gives the same whole hours for
        durations up to a century and more), and amounts are integers.
      - A list that Python indexes is a Rocq list read with [!!]; reading out
        of range raises [IndexError] in the source and is written out as an
        error here.  A computation that may raise has a type [res A].
      - The log file is the list of rows [csv.reader] yields for it; two
        files with the same rows are the same file.
      - Where the source mutates list objects that several lists share
        ([process_payment]), the objects live in a heap and the lists hold
        references.
      - What the outside world does (the lines the microcontroller sends and
        when, whether a file, database or port operation fails, the clock) is
        an argument of the function it affects.  Bytes written to the serial
        port are recorded as events. *)

From Stdlib Require Import ZArith Lia Bool Ascii.
From Stdlib Require String.
From stdpp Require Import base option list strings.

Open Scope Z_scope.

(** ** Python string primitives (ASCII) *)

Module Py.

Definition code (c : ascii) : Z := Z.of_nat (nat_of_ascii c).

(** [c.isspace()] *)
Definition isspace (c : ascii) : bool :=
  let n := code c in
  ((9 <=? n) && (n <=? 13)) || ((28 <=? n) && (n <=? 32)).

(** the C-locale white space [int()] skips around an ASCII literal *)
Definition is_c_space (c : ascii) : bool :=
  let n := code c in
  ((9 <=? n) && (n <=? 13)) || (n =? 32).

(** [c.isprintable()] *)
Definition isprintable (c : ascii) : bool :=
  let n := code c in (32 <=? n) && (n <=? 126).

(** The ASCII classes [[0-9]], [[A-Z]] and [[a-z]]. *)
Definition is_digit (c : ascii) : bool :=
  let n := code c in (48 <=? n) && (n <=? 57).

Definition is_upper (c : ascii) : bool :=
  let n := code c in (65 <=? n) && (n <=? 90).

Definition is_lower (c : ascii) : bool :=
  let n := code c in (97 <=? n) && (n <=? 122).

(** The classes of [str.isupper], [str.islower], [str.isalpha] and
    [str.isdigit] among the code points below 256: besides the ASCII letters
    the upper-case letters U+00C0-U+00D6 and U+00D8-U+00DE, the lower-case
    letters U+00AA, U+00B5, U+00BA, U+00DF-U+00F6 and U+00F8-U+00FF, and
    besides the ASCII digits the superscripts U+00B2, U+00B3 and U+00B9.
    Every letter of this range is cased, and none is title-case. *)
Definition uc_upper (c : ascii) : bool :=
  let n := code c in
  ((65 <=? n) && (n <=? 90)) || ((192 <=? n) && (n <=? 214))
  || ((216 <=? n) && (n <=? 222)).

Definition uc_lower (c : ascii) : bool :=
  let n := code c in
  ((97 <=? n) && (n <=? 122)) || (n =? 170) || (n =? 181) || (n =? 186)
  || ((223 <=? n) && (n <=? 246)) || ((248 <=? n) && (n <=? 255)).

Definition uc_alpha (c : ascii) : bool := uc_upper c || uc_lower c.

Definition uc_digit (c : ascii) : bool :=
  let n := code c in
  ((48 <=? n) && (n <=? 57)) || (n =? 178) || (n =? 179) || (n =? 185).

Fixpoint forallb_str (p : ascii -> bool) (s : string) : bool :=
  match s with
  | EmptyString => true
  | String c r => p c && forallb_str p r
  end.

Fixpoint existsb_str (p : ascii -> bool) (s : string) : bool :=
  match s with
  | EmptyString => false
  | String c r => p c || existsb_str p r
  end.

Definition nonempty (s : string) : bool :=
  match s with EmptyString => false | _ => true end.

(** [s.isalpha()]: at least one character and all of them letters *)
Definition isalpha (s : string) : bool := nonempty s && forallb_str uc_alpha s.

(** [s.isdigit()] *)
Definition isdigit (s : string) : bool := nonempty s && forallb_str uc_digit s.

(** [s.isupper()]: no lower-case letter and at least one upper-case one *)
Definition isupper (s : string) : bool :=
  forallb_str (fun c => negb (uc_lower c)) s && existsb_str uc_upper s.

(** [s.isascii()] *)
Definition isascii (s : string) : bool := forallb_str (fun c => code c <? 128) s.

Fixpoint filter_str (p : ascii -> bool) (s : string) : string :=
  match s with
  | EmptyString => EmptyString
  | String c r => if p c then String c (filter_str p r) else filter_str p r
  end.

Fixpoint lstrip_by (p : ascii -> bool) (s : string) : string :=
  match s with
  | EmptyString => EmptyString
  | String c r => if p c then lstrip_by p r else s
  end.

Definition rstrip_by (p : ascii -> bool) (s : string) : string :=
  String.rev (lstrip_by p (String.rev s)).

(** [s.strip()] *)
Definition strip (s : string) : string := rstrip_by isspace (lstrip_by isspace s).

(** [s.startswith(p)] *)
Definition startswith (p s : string) : bool := String.prefix p s.

(** [s.find(sub)]: the least index at which [sub] occurs *)
Fixpoint find (sub s : string) : option nat :=
  if startswith sub s then Some 0%nat
  else match s with
       | EmptyString => None
       | String _ r => S <$> find sub r
       end.

(** [sub in s] *)
Definition contains (sub s : string) : bool :=
  match find sub s with Some _ => true | None => false end.

(** [s[i:]], [s[:n]] and [s[i:j]] for non-negative bounds *)
Fixpoint slice_from (i : nat) (s : string) : string :=
  match i, s with
  | O, _ => s
  | S i', String _ r => slice_from i' r
  | S _, EmptyString => EmptyString
  end.

Fixpoint slice_to (n : nat) (s : string) : string :=
  match n, s with
  | S n', String c r => String c (slice_to n' r)
  | _, _ => EmptyString
  end.

Definition slice (i j : nat) (s : string) : string :=
  slice_to (j - i) (slice_from i s).

(** [s.split(sep)] for a one-character separator *)
Fixpoint split_go (sep : ascii) (cur : string) (s : string) : list string :=
  match s with
  | EmptyString => [String.rev cur]
  | String c r =>
      if bool_decide (c = sep) then String.rev cur :: split_go sep EmptyString r
      else split_go sep (String c cur) r
  end.
Definition split (sep : ascii) (s : string) : list string :=
  split_go sep EmptyString s.

(** The digits of an integer literal: decimal digits, single underscores
    allowed between two digits. *)
Fixpoint digits_val (acc : Z) (after_us : bool) (s : string) : option Z :=
  match s with
  | EmptyString => if after_us then None else Some acc
  | String c r =>
      if is_digit c then digits_val (10 * acc + (code c - 48)) false r
      else if bool_decide (c = "_"%char) then
             if after_us then None else digits_val acc true r
      else None
  end.

Definition unsigned_val (s : string) : option Z :=
  match s with
  | String c _ => if is_digit c then digits_val 0 false s else None
  | EmptyString => None
  end.

(** [int(s)]: [None] stands for [ValueError]. *)
Definition int (s : string) : option Z :=
  match rstrip_by is_c_space (lstrip_by is_c_space s) with
  | String "-" r => Z.opp <$> unsigned_val r
  | String "+" r => unsigned_val r
  | t => unsigned_val t
  end.

End Py.

(** ** Exceptions

    A computation of the source either returns or raises; [Raise] carries
    the class of the exception, which decides the handler that catches it. *)

Inductive exn : Set :=
| IndexError | ValueError | KeyError | TypeError | StopIteration | OSError
| IntegrityError.

Inductive res (A : Type) : Type :=
| Ok (a : A)
| Raise (e : exn).
Arguments Ok {A} a.
Arguments Raise {A} e.

#[global] Instance res_ret : MRet res := fun A a => Ok a.
#[global] Instance res_bind : MBind res := fun A B f m =>
  match m with
  | Ok a => f a
  | Raise e => Raise e
  end.

#[global] Instance res_fmap : FMap res := fun A B f m =>
  match m with
  | Ok a => Ok (f a)
  | Raise e => Raise e
  end.

(** [l[i]] *)
Definition item {A} (l : list A) (i : nat) : res A :=
  match l !! i with
  | Some x => Ok x
  | None => Raise IndexError
  end.

(** [int(s)] *)
Definition int_of (s : string) : res Z :=
  match Py.int s with
  | Some z => Ok z
  | None => Raise ValueError
  end.

(** ** The log file

    [plates_log.csv] as [csv.reader] presents it: one list of cells per
    line, the header line first; an empty line reads as the empty list.
    [None] is a file that cannot be opened. *)

Abbreviation row := (list string) (only parsing).
Abbreviation log_file := (option (list row)) (only parsing).

Definition open_log (f : log_file) : res (list row) :=
  match f with
  | Some rows => Ok rows
  | None => Raise OSError
  end.

(** ** Fee computation

  [payment.py] computes the amount due inline in [process_payment]
  (lines 234-239); [dashboard/database.py] has [calculate_payment_amount]. *)

Module Fee.

(** microseconds since the epoch *)
Definition datetime : Type := Z.

Definition RATE_PER_HOUR : Z := 500.

(** one hour, in microseconds: [total_seconds() / 3600] *)
Definition hour : Z := 3600000000.

(** [int(hours) + (1 if hours % 1 > 0 else 0)] for [hours = d / hour]:
    [int] truncates towards zero, [%] takes the sign of the divisor. *)
Definition round_up_hours (d : Z) : Z :=
  Z.quot d hour + (if 0 <? d mod hour then 1 else 0).

(** [process_payment], lines 235-239 *)
Definition hours_spent (entry_time exit_time : datetime) : Z :=
  round_up_hours (exit_time - entry_time).

Definition amount_due (entry_time exit_time : datetime) : Z :=
  hours_spent entry_time exit_time * RATE_PER_HOUR.

(** [calculate_payment_amount(entry_time, payment_time)] *)
Definition calculate_payment_amount
    (entry_time : datetime) (payment_time : option datetime) : option Z :=
  match payment_time with
  | None => None
  | Some p =>
      let hours := round_up_hours (p - entry_time) in
      let hours := Z.max 1 hours in
      Some (hours * 500)
  end.

(** The ceiling of [d / hour], as the specification words it. *)
Definition ceil_hours (d : Z) : Z := (d + hour - 1) / hour.

End Fee.


(** ** Dates

    [datetime.strptime] and [strftime] belong to the Python library; the
    reconciler and the settlement are parametric in them.  [Clock] gives an
    instance for the format ['%Y-%m-%d %H:%M:%S'] on zero-padded text, to run
    the definitions on concrete logs: microseconds since 1970-01-01. *)

Module Clock.

Definition decimal (s : string) : option Z :=
  if Py.nonempty s && Py.forallb_str Py.is_digit s then Py.digits_val 0 false s else None.

Definition is_leap (y : Z) : bool :=
  ((y mod 4 =? 0) && negb (y mod 100 =? 0)) || (y mod 400 =? 0).

Definition days_in_month (y m : Z) : Z :=
  if m =? 2 then (if is_leap y then 29 else 28)
  else if (m =? 4) || (m =? 6) || (m =? 9) || (m =? 11) then 30 else 31.

Definition days_from_civil (y m d : Z) : Z :=
  let y := if m <=? 2 then y - 1 else y in
  let era := y / 400 in
  let yoe := y - era * 400 in
  let doy := (153 * (if 2 <? m then m - 3 else m + 9) + 2) / 5 + d - 1 in
  let doe := yoe * 365 + yoe / 4 - yoe / 100 + doy in
  era * 146097 + doe - 719468.

Definition civil_from_days (z : Z) : Z * Z * Z :=
  let z := z + 719468 in
  let era := z / 146097 in
  let doe := z - era * 146097 in
  let yoe := (doe - doe / 1460 + doe / 36524 - doe / 146096) / 365 in
  let doy := doe - (365 * yoe + yoe / 4 - yoe / 100) in
  let mp := (5 * doy + 2) / 153 in
  let d := doy - (153 * mp + 2) / 5 + 1 in
  let m := if mp <? 10 then mp + 3 else mp - 9 in
  let y := yoe + era * 400 in
  (if m <=? 2 then y + 1 else y, m, d).

Definition strptime (s : string) : option Fee.datetime :=
  if (String.length s =? 19)%nat
     && bool_decide (Py.slice 4 5 s = "-") && bool_decide (Py.slice 7 8 s = "-")
     && bool_decide (Py.slice 10 11 s = " ")
     && bool_decide (Py.slice 13 14 s = ":") && bool_decide (Py.slice 16 17 s = ":")
  then
    y ← decimal (Py.slice 0 4 s);
    m ← decimal (Py.slice 5 7 s);
    d ← decimal (Py.slice 8 10 s);
    H ← decimal (Py.slice 11 13 s);
    M ← decimal (Py.slice 14 16 s);
    S ← decimal (Py.slice 17 19 s);
    if (1 <=? y) && (1 <=? m) && (m <=? 12) && (1 <=? d) && (d <=? days_in_month y m)
       && (H <? 24) && (M <? 60) && (S <? 60)
    then Some ((((days_from_civil y m d * 24 + H) * 60 + M) * 60 + S) * 1000000)
    else None
  else None.

Definition digit (n : Z) : ascii := ascii_of_nat (48 + Z.to_nat (n mod 10)).

Definition pad2 (n : Z) : string := String (digit (n / 10)) (String (digit n) EmptyString).

Definition pad4 (n : Z) : string := pad2 (n / 100) +:+ pad2 n.

Definition strftime (t : Fee.datetime) : string :=
  let secs := t / 1000000 in
  let '(y, m, d) := civil_from_days (secs / 86400) in
  let rem := secs mod 86400 in
  pad4 y +:+ "-" +:+ pad2 m +:+ "-" +:+ pad2 d +:+ " "
  +:+ pad2 (rem / 3600) +:+ ":" +:+ pad2 (rem / 60 mod 60) +:+ ":" +:+ pad2 (rem mod 60).

End Clock.

(** ** Plate validation and voting

    The main loops of [car_entry.py] (lines 174-219) and [car_exit.py]
    (lines 190-207).  The two scripts validate a recognised text the same
    way and differ in the number of detections they wait for. *)

Module Plate.

(** Lines 175-186 of [car_entry.py]: the candidate appended to
    [plate_buffer], if any. *)
Definition plate_candidate_of (plate_text : string) : option string :=
  if Py.contains "RA" plate_text then
    match Py.find "RA" plate_text with
    | Some start_idx =>
        let plate_candidate := Py.slice_from start_idx plate_text in
        if (7 <=? String.length plate_candidate)%nat then
          let plate_candidate := Py.slice_to 7 plate_candidate in
          let prefix := Py.slice_to 3 plate_candidate in
          let digits := Py.slice 3 6 plate_candidate in
          let suffix := Py.slice 6 7 plate_candidate in
          if Py.isalpha prefix && Py.isupper prefix && Py.isdigit digits
             && Py.isalpha suffix && Py.isupper suffix
          then Some plate_candidate
          else None
        else None
    | None => None
    end
  else None.

(** [collections.Counter]: the counts, keyed in first-insertion order. *)
Fixpoint counter_add (x : string) (c : list (string * nat)) : list (string * nat) :=
  match c with
  | [] => [(x, 1%nat)]
  | (y, n) :: r =>
      if decide (x = y) then (y, S n) :: r else (y, n) :: counter_add x r
  end.

Definition Counter (l : list string) : list (string * nat) :=
  fold_left (fun c x => counter_add x c) l [].

(** [max(items, key=itemgetter(1))]: the first item with the largest count. *)
Fixpoint max_by_count (best : string * nat) (c : list (string * nat)) : string * nat :=
  match c with
  | [] => best
  | kv :: r => max_by_count (if (best.2 <? kv.2)%nat then kv else best) r
  end.

(** [Counter(buf).most_common(1)[0][0]]; [None] is the [IndexError] on an
    empty buffer. *)
Definition most_common (buf : list string) : option string :=
  match Counter buf with
  | [] => None
  | kv :: r => Some (max_by_count kv r).1
  end.

(** One valid detection: append, and once the buffer holds [threshold]
    candidates take the most common one and clear the buffer. *)
Definition vote (threshold : nat) (plate_buffer : list string) (cand : string)
  : option string * list string :=
  let plate_buffer := plate_buffer ++ [cand] in
  if (threshold <=? length plate_buffer)%nat
  then (most_common plate_buffer, [])
  else (None, plate_buffer).

(** [if len(plate_buffer) >= 2] in [car_entry.py], [>= 3] in [car_exit.py] *)
Definition ENTRY_THRESHOLD : nat := 2.
Definition EXIT_THRESHOLD : nat := 3.

(** One recognised text, on either path. *)
Definition on_text (threshold : nat) (plate_buffer : list string) (plate_text : string)
  : option string * list string :=
  match plate_candidate_of plate_text with
  | Some cand => vote threshold plate_buffer cand
  | None => (None, plate_buffer)
  end.

Definition entry_on_text := on_text ENTRY_THRESHOLD.
Definition exit_on_text := on_text EXIT_THRESHOLD.

(** The buffers the loop can hold: it starts empty. *)
Inductive reachable (threshold : nat) : list string -> Prop :=
| reachable_start : reachable threshold []
| reachable_text buf plate_text :
    reachable threshold buf ->
    reachable threshold (on_text threshold buf plate_text).2.

(** The format of the specification: [[A-Z]{3}[0-9]{3}[A-Z]]. *)
Definition matches_format (s : string) : bool :=
  match s with
  | String a (String b (String c (String d (String e (String f (String g EmptyString)))))) =>
      Py.is_upper a && Py.is_upper b && Py.is_upper c
      && Py.is_digit d && Py.is_digit e && Py.is_digit f && Py.is_upper g
  | _ => false
  end.

(** The region marker occurs at index [i]. *)
Definition marker_at (i : nat) (s : string) : Prop :=
  Py.slice i (i + 2) s = "RA".

(** Number of occurrences and index of the first occurrence in a buffer. *)
Definition occurrences (x : string) (l : list string) : nat :=
  length (filter (fun y => y = x) l).

Fixpoint first_seen (x : string) (l : list string) : nat :=
  match l with
  | [] => 0
  | y :: r => if decide (y = x) then 0 else S (first_seen x r)
  end.

(** The count a counter holds for a key. *)
Fixpoint cnt (C : list (string * nat)) (x : string) : nat :=
  match C with
  | [] => 0
  | (y, n) :: r => if decide (x = y) then n else cnt r x
  end.

(** What the counter holds after the buffer [l] was counted. *)
Record counter_inv (l : list string) (C : list (string * nat)) : Prop := {
  inv_nodup : NoDup C.*1;
  inv_keys : forall x : string, x ∈ C.*1 <-> x ∈ l;
  inv_count : forall x : string, cnt C x = occurrences x l;
  inv_order : forall (i j : nat) (x y : string),
      C.*1 !! i = Some x -> C.*1 !! j = Some y -> (i < j)%nat ->
      (first_seen x l < first_seen y l)%nat
}.

(** [e] is the most frequent element of [l]; among equally frequent ones it
    is the one seen first. *)
Definition most_frequent_first_seen (l : list string) (e : string) : Prop :=
  e ∈ l /\
  forall x, x ∈ l ->
    (occurrences x l <= occurrences e l)%nat /\
    (occurrences x l = occurrences e l -> (first_seen e l <= first_seen x l)%nat).

(** The acceptance condition in the words of the specification, for the two
    ways of reading "the 7 characters following the marker": the seven
    characters after it, or the seven characters from it on. *)
Definition spec_accepts_after_marker (s : string) : Prop :=
  exists i, marker_at i s /\ matches_format (Py.slice (i + 2) (i + 9) s) = true.

Definition spec_accepts_from_marker (s : string) : Prop :=
  exists i, marker_at i s /\ matches_format (Py.slice i (i + 7) s) = true.

End Plate.

(** ** Exit authorisation: [is_payment_complete] of [car_exit.py] *)

Module Exit.

(** [[row for row in reader if row[0] == plate_number]] *)
Fixpoint entries_for (plate_number : string) (rows : list row) : res (list row) :=
  match rows with
  | [] => Ok []
  | r :: rest =>
      c ← item r 0;
      entries ← entries_for plate_number rest;
      Ok (if decide (c = plate_number) then r :: entries else entries)
  end.

Definition payment_check (f : log_file) (plate_number : string) : res bool :=
  rows ← open_log f;
  match rows with
  | [] => Raise StopIteration
  | _header :: data =>
      entries ← entries_for plate_number data;
      match last entries with
      | None => Ok false
      | Some latest_entry =>
          cell ← item latest_entry 1;
          payment_status ← int_of cell;
          Ok (payment_status =? 1)
      end
  end.

(** Any exception is caught and reported as "not paid". *)
Definition is_payment_complete (f : log_file) (plate_number : string) : bool :=
  match payment_check f plate_number with
  | Ok b => b
  | Raise _ => false
  end.

(** The rows of the log that belong to a plate. *)
Definition rows_of (plate_number : string) (data : list row) : list row :=
  filter (fun r => r !! 0%nat = Some plate_number) data.

End Exit.

(** ** The RFID link: [read_rfid_card] and [write_rfid_card] of [payment.py]

    The polling loops read the clock, and a line when one is waiting.  What
    the peer sends is given as the list of the lines read, each with the
    clock reading (in milliseconds) of the loop iteration that read it; the
    text is [None] when the bytes received do not decode.  When the list is
    used up nothing more arrives and the loop runs into its timeout. *)

Module Link.

Definition event : Type := Z * option string.

Definition CARD_TIMEOUT : Z := 5000.
Definition READY_TIMEOUT : Z := 2000.
Definition WRITE_TIMEOUT : Z := 5000.

(** Lines 91-94: [plate, balance = [x.strip() for x in line.split(',')]],
    the non-printable characters removed from the balance, then [int].
    [None] is the [ValueError] of the unpacking or of [int]. *)
Definition parse_card (line : string) : option (string * Z) :=
  match Py.strip <$> Py.split "," line with
  | [plate; balance] =>
      let balance := Py.filter_str Py.isprintable balance in
      match Py.int balance with
      | Some balance => Some (plate, balance)
      | None => None
      end
  | _ => None
  end.

(** The two nested loops of [read_rfid_card], as one loop with the card data
    that awaits its [READY] as state: [pending = None] is the outer loop,
    [pending = Some (plate, balance, ready_time)] the inner one.  A line that
    does not decode raises [UnicodeDecodeError]: in the outer loop the
    function's handler returns no data; in the inner loop it is caught as a
    [ValueError] and the outer loop continues. *)
Fixpoint poll (start_time : Z) (pending : option (string * Z * Z)) (evs : list event)
  : option (string * Z) :=
  match evs with
  | [] => None
  | (now, text) :: rest =>
      match pending with
      | None =>
          if now - start_time <? CARD_TIMEOUT then
            match text with
            | None => None
            | Some raw =>
                let line := Py.strip raw in
                if Py.contains "," line && negb (Py.startswith "[" line) then
                  match parse_card line with
                  | Some (plate, balance) =>
                      poll start_time (Some (plate, balance, now)) rest
                  | None => poll start_time None rest
                  end
                else poll start_time None rest
            end
          else None
      | Some (plate, balance, ready_time) =>
          if now - ready_time <? READY_TIMEOUT then
            match text with
            | None => poll start_time None rest
            | Some raw =>
                if decide (Py.strip raw = "READY") then Some (plate, balance)
                else poll start_time pending rest
            end
          else None
      end
  end.

(** [read_rfid_card]: [ser] tells whether the port is open. *)
Definition read_rfid_card (ser : bool) (start_time : Z) (evs : list event)
  : option (string * Z) :=
  if ser then poll start_time None evs else None.

(** The response loop of [write_rfid_card]. *)
Fixpoint await_update (start_time : Z) (evs : list event) : bool :=
  match evs with
  | [] => false
  | (now, text) :: rest =>
      if now - start_time <? WRITE_TIMEOUT then
        match text with
        | None => false
        | Some raw =>
            let response := Py.strip raw in
            if Py.contains "[UPDATED]" response then true
            else if Py.contains "[ERROR]" response || Py.contains "[DENIED]" response
                 then false
            else if Py.contains "[TIMEOUT]" response then false
            else await_update start_time rest
        end
      else false
  end.

(** The READY line that completes a pending card read. *)
Definition ready_follows (ready_time : Z) (evs : list event) : Prop :=
  exists mid now' raw' post,
    evs = mid ++ (now', Some raw') :: post
    /\ now' - ready_time < READY_TIMEOUT
    /\ Py.strip raw' = "READY".

(** A tag read is accepted for a card line and a later [READY] line. *)
Definition accepted_read (start_time : Z) (evs : list event) (plate : string) (balance : Z)
  : Prop :=
  exists pre now raw mid now' raw' post a b,
    evs = pre ++ (now, Some raw) :: mid ++ (now', Some raw') :: post
    /\ now - start_time < CARD_TIMEOUT
    /\ Py.split "," (Py.strip raw) = [a; b]
    /\ plate = Py.strip a
    /\ Py.int (Py.filter_str Py.isprintable (Py.strip b)) = Some balance
    /\ now' - now < READY_TIMEOUT
    /\ Py.strip raw' = "READY".

End Link.

(** ** The relational store: table [vehicle_logs] *)

Module Db.

Record vehicle_log : Type := {
  id : Z;
  plate_number : string;
  entry_time : Fee.datetime;
  exit_time : option Fee.datetime;
  payment_status : option Z;
  payment_amount : option Z;
  payment_time : option Fee.datetime;
  is_unauthorized_exit : option Z
}.

(** The rows of the table, in row-id order. *)
Abbreviation table := (list vehicle_log) (only parsing).

(** [AUTOINCREMENT]: one more than the largest id in use. *)
Definition next_id (t : table) : Z :=
  1 + fold_right Z.max 0 (id <$> t).

(** [SELECT ... WHERE plate_number = ? AND entry_time = ?] with [fetchone()]:
    the first matching row.  A [NULL] plate matches nothing. *)
Definition matches (plate : option string) (entry : Fee.datetime) (r : vehicle_log) : bool :=
  match plate with
  | Some p => bool_decide (plate_number r = p) && (entry_time r =? entry)
  | None => false
  end.

Definition fetchone (plate : option string) (entry : Fee.datetime) (t : table)
  : option vehicle_log :=
  List.find (matches plate entry) t.

End Db.

(** ** The reconciler: [sync_csv_to_db] of [dashboard/database.py] *)

Module Reconciler.

Section WithClock.

(** [datetime.strptime(s, '%Y-%m-%d %H:%M:%S')]; [None] is its [ValueError]. *)
Variable strptime : string -> option Fee.datetime.

(** [row[key]] for a row of [csv.DictReader]: a field beyond the cells of a
    short row reads as [None], among equal field names the last one counts,
    an unknown field name raises [KeyError]. *)
Definition dict_get (fieldnames r : row) (key : string) : res (option string) :=
  if bool_decide (key ∈ drop (length r) fieldnames) then Ok None
  else match last (filter (fun p => p.1 = key) (zip fieldnames r)) with
       | Some (_, v) => Ok (Some v)
       | None => Raise KeyError
       end.

Definition parse_time (cell : option string) : res Fee.datetime :=
  match cell with
  | None => Raise TypeError
  | Some s => match strptime s with
              | Some t => Ok t
              | None => Raise ValueError
              end
  end.

Definition int_cell (cell : option string) : res Z :=
  match cell with
  | None => Raise TypeError
  | Some s => int_of s
  end.

(** [if row['Payment Timestamp']]: neither [None] nor the empty string *)
Definition truthy (cell : option string) : bool :=
  match cell with
  | Some s => Py.nonempty s
  | None => false
  end.

Inductive mutation : Type :=
| Inserted (r : Db.vehicle_log)
| Updated (id : Z) (status : Z) (time : option Fee.datetime) (amount : option Z).

(** [UPDATE vehicle_logs SET payment_status, payment_time, payment_amount
    WHERE id = ?] *)
Definition update_payment (i status : Z) (time : option Fee.datetime) (amount : option Z)
    (r : Db.vehicle_log) : Db.vehicle_log :=
  if Db.id r =? i then
    {| Db.id := Db.id r;
       Db.plate_number := Db.plate_number r;
       Db.entry_time := Db.entry_time r;
       Db.exit_time := Db.exit_time r;
       Db.payment_status := Some status;
       Db.payment_amount := amount;
       Db.payment_time := time;
       Db.is_unauthorized_exit := Db.is_unauthorized_exit r |}
  else r.

(** The body of the loop, lines 57-99, for one row of the reader. *)
Definition merge_row (fieldnames r : row) (db : Db.table)
  : res (Db.table * list mutation) :=
  ts ← dict_get fieldnames r "Timestamp";
  entry_time ← parse_time ts;
  pts ← dict_get fieldnames r "Payment Timestamp";
  payment_time ← (if truthy pts then Some <$> parse_time pts else Ok None);
  let payment_amount :=
    match payment_time with
    | Some _ => Fee.calculate_payment_amount entry_time payment_time
    | None => None
    end in
  plate ← dict_get fieldnames r "Plate Number";
  match Db.fetchone plate entry_time db with
  | None =>
      sc ← dict_get fieldnames r "Payment Status";
      status ← int_cell sc;
      match plate with
      | None => Raise IntegrityError
      | Some p =>
          let new :=
            {| Db.id := Db.next_id db;
               Db.plate_number := p;
               Db.entry_time := entry_time;
               Db.exit_time := None;
               Db.payment_status := Some status;
               Db.payment_amount := payment_amount;
               Db.payment_time := payment_time;
               Db.is_unauthorized_exit := Some 0 |} in
          Ok (db ++ [new], [Inserted new])
      end
  | Some existing =>
      sc ← dict_get fieldnames r "Payment Status";
      status ← int_cell sc;
      if (status =? 1) && bool_decide (Db.payment_status existing = Some 0) then
        Ok (update_payment (Db.id existing) status payment_time payment_amount <$> db,
            [Updated (Db.id existing) status payment_time payment_amount])
      else Ok (db, [])
  end.

(** The loop over the reader; [csv.DictReader] skips the empty rows. *)
Fixpoint merge_rows (fieldnames : row) (rows : list row) (db : Db.table)
  : res (Db.table * list mutation) :=
  match rows with
  | [] => Ok (db, [])
  | r :: rest =>
      match r with
      | [] => merge_rows fieldnames rest db
      | _ =>
          '(db1, m1) ← merge_row fieldnames r db;
          '(db2, m2) ← merge_rows fieldnames rest db1;
          Ok (db2, m1 ++ m2)
      end
  end.

(** [sync_csv_to_db]: the store after the call and the mutations it
    committed.  [exists] tells whether the log file is there; an exception
    rolls the transaction back. *)
Definition sync_csv_to_db (exists_ : bool) (f : log_file) (db : Db.table)
  : Db.table * list mutation :=
  if exists_ then
    match (rows ← open_log f;
           match rows with
           | [] => Ok (db, [])
           | fieldnames :: data => merge_rows fieldnames data db
           end) with
    | Ok r => r
    | Raise _ => (db, [])
    end
  else (db, []).

(** The same loop body in two steps, for the proofs: what is read from the
    row, which does not depend on the store, and what is done with it. *)
Record log_record : Type := {
  rec_plate : option string;
  rec_entry : Fee.datetime;
  rec_status : Z;
  rec_payment_time : option Fee.datetime;
  rec_amount : option Z
}.

Definition parse_row (fieldnames r : row) : res log_record :=
  ts ← dict_get fieldnames r "Timestamp";
  entry_time ← parse_time ts;
  pts ← dict_get fieldnames r "Payment Timestamp";
  payment_time ← (if truthy pts then Some <$> parse_time pts else Ok None);
  plate ← dict_get fieldnames r "Plate Number";
  sc ← dict_get fieldnames r "Payment Status";
  status ← int_cell sc;
  Ok {| rec_plate := plate;
        rec_entry := entry_time;
        rec_status := status;
        rec_payment_time := payment_time;
        rec_amount := match payment_time with
                      | Some _ => Fee.calculate_payment_amount entry_time payment_time
                      | None => None
                      end |}.

Definition apply_record (rec : log_record) (db : Db.table)
  : res (Db.table * list mutation) :=
  match Db.fetchone (rec_plate rec) (rec_entry rec) db with
  | None =>
      match rec_plate rec with
      | None => Raise IntegrityError
      | Some p =>
          let new :=
            {| Db.id := Db.next_id db;
               Db.plate_number := p;
               Db.entry_time := rec_entry rec;
               Db.exit_time := None;
               Db.payment_status := Some (rec_status rec);
               Db.payment_amount := rec_amount rec;
               Db.payment_time := rec_payment_time rec;
               Db.is_unauthorized_exit := Some 0 |} in
          Ok (db ++ [new], [Inserted new])
      end
  | Some existing =>
      if (rec_status rec =? 1) && bool_decide (Db.payment_status existing = Some 0) then
        Ok (update_payment (Db.id existing) (rec_status rec)
              (rec_payment_time rec) (rec_amount rec) <$> db,
            [Updated (Db.id existing) (rec_status rec)
               (rec_payment_time rec) (rec_amount rec)])
      else Ok (db, [])
  end.

(** The store has the record, and has it paid if the log has. *)
Definition settled (rec : log_record) (db : Db.table) : Prop :=
  exists existing,
    Db.fetchone (rec_plate rec) (rec_entry rec) db = Some existing
    /\ ~ (rec_status rec = 1 /\ Db.payment_status existing = Some 0).

(** A row of the log is settled in the store: the reader skips it, or it
    parses to a settled record. *)
Definition row_settled (fieldnames : row) (db : Db.table) (r : row) : Prop :=
  r = [] \/ exists rec, parse_row fieldnames r = Ok rec /\ settled rec db.

End WithClock.

End Reconciler.

(** ** The settlement transaction: [process_payment] of [payment.py] *)

Module Payment.

(** *** The rows as Python objects

    [rows = list(csv.reader(f))] is a list of list objects.  [entries.copy()]
    in [backup_csv_entries] copies the outer list only, [row.extend] and
    [valid_entries[i][k] = v] mutate a row object in place, and
    [row[:expected_columns]] makes a new object.  The row objects live in a
    heap, and [rows], [original_entries] and [valid_entries] are lists of
    references into it. *)

Abbreviation heap := (list row) (only parsing).

Definition deref (h : heap) (r : nat) : row := default [] (h !! r).

(** A computation that reads and mutates the heap and may raise; the heap it
    leaves matters also when it raises. *)
Definition M (A : Type) : Type := heap -> heap * res A.

#[global] Instance M_ret : MRet M := fun A a h => (h, Ok a).
#[global] Instance M_bind : MBind M := fun A B f m h =>
  match m h with
  | (h', Ok a) => f a h'
  | (h', Raise e) => (h', Raise e)
  end.

Definition lift {A} (x : res A) : M A := fun h => (h, x).
Definition get_row (r : nat) : M row := fun h => (h, Ok (deref h r)).
Definition set_row (r : nat) (v : row) : M unit := fun h => (<[r := v]> h, Ok ()).
Definition new_row (v : row) : M nat := fun h => (h ++ [v], Ok (length h)).

(** [obj[k] = v] on the row object [r] *)
Definition set_cell (r k : nat) (v : string) : M unit := fun h =>
  let cells := deref h r in
  if (k <? length cells)%nat then (<[r := <[k := v]> cells]> h, Ok ())
  else (h, Raise IndexError).

(** *** The outside world *)

Inductive io_outcome : Set :=
| IoOk                      (* the file is rewritten *)
| IoOpenFails               (* [open(CSV_FILE, 'w')] raises: nothing is written *)
| IoFailsAfter (n : nat).   (* the write raises after [n] rows *)

Inductive db_outcome : Set :=
| DbOk                      (* the updates are executed and committed *)
| DbConnectFails            (* [get_db()] raises *)
| DbExecFails.              (* [execute] or [commit] raises *)

Record env : Type := {
  now : Fee.datetime;                       (* [datetime.now()] *)
  signal_write_ok : bool;                   (* [self.ser.write(b'I\n')] does not raise *)
  debit_reply : Z * list Link.event;        (* start of the wait, lines received *)
  compensation_reply : Z * list Link.event;
  log_write : io_outcome;
  rollback_write : io_outcome;
  db_io : db_outcome
}.

Record world : Type := {
  log : log_file;
  db : Db.table
}.

Inductive event : Type :=
| Signal (bytes : string)                        (* [self.ser.write(bytes)] *)
| TagWrite (balance : Z) (acknowledged : bool)   (* [write_rfid_card] *)
| LogWrite (content : list row) (o : io_outcome) (* lines 281-284 *)
| LogRollback (content : list row) (o : io_outcome) (* [rollback_changes] *)
| DbUpdate (plate : string) (entry_time : Fee.datetime) (amount : Z)
| DbCommit
| DbRollback.

Definition write_file (current : log_file) (content : list row) (o : io_outcome)
  : log_file :=
  match o with
  | IoOk => Some content
  | IoOpenFails => current
  | IoFailsAfter n => Some (take n content)
  end.

(** [b'I\n'], the insufficient-balance signal *)
Definition INSUFFICIENT : string := String "I" (String "010" EmptyString).

(** [write_rfid_card]: the balance is sent as a line and the answer awaited;
    every exception is caught and reported as a failed write. *)
Definition write_rfid_card (reply : Z * list Link.event) : bool :=
  Link.await_update reply.1 reply.2.

Section WithClock.

Variable strptime : string -> option Fee.datetime.
Variable strftime : Fee.datetime -> string.

(** Lines 211-220: validate and clean the entries. *)
Fixpoint validate (expected_columns : nat) (rows : list nat) (valid_entries : list nat)
  : M (list nat) :=
  match rows with
  | [] => mret valid_entries
  | r :: rest =>
      cells ← get_row r;
      c0 ← lift (item cells 0);
      if negb (Py.nonempty (Py.strip c0)) then validate expected_columns rest valid_entries
      else if (length cells <? expected_columns)%nat then
        _ ← set_row r (cells ++ replicate (expected_columns - length cells) EmptyString);
        validate expected_columns rest (valid_entries ++ [r])
      else if (expected_columns <? length cells)%nat then
        r' ← new_row (take expected_columns cells);
        validate expected_columns rest (valid_entries ++ [r'])
      else validate expected_columns rest (valid_entries ++ [r])
  end.

(** What the scan of lines 227-245 accumulates: [found], [total_amount_due]
    and [entries_to_update] (index, amount, hours, entry time). *)
Abbreviation scan_state := (bool * Z * list (nat * Z * Z * Fee.datetime))%type (only parsing).

Fixpoint scan (plate : string) (exit_time : Fee.datetime)
    (valid_entries : list nat) (i : nat) (acc : scan_state) : M scan_state :=
  match valid_entries with
  | [] => mret acc
  | r :: rest =>
      let '(found, total_amount_due, entries_to_update) := acc in
      cells ← get_row r;
      c0 ← lift (item cells 0);
      if bool_decide (c0 = plate) then
        c1 ← lift (item cells 1);
        if bool_decide (c1 = "0") then
          entry_time_str ← lift (item cells 2);
          match strptime entry_time_str with
          | Some entry_time =>
              let hours_spent := Fee.hours_spent entry_time exit_time in
              let amount_due := hours_spent * Fee.RATE_PER_HOUR in
              scan plate exit_time rest (S i)
                (true, total_amount_due + amount_due,
                 entries_to_update ++ [(i, amount_due, hours_spent, entry_time)])
          | None =>
              scan plate exit_time rest (S i) (true, total_amount_due, entries_to_update)
          end
        else scan plate exit_time rest (S i) acc
      else scan plate exit_time rest (S i) acc
  end.

(** Lines 198-245, from the rows read to the amount due. *)
Definition prepare (plate : string) (exit_time : Fee.datetime) (nrows : nat)
  : M (list nat * scan_state) :=
  header ← get_row 0;
  valid_entries ← validate (length header) (seq 1 (nrows - 1)) [];
  s ← scan plate exit_time valid_entries 0 (false, 0, []);
  mret (valid_entries, s).

(** Lines 275-278: mark the entries paid, in place. *)
Fixpoint mark (stamp : string) (valid_entries : list nat)
    (entries_to_update : list (nat * Z * Z * Fee.datetime)) : M unit :=
  match entries_to_update with
  | [] => mret ()
  | (i, _, _, _) :: rest =>
      r ← lift (item valid_entries i);
      _ ← set_cell r 1 "1";
      _ ← set_cell r 3 stamp;
      mark stamp valid_entries rest
  end.

(** Lines 291-305: the [UPDATE] of one entry. *)
Definition db_update (plate : string) (entry_time exit_time : Fee.datetime) (amount : Z)
    (r : Db.vehicle_log) : Db.vehicle_log :=
  if bool_decide (Db.plate_number r = plate) && (Db.entry_time r =? entry_time) then
    {| Db.id := Db.id r;
       Db.plate_number := Db.plate_number r;
       Db.entry_time := Db.entry_time r;
       Db.exit_time := Some exit_time;
       Db.payment_status := Some 1;
       Db.payment_amount := Some amount;
       Db.payment_time := Some exit_time;
       Db.is_unauthorized_exit := Db.is_unauthorized_exit r |}
  else r.

Definition db_updates (plate : string) (exit_time : Fee.datetime)
    (entries_to_update : list (nat * Z * Z * Fee.datetime)) (t : Db.table) : Db.table :=
  fold_left
    (fun t '(_, amount, _, entry_time) => db_update plate entry_time exit_time amount <$> t)
    entries_to_update t.

Definition db_events (plate : string)
    (entries_to_update : list (nat * Z * Z * Fee.datetime)) : list event :=
  (fun '(_, amount, _, entry_time) => DbUpdate plate entry_time amount) <$> entries_to_update.

(** [rollback_changes]: rewrite the log from [original_entries]; without a
    backup nothing is done. *)
Definition rollback_changes (e : env) (original_entries : list nat) (h : heap)
    (w : world) (trace : list event) : world * list event :=
  match original_entries with
  | [] => (w, trace)
  | _ =>
      let content := deref h <$> original_entries in
      ({| log := write_file (log w) content (rollback_write e); db := db w |},
       trace ++ [LogRollback content (rollback_write e)])
  end.

(** Lines 317-327: the handler of step 2. *)
Definition compensate (e : env) (balance : Z) (original_entries : list nat) (h : heap)
    (w : world) (trace : list event) : world * list event :=
  let ok := write_rfid_card (compensation_reply e) in
  rollback_changes e original_entries h w (trace ++ [TagWrite balance ok]).

(** [process_payment(plate, balance)]: the world it leaves and what it did,
    in order.  The write of the insufficient-balance signal (line 259) is
    inside the outer [try]: when it raises, nothing was sent and the handler
    calls [rollback_changes], as it does when the scan raises. *)
Definition process_payment (e : env) (is_processing : bool) (w : world)
    (plate : string) (balance : Z) : world * list event :=
  if is_processing then (w, [])
  else
    match log w with
    | None => (w, [])
    | Some rows =>
        if (length rows <? 2)%nat then (w, [])
        else
          let original_entries := seq 0 (length rows) in
          match prepare plate (now e) (length rows) rows with
          | (h, Raise _) => rollback_changes e original_entries h w []
          | (h, Ok (valid_entries, (found, total_amount_due, entries_to_update))) =>
              if negb found then (w, [])
              else if balance <? total_amount_due then
                if signal_write_ok e then (w, [Signal INSUFFICIENT])
                else rollback_changes e original_entries h w []
              else
                let new_balance := balance - total_amount_due in
                if negb (write_rfid_card (debit_reply e))
                then (w, [TagWrite new_balance false])
                else
                  let t1 := [TagWrite new_balance true] in
                  match mark (strftime (now e)) valid_entries entries_to_update h with
                  | (h1, Raise _) => compensate e balance original_entries h1 w t1
                  | (h1, Ok _) =>
                      let content := deref h1 0 :: (deref h1 <$> valid_entries) in
                      let w1 := {| log := write_file (log w) content (log_write e);
                                   db := db w |} in
                      let t2 := t1 ++ [LogWrite content (log_write e)] in
                      match log_write e with
                      | IoOk =>
                          match db_io e with
                          | DbConnectFails =>
                              compensate e balance original_entries h1 w1 t2
                          | DbExecFails => (w1, t2 ++ [DbRollback])
                          | DbOk =>
                              ({| log := log w1;
                                  db := db_updates plate (now e) entries_to_update (db w) |},
                               t2 ++ db_events plate entries_to_update ++ [DbCommit])
                          end
                      | _ => compensate e balance original_entries h1 w1 t2
                      end
                  end
          end
    end.

(** The unpaid entries of a plate and the sum of their fees, read off the
    rows of the log. *)
Definition unpaid_for (plate : string) (cells : row) : bool :=
  bool_decide (cells !! 0%nat = Some plate) && bool_decide (cells !! 1%nat = Some "0").

Definition fee_of (exit_time : Fee.datetime) (cells : row) : Z :=
  match cells !! 2%nat ≫= strptime with
  | Some entry_time => Fee.amount_due entry_time exit_time
  | None => 0
  end.

Definition fees_due (plate : string) (exit_time : Fee.datetime) (data : list row) : Z :=
  fold_right (fun cells acc =>
                (if unpaid_for plate cells then fee_of exit_time cells else 0) + acc)
             0 data.

(** A row with as many cells as the header and a first cell that is not
    blank. *)
Definition well_formed (expected_columns : nat) (cells : row) : Prop :=
  length cells = expected_columns
  /\ exists c0, cells !! 0%nat = Some c0 /\ Py.nonempty (Py.strip c0) = true.

(** The amount the settlement finds due, when it gets as far as comparing
    it with the balance. *)
Definition total_due (exit_time : Fee.datetime) (f : log_file) (plate : string)
  : option Z :=
  match f with
  | Some rows =>
      if (length rows <? 2)%nat then None
      else match prepare plate exit_time (length rows) rows with
           | (_, Ok (_, (true, total_amount_due, _))) => Some total_amount_due
           | _ => None
           end
  | None => None
  end.

(** Reading the rows or scanning them raised, after the backup was taken. *)
Definition scan_raises (exit_time : Fee.datetime) (f : log_file) (plate : string) : bool :=
  match f with
  | Some rows =>
      if (length rows <? 2)%nat then false
      else match prepare plate exit_time (length rows) rows with
           | (_, Raise _) => true
           | _ => false
           end
  | None => false
  end.

End WithClock.

(** Modelled from the spec: the firmware of the tag reader ([payment.ino]) is
    not part of the sources.  "RFID Tag State: a (plate, balance) pair encoded
    on a tag; mutated only by a confirmed write over the RFID/Gate Link." *)
Definition tag_after (balance : Z) (trace : list event) : Z :=
  fold_left
    (fun b ev => match ev with TagWrite v true => v | _ => b end)
    trace balance.

(** The events that touch the log or the relational store. *)
Definition store_event (ev : event) : bool :=
  match ev with
  | LogWrite _ _ | LogRollback _ _ | DbUpdate _ _ _ | DbCommit | DbRollback => true
  | Signal _ | TagWrite _ _ => false
  end.

Definition is_db_update (ev : event) : bool :=
  match ev with
  | DbUpdate _ _ _ => true
  | _ => false
  end.

Definition acknowledged_write (ev : event) : bool :=
  match ev with
  | TagWrite _ true => true
  | _ => false
  end.

End Payment.
From stdpp Require Import sorting.
Open Scope Z_scope.


(** ** What the lane scripts send and record *)

Inductive action : Type :=
| Sent (bytes : string)                  (* [arduino.write(bytes)] *)
| EntryLogged (plate : string) (t : Z)   (* [log_vehicle_entry] returned [True] *)
| EntryFailed (plate : string)           (* [log_vehicle_entry] returned [False] *)
| EntrySkipped (plate : string).         (* duplicate within the cooldown *)

(** ** The entry lane: [log_vehicle_entry] and the main loop of [car_entry.py] *)

Module Entry.

Record env : Type := {
  now : Fee.datetime;           (* [datetime.now()] in [log_vehicle_entry] *)
  current_time : Z;             (* [time.time()], in microseconds *)
  log_terminated : bool;        (* the log file ends with a line terminator *)
  csv_append_ok : bool;         (* [open(CSV_FILE, 'a')] and the write succeed *)
  db_io : Payment.db_outcome
}.

(** [entry_cooldown = 300] seconds *)
Definition entry_cooldown : Z := 300 * 1000000.

Section WithClock.

Variable strftime : Fee.datetime -> string.

(** The row [[plate_number, 0, entry_time_str, '']] as the writer puts it. *)
Definition entry_row (plate_number : string) (entry_time : Fee.datetime) : row :=
  [plate_number; "0"; strftime entry_time; EmptyString].

(** The rows of the file after [writerow] appended the line of [new] to its
    bytes.  After a line terminator, or in an empty file, the line is a row
    of its own.  After a last line without terminator the bytes continue
    that line: its last cell runs on into the first cell of [new], and the
    other cells of [new] follow in the same row.  (This is for a first cell
    the writer does not quote, as a plate of letters and digits, and a last
    line that does not end inside a quoted field.)  A file the [csv] writers
    of the system wrote ends with a terminator. *)
Definition glue (last_row new : row) : row :=
  match new with
  | [] => last_row
  | c :: cs =>
      take (length last_row - 1) last_row
      ++ (String.append (default EmptyString (last last_row)) c) :: cs
  end.

Definition append_line (terminated : bool) (rows : list row) (new : row) : list row :=
  if terminated then rows ++ [new]
  else match last rows with
       | Some (c :: cs) => take (length rows - 1) rows ++ [glue (c :: cs) new]
       | _ => rows ++ [new]   (* no line, or an empty line, which is terminated *)
       end.

(** [INSERT INTO vehicle_logs (plate_number, entry_time, payment_status)
    VALUES (?, ?, 0)]: the other columns take their defaults. *)
Definition new_session (t : Db.table) (plate_number : string) (entry_time : Fee.datetime)
  : Db.vehicle_log :=
  {| Db.id := Db.next_id t;
     Db.plate_number := plate_number;
     Db.entry_time := entry_time;
     Db.exit_time := None;
     Db.payment_status := Some 0;
     Db.payment_amount := None;
     Db.payment_time := None;
     Db.is_unauthorized_exit := Some 0 |}.

(** [log_vehicle_entry(plate_number)].  Appending creates the file when it is
    missing ([log = None]); [log_terminated] says how the bytes of the file
    end when the line is appended.  [get_db()] is called outside the inner
    [try]:
    when it raises, the row is already in the log and [False] is returned;
    when the [INSERT] raises, it is rolled back and [True] is returned. *)
Definition log_vehicle_entry (e : env) (w : Payment.world) (plate_number : string)
  : Payment.world * bool :=
  if csv_append_ok e then
    let log' := Some (append_line (log_terminated e) (default [] (Payment.log w))
                        (entry_row plate_number (now e))) in
    match db_io e with
    | Payment.DbConnectFails => ({| Payment.log := log'; Payment.db := Payment.db w |}, false)
    | Payment.DbExecFails => ({| Payment.log := log'; Payment.db := Payment.db w |}, true)
    | Payment.DbOk =>
        ({| Payment.log := log';
            Payment.db := Payment.db w ++ [new_session (Payment.db w) plate_number (now e)] |},
         true)
    end
  else (w, false).

(** The variables of the main loop. *)
Record state : Type := {
  plate_buffer : list string;
  last_saved_plate : option string;
  last_entry_time : Z;
  world : Payment.world
}.

Definition initial (w : Payment.world) : state :=
  {| plate_buffer := []; last_saved_plate := None; last_entry_time := 0; world := w |}.

(** Lines 174-219 for one recognised text: the new state and what was done.
    [arduino] tells whether the port was found. *)
Definition on_text (arduino : bool) (e : env) (st : state) (plate_text : string)
  : state * list action :=
  match Plate.on_text Plate.ENTRY_THRESHOLD (plate_buffer st) plate_text with
  | (Some most_common, buf) =>
      if negb (bool_decide (Some most_common = last_saved_plate st))
         || (entry_cooldown <? current_time e - last_entry_time st)
      then
        match log_vehicle_entry e (world st) most_common with
        | (w, true) =>
            ({| plate_buffer := buf;
                last_saved_plate := Some most_common;
                last_entry_time := current_time e;
                world := w |},
             EntryLogged most_common (current_time e)
             :: (if arduino then [Sent "1"; Sent "0"] else []))
        | (w, false) =>
            ({| plate_buffer := buf;
                last_saved_plate := last_saved_plate st;
                last_entry_time := last_entry_time st;
                world := w |},
             [EntryFailed most_common])
        end
      else
        ({| plate_buffer := buf;
            last_saved_plate := last_saved_plate st;
            last_entry_time := last_entry_time st;
            world := world st |},
         [EntrySkipped most_common])
  | (None, buf) =>
      ({| plate_buffer := buf;
          last_saved_plate := last_saved_plate st;
          last_entry_time := last_entry_time st;
          world := world st |}, [])
  end.

(** The loop over the texts recognised, each with what the world does then. *)
Fixpoint run (arduino : bool) (st : state) (inputs : list (env * string))
  : state * list action :=
  match inputs with
  | [] => (st, [])
  | (e, plate_text) :: rest =>
      let '(st1, a1) := on_text arduino e st plate_text in
      let '(st2, a2) := run arduino st1 rest in
      (st2, a1 ++ a2)
  end.

End WithClock.

Definition is_logged (a : action) : bool :=
  match a with
  | EntryLogged _ _ => true
  | _ => false
  end.

End Entry.

(** ** The exit lane: [log_vehicle_exit] and the main loop of [car_exit.py] *)

Module ExitLane.

(** A session of the plate that has not exited. *)
Definition is_open (plate_number : string) (r : Db.vehicle_log) : bool :=
  bool_decide (Db.plate_number r = plate_number)
  && bool_decide (Db.exit_time r = None).

(** [ORDER BY entry_time DESC LIMIT 1]: a row with the latest entry time;
    among rows with the same entry time the first in row-id order is taken
    here (SQL leaves the choice open). *)
Fixpoint latest (best : Db.vehicle_log) (rows : Db.table) : Db.vehicle_log :=
  match rows with
  | [] => best
  | r :: rest => latest (if Db.entry_time best <? Db.entry_time r then r else best) rest
  end.

Definition select_open (plate_number : string) (t : Db.table) : option Db.vehicle_log :=
  match filter (fun r => is_open plate_number r = true) t with
  | [] => None
  | r :: rest => Some (latest r rest)
  end.

(** [UPDATE vehicle_logs SET exit_time = ?, is_unauthorized_exit = ? WHERE id = ?] *)
Definition close (i : Z) (exit_time : Fee.datetime) (unauthorized : Z)
    (r : Db.vehicle_log) : Db.vehicle_log :=
  if Db.id r =? i then
    {| Db.id := Db.id r;
       Db.plate_number := Db.plate_number r;
       Db.entry_time := Db.entry_time r;
       Db.exit_time := Some exit_time;
       Db.payment_status := Db.payment_status r;
       Db.payment_amount := Db.payment_amount r;
       Db.payment_time := Db.payment_time r;
       Db.is_unauthorized_exit := Some unauthorized |}
  else r.

(** [log_vehicle_exit(plate_number, is_authorized)]: the table it leaves and
    its result.  Any database error gives [False] and leaves the table. *)
Definition log_vehicle_exit (io : Payment.db_outcome) (exit_time : Fee.datetime)
    (t : Db.table) (plate_number : string) (is_authorized : bool) : Db.table * bool :=
  match io with
  | Payment.DbOk =>
      match select_open plate_number t with
      | None => (t, false)
      | Some entry =>
          (close (Db.id entry) exit_time (if is_authorized then 0 else 1) <$> t, true)
      end
  | _ => (t, false)
  end.

(** Lines 209-228: what is done with the plate the voter emitted. *)
Definition on_plate (arduino : bool) (io : Payment.db_outcome) (exit_time : Fee.datetime)
    (w : Payment.world) (most_common : string) : Payment.world * list action :=
  if Exit.is_payment_complete (Payment.log w) most_common then
    match log_vehicle_exit io exit_time (Payment.db w) most_common true with
    | (t, true) =>
        ({| Payment.log := Payment.log w; Payment.db := t |},
         if arduino then [Sent "1"; Sent "0"] else [])
    | (t, false) => ({| Payment.log := Payment.log w; Payment.db := t |}, [])
    end
  else
    let '(t, _) := log_vehicle_exit io exit_time (Payment.db w) most_common false in
    ({| Payment.log := Payment.log w; Payment.db := t |},
     if arduino then [Sent "2"] else []).

(** The number of open sessions of a plate. *)
Definition open_sessions (plate_number : string) (t : Db.table) : nat :=
  length (filter (fun r => is_open plate_number r = true) t).

End ExitLane.

(** Auxiliary notions for the properties of the entry lane. *)

Module EntryProps.

(** The plate and time of the entry the loop saved last. *)
Definition last_saved (st : Entry.state) : option (string * Z) :=
  match Entry.last_saved_plate st with
  | Some p => Some (p, Entry.last_entry_time st)
  | None => None
  end.

(** Every logged entry is, when it has the plate of the entry logged before
    it, more than the cooldown later. *)
Fixpoint spaced_from (last : option (string * Z)) (tr : list action) : Prop :=
  match tr with
  | [] => True
  | EntryLogged p t :: rest =>
      match last with
      | Some (p0, t0) => p = p0 -> Entry.entry_cooldown < t - t0
      | None => True
      end
      /\ spaced_from (Some (p, t)) rest
  | _ :: rest => spaced_from last rest
  end.

(** The gate is opened right after a logged entry and closed right after. *)
Definition gated (tr : list action) : Prop :=
  forall a b, tr = a ++ Sent "1" :: b ->
    exists a' p t b', a = a' ++ [EntryLogged p t] /\ b = Sent "0" :: b'.

End EntryProps.

(** Auxiliary notions for the properties of the RFID link. *)

Module LinkProps.

(** A response line [write_rfid_card] reads and passes over: it arrives
    within the timeout, decodes, and carries none of the four markers. *)
Definition passed_over (start_time : Z) (ev : Link.event) : Prop :=
  ev.1 - start_time < Link.WRITE_TIMEOUT
  /\ exists raw, ev.2 = Some raw
       /\ Py.contains "[UPDATED]" (Py.strip raw) = false
       /\ Py.contains "[ERROR]" (Py.strip raw) = false
       /\ Py.contains "[DENIED]" (Py.strip raw) = false
       /\ Py.contains "[TIMEOUT]" (Py.strip raw) = false.

(** A line the outer loop of [read_rfid_card] reads and skips: within the
    card timeout, decodable, and not a card line that parses. *)
Definition skipped (start_time : Z) (ev : Link.event) : Prop :=
  ev.1 - start_time < Link.CARD_TIMEOUT
  /\ exists raw, ev.2 = Some raw
       /\ (Py.contains "," (Py.strip raw) && negb (Py.startswith "[" (Py.strip raw)) = false
           \/ Link.parse_card (Py.strip raw) = None).

(** A line the inner loop reads while it waits for [READY]. *)
Definition not_ready (ready_time : Z) (ev : Link.event) : Prop :=
  ev.1 - ready_time < Link.READY_TIMEOUT
  /\ exists raw, ev.2 = Some raw /\ Py.strip raw <> "READY".

End LinkProps.

(** Auxiliary notions for the properties of the reconciler. *)

Module ReconcilerProps.

(** The header [car_entry.py] writes when it creates the log (line 72). *)
Definition HEADER : row :=
  ["Plate Number"; "Payment Status"; "Timestamp"; "Payment Timestamp"].

(** Two rows are the same session: all columns but the payment ones agree. *)
Definition same_session (s s' : Db.vehicle_log) : Prop :=
  Db.id s' = Db.id s
  /\ Db.plate_number s' = Db.plate_number s
  /\ Db.entry_time s' = Db.entry_time s
  /\ Db.exit_time s' = Db.exit_time s
  /\ Db.is_unauthorized_exit s' = Db.is_unauthorized_exit s.

(** [t'] keeps the sessions of [t]: each is still there, and unchanged unless
    it was unpaid (status 0). *)
Definition keeps (t t' : Db.table) : Prop :=
  forall s, s ∈ t ->
    exists s', s' ∈ t' /\ same_session s s'
               /\ (Db.payment_status s <> Some 0 -> s' = s).

End ReconcilerProps.

(** Auxiliary notions for the properties of the settlement. *)

Module PaymentProps.

Section WithClock.

Variable strptime : string -> option Fee.datetime.

(** An unpaid row of the plate whose timestamp can be read: the rows the
    scan of [process_payment] puts into [entries_to_update]. *)
Definition chargeable (plate : string) (cells : row) : bool :=
  Payment.unpaid_for plate cells
  && bool_decide (is_Some (cells !! 2%nat ≫= strptime)).

(** The row object after lines 276-277. *)
Definition mark_cells (stamp : string) (cells : row) : row :=
  <[3%nat := stamp]> (<[1%nat := "1"]> cells).

Definition settle_row (plate stamp : string) (cells : row) : row :=
  if chargeable plate cells then mark_cells stamp cells else cells.

(** The indices of the chargeable rows, counted from [i]. *)
Fixpoint picked (plate : string) (rows : list row) (i : nat) : list nat :=
  match rows with
  | [] => []
  | cells :: rest =>
      (if chargeable plate cells then [i] else []) ++ picked plate rest (S i)
  end.


(** The entry times of the chargeable rows, as the scan reads them. *)
Definition picked_times (plate : string) (rows : list row) : list Fee.datetime :=
  omap (fun cells => if chargeable plate cells then cells !! 2%nat ≫= strptime else None)
       rows.

End WithClock.

(** The heap after the row objects [refs] were marked, one after the other. *)
Definition mark_heap (stamp : string) (refs : list nat) (h : list row) : list row :=
  fold_left (fun h r => <[r := mark_cells stamp (Payment.deref h r)]> h) refs h.

(** The index of an entry of [entries_to_update]. *)
Definition index_of (x : nat * Z * Z * Fee.datetime) : nat := x.1.1.1.

Definition time_of (x : nat * Z * Z * Fee.datetime) : Fee.datetime := x.2.


(** The row objects lines 275-278 mark: [valid_entries[i]] for the entries of
    [entries_to_update]. *)
Definition marked_refs (valid_entries : list nat)
    (entries : list (nat * Z * Z * Fee.datetime)) : list nat :=
  omap (fun x => valid_entries !! index_of x) entries.

(** What lines 281-284 write once the marking is done, in terms of the heap
    [h] the scan left: the header and the valid entries, the marked ones with
    status 1 and the payment time. *)
Definition marked_content (stamp : string) (h : list row) (valid_entries : list nat)
    (entries : list (nat * Z * Z * Fee.datetime)) : list row :=
  Payment.deref h 0
  :: ((fun r => if bool_decide (r ∈ marked_refs valid_entries entries)
                then mark_cells stamp (Payment.deref h r)
                else Payment.deref h r) <$> valid_entries).


Definition is_tag_write (ev : Payment.event) : bool :=
  match ev with
  | Payment.TagWrite _ _ => true
  | _ => false
  end.

End PaymentProps.

(** Auxiliary notion for the properties of the fee. *)

Module FeeProps.

(** A hundred years of 365 days, in microseconds.  The source computes
    [duration.total_seconds() / 3600] in double precision; for a duration of
    at most this size the quotient it gets has the integer part of the exact
    quotient and a fractional part that is zero exactly when the exact one
    is, so [round_up_hours] is what the source computes.  (For durations of
    several centuries the last microsecond is lost.) *)
Definition EXACT_RANGE : Z := 876000 * Fee.hour.

End FeeProps.

(** ** The dashboard: [get_daily_stats] and [get_recent_logs]

    The functions are modelled for a database that answers; an error of
    [sqlite3] is not caught by them and reaches the caller. *)

Module Dashboard.

(** [date(entry_time)]: the day of a timestamp, as a day number. *)
Definition date_of (t : Fee.datetime) : Z := t / 86400000000.

(** A row of [daily_stats] without its key, and the dict [get_daily_stats]
    returns; [None] is [NULL]. *)
Record stats : Type := {
  total_entries : option Z;
  total_exits : option Z;
  total_revenue : option Z;
  unauthorized_exits : option Z
}.

(** The table [daily_stats]: the rows with their [date], in row-id order. *)
Abbreviation daily_stats := (list (Z * stats)) (only parsing).

(** [SUM]: [NULL] values are skipped, and without a value the sum is [NULL]. *)
Definition sql_sum (xs : list (option Z)) : option Z :=
  match omap id xs with
  | [] => None
  | vs => Some (foldr Z.add 0 vs)
  end.

(** [SELECT ... FROM daily_stats WHERE date = ?] with [fetchone()] *)
Definition cached (date : Z) (ds : daily_stats) : option stats :=
  snd <$> List.find (fun p => p.1 =? date) ds.

(** The aggregate query over [vehicle_logs], lines 189-197. *)
Definition aggregate (date : Z) (t : Db.table) : stats :=
  let rows := filter (fun r => date_of (Db.entry_time r) = date) t in
  {| total_entries := Some (Z.of_nat (length rows));
     total_exits :=
       sql_sum ((fun r => Some (match Db.exit_time r with
                                | Some _ => 1
                                | None => 0
                                end)) <$> rows);
     total_revenue :=
       sql_sum ((fun r => if bool_decide (Db.payment_status r = Some 1)
                          then Db.payment_amount r else Some 0) <$> rows);
     unauthorized_exits :=
       sql_sum ((fun r => Some (if bool_decide (Db.is_unauthorized_exit r = Some 1)
                                then 1 else 0)) <$> rows) |}.

(** [INSERT ... ON CONFLICT(date) DO UPDATE SET ...] *)
Definition upsert (date : Z) (s : stats) (ds : daily_stats) : daily_stats :=
  if existsb (fun p => p.1 =? date) ds
  then (fun p => if p.1 =? date then (date, s) else p) <$> ds
  else ds ++ [(date, s)].

(** [get_daily_stats(date)]: the table [daily_stats] after the call and the
    dict returned. *)
Definition get_daily_stats (date : Z) (ds : daily_stats) (t : Db.table)
  : daily_stats * stats :=
  match cached date ds with
  | Some s => (ds, s)
  | None =>
      let s := aggregate date t in
      (upsert date
         {| total_entries := total_entries s;
            total_exits := total_exits s;
            total_revenue := Some (default 0 (total_revenue s));   (* [... or 0] *)
            unauthorized_exits := unauthorized_exits s |} ds,
       s)
  end.

(** A row of the result of [get_recent_logs]: the columns selected. *)
Record recent_log : Type := {
  plate_number : string;
  entry_time : Fee.datetime;
  exit_time : option Fee.datetime;
  payment_status : option Z;
  payment_amount : option Z;
  payment_time : option Fee.datetime;
  is_unauthorized_exit : option Z
}.

Definition columns (r : Db.vehicle_log) : recent_log :=
  {| plate_number := Db.plate_number r;
     entry_time := Db.entry_time r;
     exit_time := Db.exit_time r;
     payment_status := Db.payment_status r;
     payment_amount := Db.payment_amount r;
     payment_time := Db.payment_time r;
     is_unauthorized_exit := Db.is_unauthorized_exit r |}.

(** [ORDER BY entry_time DESC]: [a] may come before [b]. *)
Definition not_earlier (a b : Db.vehicle_log) : Prop :=
  Db.entry_time b <= Db.entry_time a.

#[global] Instance not_earlier_dec : RelDecision not_earlier :=
  fun a b => Z.le_dec (Db.entry_time b) (Db.entry_time a).

(** [ORDER BY entry_time DESC LIMIT ?]: the rows sorted by entry time, the
    latest first, and the first [limit] of them; a negative limit is no
    limit.  Among rows with the same entry time the order is the one the
    sort gives (SQL leaves it open). *)
Definition most_recent (limit : Z) (t : Db.table) : Db.table :=
  let sorted := merge_sort not_earlier t in
  if limit <? 0 then sorted else take (Z.to_nat limit) sorted.

(** [get_recent_logs(limit)] *)
Definition get_recent_logs (limit : Z) (t : Db.table) : list recent_log :=
  columns <$> most_recent limit t.

End Dashboard.
(** * Properties *)

Example int_plain : Py.int "500" = Some 500.
Proof. reflexivity. Qed.
Example int_negative : Py.int " -5 " = Some (-5).
Proof. reflexivity. Qed.
Example int_underscore : Py.int "1_000" = Some 1000.
Proof. reflexivity. Qed.
Example int_bad : Py.int "12a" = None /\ Py.int "" = None /\ Py.int "1__0" = None.
Proof. repeat split; reflexivity. Qed.
Example strip_both : Py.strip "  READY  " = "READY".
Proof. reflexivity. Qed.
Example split_two : Py.split "," "RAB123C,500" = ["RAB123C"; "500"].
Proof. reflexivity. Qed.

Example fee_five_minutes : Fee.amount_due 0 300000000 = 500.
Proof. reflexivity. Qed.
Example fee_exact_hour : Fee.amount_due 0 3600000000 = 500.
Proof. reflexivity. Qed.
Example fee_hour_and_a_bit : Fee.amount_due 0 3600000001 = 1000.
Proof. reflexivity. Qed.
Example fee_dashboard_five_minutes :
Fee.calculate_payment_amount 0 (Some 300000000) = Some 500.
Proof. reflexivity. Qed.


(** ** Facts about the string primitives *)

Section StringFacts.

#[local] Arguments Py.startswith : simpl never.

Lemma startswith_slice_to p s :
  Py.startswith p s = true <-> Py.slice_to (String.length p) s = p.
Proof.
  unfold Py.startswith. revert s.
  induction p as [|a p IH]; intros s; simpl.
  - destruct s; simpl; tauto.
  - destruct s as [|b s]; simpl; [split; discriminate|].
    destruct (ascii_dec a b) as [->|Hne].
    + rewrite IH. split; [intros ->; reflexivity | intros [=]; assumption].
    + split; [discriminate | intros [=]; congruence].
Qed.

Lemma slice_to_length n s :
  String.length (Py.slice_to n s) = Nat.min n (String.length s).
Proof.
  revert s. induction n as [|n IH]; intros [|c s]; simpl; auto.
Qed.

Lemma slice_from_nonempty i s :
  Py.slice_from i s <> EmptyString -> (i < String.length s)%nat.
Proof.
  revert s. induction i as [|i IH]; intros [|c s]; simpl; try congruence; try lia.
  intros H. apply IH in H. lia.
Qed.

Lemma slice_from_S i c s : Py.slice_from (S i) (String c s) = Py.slice_from i s.
Proof. reflexivity. Qed.

Lemma find_Some sub s i :
  Py.find sub s = Some i ->
  Py.startswith sub (Py.slice_from i s) = true /\
  forall j, (j < i)%nat -> Py.startswith sub (Py.slice_from j s) = false.
Proof.
  revert i. induction s as [|c s IH]; intros i; simpl.
  - destruct (Py.startswith sub "") eqn:E; [|discriminate].
    intros [= <-]. split; [assumption | intros; lia].
  - destruct (Py.startswith sub (String c s)) eqn:E.
    + intros [= <-]. split; [assumption | intros; lia].
    + destruct (Py.find sub s) as [k|] eqn:F; simpl; [|discriminate].
      intros [= <-]. destruct (IH k eq_refl) as [H1 H2].
      split; [assumption|].
      intros [|j] Hj; simpl; [assumption | apply H2; lia].
Qed.

Lemma find_first sub s i :
  (i <= String.length s)%nat ->
  Py.startswith sub (Py.slice_from i s) = true ->
  (forall j, (j < i)%nat -> Py.startswith sub (Py.slice_from j s) = false) ->
  Py.find sub s = Some i.
Proof.
  revert i. induction s as [|c s IH]; intros i Hi H1 H2.
  - simpl in Hi. assert (i = 0%nat) as -> by lia. simpl in *. rewrite H1. reflexivity.
  - destruct i as [|i].
    + simpl in *. rewrite H1. reflexivity.
    + pose proof (H2 0%nat ltac:(lia)) as H0. simpl in H0 |- *. rewrite H0.
      rewrite (IH i); [reflexivity | simpl in Hi; lia | assumption |].
      intros j Hj. apply (H2 (S j)). lia.
Qed.

Lemma upper_not_lower c : Py.is_upper c = true -> Py.is_lower c = false.
Proof. unfold Py.is_upper, Py.is_lower. lia. Qed.

End StringFacts.

(** ** Plate validation *)

Section PlateValidation.

Lemma marker_at_startswith i s :
  Plate.marker_at i s <-> Py.startswith "RA" (Py.slice_from i s) = true.
Proof.
  unfold Plate.marker_at, Py.slice. rewrite startswith_slice_to.
  replace (i + 2 - i)%nat with 2%nat by lia. reflexivity.
Qed.

Lemma ascii_classes c :
  Py.code c < 128 ->
  Py.uc_upper c = Py.is_upper c /\ Py.uc_lower c = Py.is_lower c
  /\ Py.uc_digit c = Py.is_digit c.
Proof.
  unfold Py.uc_upper, Py.uc_lower, Py.uc_digit, Py.is_upper, Py.is_lower, Py.is_digit.
  intros H. repeat split.
  - replace (192 <=? Py.code c) with false by (symmetry; apply Z.leb_gt; lia).
    replace (216 <=? Py.code c) with false by (symmetry; apply Z.leb_gt; lia).
    cbn [andb]. rewrite !orb_false_r. reflexivity.
  - replace (Py.code c =? 170) with false by (symmetry; apply Z.eqb_neq; lia).
    replace (Py.code c =? 181) with false by (symmetry; apply Z.eqb_neq; lia).
    replace (Py.code c =? 186) with false by (symmetry; apply Z.eqb_neq; lia).
    replace (223 <=? Py.code c) with false by (symmetry; apply Z.leb_gt; lia).
    replace (248 <=? Py.code c) with false by (symmetry; apply Z.leb_gt; lia).
    cbn [andb]. rewrite !orb_false_r. reflexivity.
  - replace (Py.code c =? 178) with false by (symmetry; apply Z.eqb_neq; lia).
    replace (Py.code c =? 179) with false by (symmetry; apply Z.eqb_neq; lia).
    replace (Py.code c =? 185) with false by (symmetry; apply Z.eqb_neq; lia).
    rewrite !orb_false_r. reflexivity.
Qed.

Lemma isascii_slice_from i s : Py.isascii s = true -> Py.isascii (Py.slice_from i s) = true.
Proof.
  unfold Py.isascii. revert s. induction i as [|i IH]; intros s H; [exact H|].
  destruct s as [|c s]; [reflexivity|]. simpl in *.
  apply andb_true_iff in H as [_ H]. apply IH, H.
Qed.

Lemma isascii_slice_to n s : Py.isascii s = true -> Py.isascii (Py.slice_to n s) = true.
Proof.
  unfold Py.isascii. revert s. induction n as [|n IH]; intros s H; [reflexivity|].
  destruct s as [|c s]; [reflexivity|]. simpl in *.
  apply andb_true_iff in H as [Hc H]. rewrite Hc. apply IH, H.
Qed.

(** On seven ASCII characters the checks of the code are the format
    [[A-Z]{3}[0-9]{3}[A-Z]]. *)
Lemma format_check t :
  String.length t = 7%nat ->
  Py.isascii t = true ->
  Py.isalpha (Py.slice_to 3 t) && Py.isupper (Py.slice_to 3 t)
  && Py.isdigit (Py.slice 3 6 t)
  && Py.isalpha (Py.slice 6 7 t) && Py.isupper (Py.slice 6 7 t)
  = Plate.matches_format t.
Proof.
  intros Hlen Hascii.
  destruct t as [|a [|b [|c [|d [|e [|f [|g [|h t]]]]]]]]; try discriminate.
  unfold Py.isascii in Hascii. cbn [Py.forallb_str] in Hascii.
  repeat (apply andb_true_iff in Hascii as [?%Z.ltb_lt Hascii]).
  destruct (ascii_classes a) as (Ua & La & _); [assumption|].
  destruct (ascii_classes b) as (Ub & Lb & _); [assumption|].
  destruct (ascii_classes c) as (Uc & Lc & _); [assumption|].
  destruct (ascii_classes d) as (_ & _ & Dd); [assumption|].
  destruct (ascii_classes e) as (_ & _ & De); [assumption|].
  destruct (ascii_classes f) as (_ & _ & Df); [assumption|].
  destruct (ascii_classes g) as (Ug & Lg & _); [assumption|].
  unfold Py.isalpha, Py.isupper, Py.isdigit, Py.slice, Py.uc_alpha. simpl.
  rewrite Ua, La, Ub, Lb, Uc, Lc, Dd, De, Df, Ug, Lg.
  pose proof (upper_not_lower a). pose proof (upper_not_lower b).
  pose proof (upper_not_lower c). pose proof (upper_not_lower g).
  destruct (Py.is_upper a), (Py.is_lower a); simpl; try reflexivity;
    try (exfalso; intuition congruence);
  (destruct (Py.is_upper b), (Py.is_lower b); simpl; try reflexivity;
    try (exfalso; intuition congruence));
  (destruct (Py.is_upper c), (Py.is_lower c); simpl; try reflexivity;
    try (exfalso; intuition congruence));
  destruct (Py.is_digit d), (Py.is_digit e), (Py.is_digit f); simpl; try reflexivity;
  destruct (Py.is_upper g), (Py.is_lower g); simpl; try reflexivity;
    exfalso; intuition congruence.
Qed.

Lemma matches_format_length t : Plate.matches_format t = true -> String.length t = 7%nat.
Proof.
  destruct t as [|a [|b [|c [|d [|e [|f [|g [|h t]]]]]]]]; simpl; try discriminate.
  reflexivity.
Qed.

Lemma plate_candidate_of_Some s c :
  Py.isascii s = true ->
  Plate.plate_candidate_of s = Some c <->
  exists i, Plate.marker_at i s
            /\ (forall j, (j < i)%nat -> ~ Plate.marker_at j s)
            /\ c = Py.slice i (i + 7) s
            /\ Plate.matches_format c = true.
Proof.
  intros Hascii.
  assert (forall i, Py.isascii (Py.slice_to 7 (Py.slice_from i s)) = true) as Hwin
    by (intros i; apply isascii_slice_to, isascii_slice_from, Hascii).
  unfold Plate.plate_candidate_of, Py.contains. split.
  - destruct (Py.find "RA" s) as [i|] eqn:F; [|discriminate].
    apply find_Some in F as [H1 H2].
    destruct (7 <=? _)%nat eqn:Hlen; [|discriminate].
    apply Nat.leb_le in Hlen.
    set (t := Py.slice_to 7 (Py.slice_from i s)).
    assert (String.length t = 7%nat) as Ht
      by (unfold t; rewrite slice_to_length; lia).
    rewrite (format_check t Ht (Hwin i)).
    destruct (Plate.matches_format t) eqn:M; [|discriminate].
    intros [= <-]. exists i. repeat split.
    + apply marker_at_startswith, H1.
    + intros j Hj Hm. apply marker_at_startswith in Hm.
      rewrite (H2 j Hj) in Hm. discriminate.
    + unfold Py.slice, t. replace (i + 7 - i)%nat with 7%nat by lia. reflexivity.
    + assumption.
  - intros (i & Hm & Hmin & -> & M).
    apply marker_at_startswith in Hm.
    assert (Py.find "RA" s = Some i) as F.
    { apply find_first; [| assumption |].
      - assert (Py.slice_from i s <> EmptyString) as Hne
          by (intros E; rewrite E in Hm; discriminate).
        apply slice_from_nonempty in Hne. lia.
      - intros j Hj. destruct (Py.startswith "RA" (Py.slice_from j s)) eqn:E; [|reflexivity].
        exfalso. apply (Hmin j Hj), marker_at_startswith, E. }
    rewrite F.
    unfold Py.slice in M. replace (i + 7 - i)%nat with 7%nat in M by lia.
    pose proof (matches_format_length _ M) as Hlen.
    rewrite slice_to_length in Hlen.
    replace (7 <=? _)%nat with true by (symmetry; apply Nat.leb_le; lia).
    rewrite format_check by (try apply Hwin; rewrite slice_to_length; lia).
    rewrite M. unfold Py.slice. replace (i + 7 - i)%nat with 7%nat by lia. reflexivity.
Qed.

End PlateValidation.

(** ** The plate voter *)

Section PlateVoter.

Implicit Types (l buf : list string) (C : list (string * nat)) (x y e : string).

Lemma cnt_counter_add C x y :
  Plate.cnt (Plate.counter_add x C) y = if decide (y = x) then S (Plate.cnt C y) else Plate.cnt C y.
Proof.
  induction C as [|[z n] C IH]; simpl.
  - repeat case_decide; congruence.
  - destruct (decide (x = z)) as [->|Hxz]; simpl.
    + repeat case_decide; congruence.
    + rewrite IH. repeat case_decide; congruence.
Qed.

Lemma occurrences_snoc l x y :
  Plate.occurrences y (l ++ [x])
  = if decide (y = x) then S (Plate.occurrences y l) else Plate.occurrences y l.
Proof.
  unfold Plate.occurrences. rewrite filter_app, length_app.
  rewrite filter_cons, filter_nil.
  repeat case_decide; simpl; try congruence; lia.
Qed.

Lemma Counter_snoc l x : Plate.Counter (l ++ [x]) = Plate.counter_add x (Plate.Counter l).
Proof. unfold Plate.Counter. rewrite fold_left_app. reflexivity. Qed.

Lemma cnt_Counter l y : Plate.cnt (Plate.Counter l) y = Plate.occurrences y l.
Proof.
  induction l as [|x l IH] using rev_ind; [reflexivity|].
  rewrite Counter_snoc, cnt_counter_add, occurrences_snoc, IH. reflexivity.
Qed.

Lemma keys_counter_add C x :
  (Plate.counter_add x C).*1
  = if decide (x ∈ C.*1) then C.*1 else C.*1 ++ [x].
Proof.
  induction C as [|[z n] C IH]; cbn [Plate.counter_add].
  - rewrite decide_False by inversion 1. reflexivity.
  - destruct (decide (x = z)) as [->|Hxz]; rewrite !fmap_cons; cbn [fst].
    + rewrite decide_True by left. reflexivity.
    + rewrite IH. destruct (decide (x ∈ C.*1)) as [Hin|Hin].
      * rewrite decide_True by (right; assumption). reflexivity.
      * rewrite decide_False; [reflexivity|].
        intros H. apply elem_of_cons in H as [?|?]; contradiction.
Qed.

Lemma occurrences_pos l x : x ∈ l <-> (0 < Plate.occurrences x l)%nat.
Proof.
  unfold Plate.occurrences. induction l as [|y l IH].
  - simpl. split; [inversion 1 | lia].
  - rewrite filter_cons. case_decide as E; simpl.
    + subst. split; [lia | intros; left].
    + rewrite <- IH. rewrite elem_of_cons. intuition congruence.
Qed.

Lemma first_seen_app_l l l' x :
  x ∈ l -> Plate.first_seen x (l ++ l') = Plate.first_seen x l.
Proof.
  induction l as [|y l IH]; [inversion 1|].
  intros H. simpl. case_decide; [reflexivity|].
  apply elem_of_cons in H as [?|?]; [congruence|]. rewrite IH; auto.
Qed.

Lemma first_seen_lt l x : x ∈ l -> (Plate.first_seen x l < length l)%nat.
Proof.
  induction l as [|y l IH]; [inversion 1|].
  intros H. simpl. case_decide; [lia|].
  apply elem_of_cons in H as [?|?]; [congruence|]. apply IH in H. lia.
Qed.

Lemma first_seen_fresh l x : x ∉ l -> Plate.first_seen x (l ++ [x]) = length l.
Proof.
  induction l as [|y l IH]; simpl; intros H.
  - rewrite decide_True; reflexivity.
  - rewrite decide_False by (intros ->; apply H; left).
    rewrite IH; [reflexivity|]. intros ?; apply H; right; assumption.
Qed.

Lemma Counter_inv l : Plate.counter_inv l (Plate.Counter l).
Proof.
  induction l as [|x l IH] using rev_ind.
  - split; simpl.
    + constructor.
    + intros x. reflexivity.
    + reflexivity.
    + intros i j x y H. rewrite lookup_nil in H. discriminate.
  - destruct IH as [Hnd Hkeys Hcnt Hord].
    rewrite Counter_snoc. split.
    + rewrite keys_counter_add. case_decide as Hin; [assumption|].
      apply NoDup_app. repeat split; [assumption | | apply NoDup_singleton].
      intros y Hy Hy'. apply list_elem_of_singleton in Hy'. subst. contradiction.
    + intros y. rewrite keys_counter_add, elem_of_app, list_elem_of_singleton.
      case_decide as Hin.
      * rewrite Hkeys. split; [auto|]. intros [?| ->]; [assumption | apply Hkeys, Hin].
      * rewrite elem_of_app, list_elem_of_singleton, Hkeys. reflexivity.
    + intros y. rewrite cnt_counter_add, occurrences_snoc, Hcnt. reflexivity.
    + intros i j a b. rewrite keys_counter_add. case_decide as Hin.
      * intros Ha Hb Hij.
        rewrite !first_seen_app_l
          by (apply Hkeys, list_elem_of_lookup; eauto).
        eapply Hord; eauto.
      * intros Ha Hb Hij.
        assert (x ∉ l) as Hxl by (rewrite <- Hkeys; assumption).
        apply lookup_snoc_Some in Ha as [[Hi Ha]|[Hi <-]];
        apply lookup_snoc_Some in Hb as [[Hj Hb]|[Hj <-]]; try lia.
        -- rewrite !first_seen_app_l
             by (apply Hkeys, list_elem_of_lookup; eauto).
           eapply Hord; eauto.
        -- rewrite first_seen_fresh by assumption.
           rewrite first_seen_app_l by (apply Hkeys, list_elem_of_lookup; eauto).
           apply first_seen_lt, Hkeys, list_elem_of_lookup; eauto.
Qed.

Lemma max_by_count_spec best C :
  exists i, (best :: C) !! i = Some (Plate.max_by_count best C) /\
    forall j kv, (best :: C) !! j = Some kv ->
      (kv.2 <= (Plate.max_by_count best C).2)%nat /\
      ((j < i)%nat -> (kv.2 < (Plate.max_by_count best C).2)%nat).
Proof.
  revert best. induction C as [|kv C IH]; intros best; simpl.
  - exists 0%nat. split; [reflexivity|].
    intros [|j] kv H; simpl in H; [|rewrite lookup_nil in H; discriminate].
    injection H as <-. split; lia.
  - destruct (best.2 <? kv.2)%nat eqn:E.
    + apply Nat.ltb_lt in E.
      destruct (IH kv) as (i & Hi & Hall). exists (S i). split; [exact Hi|].
      intros [|j] kv' H; simpl in H.
      * injection H as <-. destruct (Hall 0%nat kv eq_refl) as [Hle _]. split; lia.
      * destruct (Hall j kv' H) as [Hle Hlt]. split; [assumption | intros; apply Hlt; lia].
    + apply Nat.ltb_ge in E.
      destruct (IH best) as (i & Hi & Hall).
      destruct i as [|i].
      * exists 0%nat. split; [exact Hi|].
        intros [|[|j]] kv' H; simpl in H.
        -- injection H as <-. destruct (Hall 0%nat best eq_refl). split; lia.
        -- injection H as <-. destruct (Hall 0%nat best eq_refl). split; lia.
        -- destruct (Hall (S j) kv' H). split; [assumption | lia].
      * exists (S (S i)). split; [exact Hi|].
        intros [|[|j]] kv' H; simpl in H.
        -- injection H as <-. destruct (Hall 0%nat best eq_refl) as [? Hlt].
           split; [assumption | intros; apply Hlt; lia].
        -- injection H as <-. destruct (Hall 0%nat best eq_refl) as [? Hlt].
           split; [lia | intros; specialize (Hlt ltac:(lia)); lia].
        -- destruct (Hall (S j) kv' H) as [? Hlt].
           split; [assumption | intros; apply Hlt; lia].
Qed.

Lemma cnt_lookup C i x n :
  NoDup C.*1 -> C !! i = Some (x, n) -> Plate.cnt C x = n.
Proof.
  revert i. induction C as [|[y m] C IH]; intros i Hnd H.
  - rewrite lookup_nil in H. discriminate.
  - simpl in Hnd. apply NoDup_cons in Hnd as [Hy Hnd].
    destruct i as [|i]; simpl in H |- *.
    + injection H as -> ->. rewrite decide_True; reflexivity.
    + rewrite decide_False; [eapply IH; eauto|].
      intros ->. apply Hy. apply list_elem_of_lookup. exists i.
      rewrite list_lookup_fmap, H. reflexivity.
Qed.

Lemma most_common_spec l :
  l <> [] -> exists e, Plate.most_common l = Some e /\ Plate.most_frequent_first_seen l e.
Proof.
  intros Hne. pose proof (Counter_inv l) as [Hnd Hkeys Hcnt Hord].
  unfold Plate.most_common.
  destruct (Plate.Counter l) as [|kv C] eqn:EC.
  - exfalso. destruct l as [|x l]; [congruence|].
    assert (x ∈ ([] : list (string * nat)).*1) as H by (apply Hkeys; left).
    inversion H.
  - destruct (max_by_count_spec kv C) as (i & Hi & Hall).
    set (r := Plate.max_by_count kv C) in *.
    exists r.1. split; [reflexivity|].
    assert (Plate.cnt (kv :: C) r.1 = r.2) as Hr
      by (apply (cnt_lookup _ i); [assumption | destruct r; exact Hi]).
    assert ((kv :: C).*1 !! i = Some r.1) as Hki
      by (rewrite list_lookup_fmap, Hi; reflexivity).
    split.
    + apply Hkeys, list_elem_of_lookup. eauto.
    + intros x Hx. apply Hkeys in Hx.
      apply list_elem_of_lookup in Hx as [j Hj].
      rewrite list_lookup_fmap in Hj.
      destruct ((kv :: C) !! j) as [[x' m]|] eqn:Hj'; [|discriminate].
      simpl in Hj. injection Hj as ->.
      assert (Plate.cnt (kv :: C) x = m) as Hm by (eapply cnt_lookup; eauto).
      destruct (Hall j (x, m) Hj') as [Hle Hlt]. simpl in Hle, Hlt.
      rewrite <- !Hcnt, Hm, Hr. split; [assumption|].
      intros Heq.
      destruct (Nat.lt_trichotomy i j) as [Hij|[->|Hji]].
      * apply Nat.lt_le_incl. eapply Hord; eauto.
        rewrite list_lookup_fmap, Hj'. reflexivity.
      * rewrite Hi in Hj'. injection Hj' as Hrx. rewrite Hrx. simpl. lia.
      * specialize (Hlt Hji). lia.
Qed.

Lemma reachable_length th buf :
  (0 < th)%nat -> Plate.reachable th buf -> (length buf < th)%nat.
Proof.
  intros Hth. induction 1 as [|buf text Hr IH]; simpl; [assumption|].
  unfold Plate.on_text. destruct (Plate.plate_candidate_of text); [|exact IH].
  unfold Plate.vote. destruct (th <=? _)%nat eqn:E; simpl; [assumption|].
  apply Nat.leb_gt in E. exact E.
Qed.

End PlateVoter.

(** ** Claims on the plate voter *)

Lemma slice_from_length i s :
  String.length (Py.slice_from i s) = (String.length s - i)%nat.
Proof.
  revert s. induction i as [|i IH]; intros [|c s]; simpl; auto with arith.
Qed.

(** C7, as the specification words it, fails on the code.  Read as "the seven
    characters from some occurrence of the marker on match the format", the
    text [RARAB123C] satisfies it (at the second [RA]) and is discarded,
    because only the first occurrence of the marker is looked at.  Read as
    "the seven characters after the marker match the format", the plate
    [RAB123C] does not satisfy it and is accepted. *)
Lemma plate_any_marker_refuted :
  ~ (forall s, is_Some (Plate.plate_candidate_of s) <-> Plate.spec_accepts_from_marker s)
  /\ ~ (forall s, is_Some (Plate.plate_candidate_of s) <-> Plate.spec_accepts_after_marker s).
Proof.
  split; intros H.
  - destruct (H "RARAB123C") as [_ Hspec].
    assert (is_Some (Plate.plate_candidate_of "RARAB123C")) as [c Hc].
    { apply Hspec. exists 2%nat. split; reflexivity. }
    vm_compute in Hc. discriminate.
  - destruct (H "RAB123C") as [Hcode _].
    destruct Hcode as (i & _ & Hfmt); [eexists; reflexivity|].
    apply matches_format_length in Hfmt.
    unfold Py.slice in Hfmt. rewrite slice_to_length, slice_from_length in Hfmt.
    simpl in Hfmt. lia.
Qed.

(** The checks of the code are those of [str]: they also hold of letters and
    digits beyond ASCII, which the format does not allow.  With U+00C9 for
    the third letter, or with U+00B2 for the last digit, the text is
    accepted. *)
Example plate_accepted_beyond_ascii :
  let e_acute := String "R" (String "A" (String "201" "123C")) in
  let superscript := String "R" (String "A" (String "B" (String "1" (String "2"
                       (String "178" "C"))))) in
  Plate.plate_candidate_of e_acute = Some e_acute
  /\ Plate.matches_format e_acute = false
  /\ Plate.plate_candidate_of superscript = Some superscript
  /\ Plate.matches_format superscript = false.
Proof. vm_compute. repeat split; reflexivity. Qed.

(** C7 (amended): a recognised text of ASCII characters yields a candidate
    exactly when the region marker [RA] occurs in it and the seven characters
    starting at the FIRST occurrence of the marker match
    [[A-Z]{3}[0-9]{3}[A-Z]]; the candidate is then these seven characters.
    A text that yields no candidate, ASCII or not, leaves the buffer as it
    was and emits nothing. *)
Theorem plate_accepted_iff_first_marker (plate_text : string) :
  (Py.isascii plate_text = true ->
   forall c,
     Plate.plate_candidate_of plate_text = Some c <->
     exists i, Plate.marker_at i plate_text
               /\ (forall j, (j < i)%nat -> ~ Plate.marker_at j plate_text)
               /\ c = Py.slice i (i + 7) plate_text
               /\ Plate.matches_format c = true)
  /\ (forall threshold buf,
         Plate.plate_candidate_of plate_text = None ->
         Plate.on_text threshold buf plate_text = (None, buf)).
Proof.
  split.
  - intros Hascii c. apply plate_candidate_of_Some, Hascii.
  - intros threshold buf H. unfold Plate.on_text. rewrite H. reflexivity.
Qed.

Lemma plate_accepted_iff_first_marker_witness :
  Plate.on_text Plate.ENTRY_THRESHOLD ["RAX999Z"] "RARAB123C" = (None, ["RAX999Z"])
  /\ Plate.plate_candidate_of "XXRAB123CYY" = Some "RAB123C".
Proof.
  split.
  - apply (proj2 (plate_accepted_iff_first_marker "RARAB123C")). reflexivity.
  - apply (proj1 (plate_accepted_iff_first_marker "XXRAB123CYY") eq_refl).
    exists 2%nat. repeat split.
    intros [|[|j]] Hj; [discriminate | discriminate | lia].
Defined.

(** C8: on either path (threshold 2 at the entry, 3 at the exit) the buffer
    the loop holds is shorter than the threshold; a valid candidate makes the
    voter emit exactly when it brings the buffer to the threshold; the value
    emitted is the most frequent candidate of the buffer, the first seen
    among equally frequent ones, and the buffer is empty afterwards;
    otherwise the candidate is only appended. *)
Theorem plate_voter_emits_at_threshold threshold buf cand :
  threshold = Plate.ENTRY_THRESHOLD \/ threshold = Plate.EXIT_THRESHOLD ->
  Plate.reachable threshold buf ->
  (Plate.ENTRY_THRESHOLD = 2 /\ Plate.EXIT_THRESHOLD = 3)%nat
  /\ (length buf < threshold)%nat
  /\ (length (buf ++ [cand]) = threshold ->
      exists e, Plate.vote threshold buf cand = (Some e, [])
                /\ Plate.most_frequent_first_seen (buf ++ [cand]) e)
  /\ (length (buf ++ [cand]) <> threshold ->
      Plate.vote threshold buf cand = (None, buf ++ [cand])).
Proof.
  intros Hth Hreach.
  assert (0 < threshold)%nat as Hpos
    by (destruct Hth as [-> | ->]; unfold Plate.ENTRY_THRESHOLD, Plate.EXIT_THRESHOLD; lia).
  pose proof (reachable_length _ _ Hpos Hreach) as Hlen.
  split; [split; reflexivity|]. split; [assumption|].
  unfold Plate.vote. split.
  - intros E. rewrite E, Nat.leb_refl.
    destruct (most_common_spec (buf ++ [cand])) as (e & He & Hspec).
    { destruct buf; discriminate. }
    exists e. rewrite He. split; [reflexivity | assumption].
  - intros E. rewrite length_app in E |- *. simpl in E |- *.
    replace (threshold <=? _)%nat with false; [reflexivity|].
    symmetry. apply Nat.leb_gt. lia.
Qed.

Lemma plate_voter_emits_at_threshold_witness :
  exists e, Plate.vote 2 ["RAB123C"] "RAB123C" = (Some e, [])
            /\ Plate.most_frequent_first_seen ["RAB123C"; "RAB123C"] e.
Proof.
  refine (proj1 (proj2 (proj2
    (plate_voter_emits_at_threshold 2 ["RAB123C"] "RAB123C" (or_introl eq_refl) _))) eq_refl).
  exact (Plate.reachable_text 2 [] "RAB123C" (Plate.reachable_start 2)).
Defined.

Example voter_two_identical :
  Plate.entry_on_text [] "RAB123C" = (None, ["RAB123C"])
  /\ Plate.entry_on_text ["RAB123C"] "RAB123C" = (Some "RAB123C", []).
Proof. split; reflexivity. Qed.

Example voter_tie_first_seen :
  Plate.entry_on_text ["RAX999Z"] "RAB123C" = (Some "RAX999Z", []).
Proof. reflexivity. Qed.

Example voter_exit_majority :
  Plate.exit_on_text ["RAX999Z"; "RAB123C"] "RAB123C" = (Some "RAB123C", []).
Proof. reflexivity. Qed.

(** ** Fee computation *)

Section FeeFacts.

Lemma round_up_hours_ceil d : 0 <= d -> Fee.round_up_hours d = Fee.ceil_hours d.
Proof.
  intros Hd. unfold Fee.round_up_hours, Fee.ceil_hours.
  rewrite Z.quot_div_nonneg by (unfold Fee.hour; lia).
  assert (0 < Fee.hour) as Hh by (unfold Fee.hour; lia).
  pose proof (Z.div_mod d Fee.hour ltac:(lia)) as Hdm.
  pose proof (Z.mod_pos_bound d Fee.hour Hh) as Hr.
  set (q := d / Fee.hour) in *. set (r := d mod Fee.hour) in *.
  destruct (0 <? r) eqn:E.
  - apply Z.ltb_lt in E.
    apply (Z.div_unique_pos _ _ (q + 1) (r - 1)); lia.
  - apply Z.ltb_ge in E. assert (r = 0) as Hr0 by lia. rewrite Z.add_0_r.
    apply (Z.div_unique_pos _ _ q (Fee.hour - 1)); lia.
Qed.

Lemma ceil_hours_mono d1 d2 : d1 <= d2 -> Fee.ceil_hours d1 <= Fee.ceil_hours d2.
Proof.
  intros H. unfold Fee.ceil_hours. apply Z.div_le_mono; unfold Fee.hour; lia.
Qed.

Lemma ceil_hours_pos d : 0 < d -> 1 <= Fee.ceil_hours d.
Proof.
  intros H. unfold Fee.ceil_hours.
  apply Z.div_le_lower_bound; unfold Fee.hour; lia.
Qed.

Lemma round_up_hours_zero : Fee.round_up_hours 0 = 0.
Proof. reflexivity. Qed.

(** The dashboard's [calculate_payment_amount] has the minimum of one
    billable hour: it is the ceiling formula of the specification, at least
    one rate, a multiple of the rate and monotone in the payment time. *)
Lemma calculate_payment_amount_ceiling entry_time payment_time :
  entry_time <= payment_time ->
  Fee.calculate_payment_amount entry_time (Some payment_time)
  = Some (Z.max 1 (Fee.ceil_hours (payment_time - entry_time)) * Fee.RATE_PER_HOUR).
Proof.
  intros H. unfold Fee.calculate_payment_amount.
  rewrite round_up_hours_ceil by lia. reflexivity.
Qed.

Lemma calculate_payment_amount_mono entry_time p1 p2 a1 a2 :
  entry_time <= p1 -> p1 <= p2 ->
  Fee.calculate_payment_amount entry_time (Some p1) = Some a1 ->
  Fee.calculate_payment_amount entry_time (Some p2) = Some a2 ->
  Fee.RATE_PER_HOUR <= a1 <= a2.
Proof.
  intros H1 H2. rewrite !calculate_payment_amount_ceiling by lia.
  intros [= <-] [= <-].
  pose proof (ceil_hours_mono (p1 - entry_time) (p2 - entry_time) ltac:(lia)).
  unfold Fee.RATE_PER_HOUR. lia.
Qed.

(** The inline computation of [process_payment] agrees with the ceiling
    formula on strictly positive durations. *)
Lemma amount_due_ceiling entry_time exit_time :
  entry_time < exit_time ->
  Fee.amount_due entry_time exit_time
  = Z.max 1 (Fee.ceil_hours (exit_time - entry_time)) * Fee.RATE_PER_HOUR.
Proof.
  intros H. unfold Fee.amount_due, Fee.hours_spent.
  rewrite round_up_hours_ceil by lia.
  pose proof (ceil_hours_pos (exit_time - entry_time) ltac:(lia)). f_equal. lia.
Qed.

(** At a duration of exactly zero the two computations part. *)
Lemma fee_at_zero_duration t :
  Fee.amount_due t t = 0
  /\ Fee.calculate_payment_amount t (Some t) = Some Fee.RATE_PER_HOUR.
Proof.
  unfold Fee.amount_due, Fee.hours_spent, Fee.calculate_payment_amount.
  rewrite Z.sub_diag. split; reflexivity.
Qed.

End FeeFacts.

(** C4 (the code departs from it): at a duration of exactly zero the amount
    [process_payment] computes is 0, below one hour's rate and different from
    [max(1, ceil(hours)) * rate]; the dashboard's [calculate_payment_amount]
    charges the minimum of one hour there. *)
Theorem settlement_fee_zero_duration (t : Fee.datetime) :
  Fee.amount_due t t = 0
  /\ Fee.amount_due t t < Fee.RATE_PER_HOUR
  /\ Fee.amount_due t t <> Z.max 1 (Fee.ceil_hours (t - t)) * Fee.RATE_PER_HOUR
  /\ Fee.calculate_payment_amount t (Some t) = Some Fee.RATE_PER_HOUR.
Proof.
  destruct (fee_at_zero_duration t) as [H0 H1]. rewrite H0, Z.sub_diag.
  split; [reflexivity|]. split; [reflexivity|]. split; [|exact H1].
  vm_compute. discriminate.
Qed.

(** C9: for an entry time not later than the payment time, the inline fee of
    [process_payment] and [calculate_payment_amount] give the same amount
    whenever the entry is strictly earlier; they differ only at a duration of
    exactly zero, where [calculate_payment_amount] charges one hour and
    [process_payment] computes zero. *)
Theorem fee_paths_agree_on_positive_durations (entry_time payment_time : Fee.datetime) :
  entry_time <= payment_time ->
  (entry_time < payment_time ->
     Fee.calculate_payment_amount entry_time (Some payment_time)
     = Some (Fee.amount_due entry_time payment_time))
  /\ (Fee.calculate_payment_amount entry_time (Some payment_time)
      <> Some (Fee.amount_due entry_time payment_time) -> entry_time = payment_time)
  /\ (entry_time = payment_time ->
      Fee.calculate_payment_amount entry_time (Some payment_time) = Some Fee.RATE_PER_HOUR
      /\ Fee.amount_due entry_time payment_time = 0).
Proof.
  intros Hle.
  assert (entry_time < payment_time ->
          Fee.calculate_payment_amount entry_time (Some payment_time)
          = Some (Fee.amount_due entry_time payment_time)) as Hpos.
  { intros Hlt. rewrite calculate_payment_amount_ceiling by lia.
    rewrite amount_due_ceiling by lia. reflexivity. }
  split; [exact Hpos|]. split.
  - intros Hne. destruct (Z.eq_dec entry_time payment_time) as [|Hd]; [assumption|].
    exfalso. apply Hne, Hpos. lia.
  - intros <-. destruct (fee_at_zero_duration entry_time) as [H0 H1].
    split; assumption.
Qed.

Lemma fee_paths_agree_on_positive_durations_witness :
  Fee.calculate_payment_amount 0 (Some 300000000) = Some (Fee.amount_due 0 300000000).
Proof.
  apply (proj1 (fee_paths_agree_on_positive_durations 0 300000000 ltac:(lia))). lia.
Defined.

(** Outside the domain of C9: with an entry time later than the payment time
    the two computations differ as well. *)
Example fee_paths_negative_duration :
  Fee.amount_due (2 * Fee.hour) 0 = -1000
  /\ Fee.calculate_payment_amount (2 * Fee.hour) (Some 0) = Some 500.
Proof. split; reflexivity. Qed.

(** ** Exit authorisation *)

Section ExitFacts.

Lemma entries_for_Ok plate data entries :
  Exit.entries_for plate data = Ok entries <->
  Forall (fun r => r <> []) data /\ entries = Exit.rows_of plate data.
Proof.
  unfold Exit.rows_of. revert entries.
  induction data as [|r data IH]; intros entries; simpl.
  - split; [intros [= <-]; split; [constructor | reflexivity] | intros [_ ->]; reflexivity].
  - destruct r as [|c r]; simpl.
    + split; [discriminate | intros [H _]; inversion H; congruence].
    + destruct (Exit.entries_for plate data) as [es|e] eqn:E; simpl.
      * destruct (IH es) as [IH1 _]. destruct (IH1 eq_refl) as [Hall ->].
        rewrite filter_cons. simpl.
        split.
        -- intros [= <-]. split; [constructor; [discriminate | assumption]|].
           repeat case_decide; congruence.
        -- intros [_ ->]. f_equal. repeat case_decide; congruence.
      * split; [discriminate|]. intros [H _]. inversion H; subst.
        destruct (IH (filter (fun r0 : list string => r0 !! 0%nat = Some plate) data))
          as [_ IH2].
        discriminate IH2. split; [assumption | reflexivity].
Qed.

Lemma is_payment_complete_true f plate :
  Exit.is_payment_complete f plate = true <->
  exists header data latest cell,
    f = Some (header :: data)
    /\ Forall (fun r => r <> []) data
    /\ last (Exit.rows_of plate data) = Some latest
    /\ latest !! 1%nat = Some cell
    /\ Py.int cell = Some 1.
Proof.
  unfold Exit.is_payment_complete, Exit.payment_check. split.
  - destruct f as [[|header data]|]; simpl; try discriminate.
    destruct (Exit.entries_for plate data) as [es|e] eqn:E; simpl; [|discriminate].
    apply entries_for_Ok in E as [Hall ->].
    destruct (last _) as [latest|] eqn:L; [|discriminate].
    unfold item, int_of. destruct (latest !! 1%nat) as [cell|] eqn:C; simpl; [|discriminate].
    destruct (Py.int cell) as [z|] eqn:I; simpl; [|discriminate].
    intros Hz. apply Z.eqb_eq in Hz. subst z.
    exists header, data, latest, cell. auto.
  - intros (header & data & latest & cell & -> & Hall & L & C & I). simpl.
    assert (Exit.entries_for plate data = Ok (Exit.rows_of plate data)) as ->
      by (apply entries_for_Ok; auto).
    cbn [mbind res_bind]. rewrite L. unfold item, int_of. rewrite C.
    cbn [mbind res_bind]. rewrite I. reflexivity.
Qed.

End ExitFacts.

(** C10: [is_payment_complete] answers true exactly when the log can be read
    (it opens, has a header line and no empty line) and the LAST row of the
    plate has payment status 1.  A plate without rows and any failure while
    reading are answered false, and rows of the plate before the last one,
    paid or not, do not change the answer. *)
Theorem exit_depends_on_latest_row (f : log_file) (plate_number : string) :
  (Exit.is_payment_complete f plate_number = true <->
   exists header data latest cell,
     f = Some (header :: data)
     /\ Forall (fun r => r <> []) data
     /\ last (Exit.rows_of plate_number data) = Some latest
     /\ latest !! 1%nat = Some cell
     /\ Py.int cell = Some 1)
  /\ (forall header data,
         f = Some (header :: data) -> Exit.rows_of plate_number data = [] ->
         Exit.is_payment_complete f plate_number = false)
  /\ (forall e,
         Exit.payment_check f plate_number = Raise e ->
         Exit.is_payment_complete f plate_number = false)
  /\ (forall header earlier latest,
         f = Some (header :: earlier ++ [latest]) ->
         Forall (fun r => r <> []) earlier ->
         latest !! 0%nat = Some plate_number ->
         Exit.is_payment_complete f plate_number
         = Exit.is_payment_complete (Some [header; latest]) plate_number).
Proof.
  split; [apply is_payment_complete_true|]. split; [|split].
  - intros header data -> Hnone.
    destruct (Exit.is_payment_complete _ _) eqn:E; [|reflexivity].
    apply is_payment_complete_true in E
      as (h & d & latest & cell & [= <- <-] & _ & L & _).
    rewrite Hnone in L. discriminate.
  - intros e He. unfold Exit.is_payment_complete. rewrite He. reflexivity.
  - intros header earlier latest -> Hall Hlatest.
    assert (latest <> []) as Hne by (intros ->; discriminate).
    unfold Exit.is_payment_complete, Exit.payment_check. simpl.
    assert (Exit.entries_for plate_number (earlier ++ [latest])
            = Ok (Exit.rows_of plate_number (earlier ++ [latest]))) as ->.
    { apply entries_for_Ok. split; [|reflexivity].
      apply Forall_app. split; [assumption | constructor; [assumption | constructor]]. }
    assert (Exit.entries_for plate_number [latest]
            = Ok (Exit.rows_of plate_number [latest])) as E1.
    { apply entries_for_Ok. split; [|reflexivity]. constructor; [assumption | constructor]. }
    simpl in E1. rewrite E1. simpl.
    unfold Exit.rows_of. rewrite filter_app.
    rewrite (filter_cons _ latest), filter_nil.
    rewrite decide_True by assumption.
    rewrite last_snoc. reflexivity.
Qed.

Lemma exit_depends_on_latest_row_witness :
  Exit.is_payment_complete
    (Some [["Plate Number"; "Payment Status"; "Timestamp"; "Payment Timestamp"];
           ["RAB123C"; "0"; "2024-01-01 10:00:00"; ""];
           ["RAB123C"; "1"; "2024-01-02 09:00:00"; "2024-01-02 10:05:00"]])
    "RAB123C" = true.
Proof.
  apply (proj1 (exit_depends_on_latest_row _ "RAB123C")).
  do 4 eexists. split; [reflexivity|].
  split; [repeat constructor; discriminate|].
  split; [reflexivity|]. split; reflexivity.
Defined.

Example exit_blocked_when_latest_unpaid :
  Exit.is_payment_complete
    (Some [["Plate Number"; "Payment Status"; "Timestamp"; "Payment Timestamp"];
           ["RAB123C"; "1"; "2024-01-01 10:00:00"; "2024-01-01 11:00:00"];
           ["RAB123C"; "0"; "2024-01-02 09:00:00"; ""]])
    "RAB123C" = false.
Proof. reflexivity. Qed.

Example exit_blocked_by_an_empty_line :
  Exit.is_payment_complete
    (Some [["Plate Number"; "Payment Status"; "Timestamp"; "Payment Timestamp"];
           [];
           ["RAB123C"; "1"; "2024-01-02 09:00:00"; "2024-01-02 10:05:00"]])
    "RAB123C" = false.
Proof. reflexivity. Qed.

(** ** The tag read *)

Example read_card_then_ready :
  Link.read_rfid_card true 0 [(120, Some "RAB123C,1000"); (150, Some "READY")]
  = Some ("RAB123C", 1000).
Proof. reflexivity. Qed.

Example read_card_without_ready :
  Link.read_rfid_card true 0 [(120, Some "RAB123C,1000"); (2500, Some "READY")] = None.
Proof. reflexivity. Qed.

Example read_card_with_line_noise :
  Link.read_rfid_card true 0
    [(10, Some "[INFO] place card"); (120, Some (String "000" "RAB123C, 10" +:+ String "000" "00"));
     (130, Some "noise"); (150, Some "READY ")]
  = Some (String "000" "RAB123C", 1000).
Proof. reflexivity. Qed.

Example read_card_bad_balance_then_good :
  Link.read_rfid_card true 0
    [(100, Some "RAB123C,abc"); (200, Some "RAB123C,700"); (300, Some "READY")]
  = Some ("RAB123C", 700).
Proof. reflexivity. Qed.

Section TagRead.

Lemma parse_card_Some line plate balance :
  Link.parse_card line = Some (plate, balance) ->
  exists a b, Py.split "," line = [a; b]
              /\ plate = Py.strip a
              /\ Py.int (Py.filter_str Py.isprintable (Py.strip b)) = Some balance.
Proof.
  unfold Link.parse_card.
  destruct (Py.split "," line) as [|a [|b [|c l]]]; simpl; try discriminate.
  destruct (Py.int _) as [z|] eqn:E; [|discriminate].
  intros [= <- <-]. eauto.
Qed.

Lemma accepted_read_cons start ev rest plate balance :
  Link.accepted_read start rest plate balance ->
  Link.accepted_read start (ev :: rest) plate balance.
Proof.
  intros (pre & now & raw & mid & now' & raw' & post & a & b & -> & H).
  exists (ev :: pre), now, raw, mid, now', raw', post, a, b.
  split; [reflexivity | exact H].
Qed.

Lemma poll_sound start pending evs plate balance :
  Link.poll start pending evs = Some (plate, balance) ->
  match pending with
  | None => Link.accepted_read start evs plate balance
  | Some (plate0, balance0, ready_time) =>
      (plate = plate0 /\ balance = balance0 /\ Link.ready_follows ready_time evs)
      \/ Link.accepted_read start evs plate balance
  end.
Proof.
  revert pending. induction evs as [|[now text] rest IH]; intros pending; [discriminate|].
  destruct pending as [[[plate0 balance0] ready_time]|]; cbn [Link.poll].
  - destruct (now - ready_time <? Link.READY_TIMEOUT) eqn:T; [|discriminate].
    apply Z.ltb_lt in T.
    destruct text as [raw|].
    + destruct (decide (Py.strip raw = "READY")) as [R|R].
      * intros [= <- <-]. left. repeat split.
        exists [], now, raw, rest. auto.
      * intros H. apply (IH (Some (plate0, balance0, ready_time))) in H
          as [(-> & -> & mid & now' & raw' & post & -> & H)|H].
        -- left. repeat split. exists ((now, Some raw) :: mid), now', raw', post. auto.
        -- right. apply accepted_read_cons, H.
    + intros H. apply (IH None) in H. right. apply accepted_read_cons, H.
  - destruct (now - start <? Link.CARD_TIMEOUT) eqn:T; [|discriminate].
    apply Z.ltb_lt in T.
    destruct text as [raw|]; [|discriminate].
    destruct (Py.contains "," (Py.strip raw) && negb (Py.startswith "[" (Py.strip raw))).
    + destruct (Link.parse_card (Py.strip raw)) as [[plate1 balance1]|] eqn:P.
      * intros H. apply (IH (Some (plate1, balance1, now))) in H
          as [(-> & -> & mid & now' & raw' & post & -> & H1 & H2)|H].
        -- apply parse_card_Some in P as (a & b & Hs & Hp & Hb).
           exists [], now, raw, mid, now', raw', post, a, b. auto 10.
        -- apply accepted_read_cons, H.
      * intros H. apply (IH None) in H. apply accepted_read_cons, H.
    + intros H. apply (IH None) in H. apply accepted_read_cons, H.
Qed.

End TagRead.

(** C6, as stated, fails on the code: a card line with a negative balance,
    followed by [READY], is accepted. *)
Lemma read_accepts_negative_balance :
  ~ (forall ser start evs plate balance,
        Link.read_rfid_card ser start evs = Some (plate, balance) -> 0 <= balance).
Proof.
  intros H.
  specialize (H true 0 [(100, Some "RAB123C,-5"); (200, Some "READY")] "RAB123C" (-5) eq_refl).
  lia.
Qed.

(** C6 (amended): [read_rfid_card] returns tag data only when the port is
    open, a line [plate,balance] is read within the 5000 ms of the card
    timeout whose balance, once the surrounding white space and the
    non-printable characters are removed, parses as an integer (of either
    sign), and a line that is [READY] after stripping is read less than
    2000 ms after that card line; the data returned is the stripped plate
    and the parsed balance.  In every other case no data is returned. *)
Theorem read_accepts_only_card_then_ready ser start evs plate balance :
  Link.read_rfid_card ser start evs = Some (plate, balance) ->
  ser = true /\ Link.accepted_read start evs plate balance.
Proof.
  unfold Link.read_rfid_card. destruct ser; [|discriminate].
  intros H. split; [reflexivity|]. exact (poll_sound start None evs plate balance H).
Qed.

Lemma read_accepts_only_card_then_ready_witness :
  Link.accepted_read 0 [(120, Some "RAB123C,1000"); (150, Some "READY")] "RAB123C" 1000.
Proof.
  exact (proj2 (read_accepts_only_card_then_ready true 0
                  [(120, Some "RAB123C,1000"); (150, Some "READY")] "RAB123C" 1000 eq_refl)).
Defined.

(** The cases in which no data is returned. *)
Lemma read_nothing_cases start :
  Link.read_rfid_card true start [] = None
  /\ (forall now raw rest, Link.CARD_TIMEOUT <= now - start ->
         Link.read_rfid_card true start ((now, Some raw) :: rest) = None)
  /\ (forall now plate, now - start < Link.CARD_TIMEOUT ->
         Link.read_rfid_card true start [(now, Some (plate +:+ ",abc"))] = None)
  /\ (forall evs, Link.read_rfid_card false start evs = None).
Proof.
  repeat split.
  - intros now raw rest H. unfold Link.read_rfid_card. cbn [Link.poll].
    replace (now - start <? Link.CARD_TIMEOUT) with false; [reflexivity|].
    symmetry. apply Z.ltb_ge. exact H.
  - intros now plate H.
    destruct (Link.read_rfid_card _ _ _) as [[p b]|] eqn:E; [|reflexivity].
    apply (poll_sound start None) in E
      as (pre & n & raw & mid & n' & raw' & post & _ & _ & Heq & _).
    exfalso. destruct pre as [|? [|? ?]]; try discriminate.
    injection Heq as _ _ Heq. destruct mid; discriminate.
Qed.

(** ** The reconciler *)

Section ReconcilerFacts.

Variable strptime : string -> option Fee.datetime.

#[local] Abbreviation merge_row := (Reconciler.merge_row strptime).
#[local] Abbreviation merge_rows := (Reconciler.merge_rows strptime).
#[local] Abbreviation parse_row := (Reconciler.parse_row strptime).
#[local] Abbreviation sync_csv_to_db := (Reconciler.sync_csv_to_db strptime).
#[local] Abbreviation row_settled := (Reconciler.row_settled strptime).

Lemma merge_row_two_steps fieldnames r db :
  merge_row fieldnames r db
  = parse_row fieldnames r ≫= fun rec => Reconciler.apply_record rec db.
Proof.
  unfold Reconciler.merge_row, Reconciler.parse_row, Reconciler.apply_record.
  destruct (Reconciler.dict_get fieldnames r "Timestamp") as [ts|]; [|reflexivity].
  cbn [mbind res_bind].
  destruct (Reconciler.parse_time strptime ts) as [entry|]; [|reflexivity].
  cbn [mbind res_bind].
  destruct (Reconciler.dict_get fieldnames r "Payment Timestamp") as [pts|]; [|reflexivity].
  cbn [mbind res_bind].
  destruct (if Reconciler.truthy pts then _ else _) as [ptime|]; [|reflexivity].
  cbn [mbind res_bind].
  destruct (Reconciler.dict_get fieldnames r "Plate Number") as [plate|]; [|reflexivity].
  cbn [mbind res_bind].
  destruct (Reconciler.dict_get fieldnames r "Payment Status") as [sc|];
    cbn [mbind res_bind]; [|destruct (Db.fetchone _ _ _); reflexivity].
  destruct (Reconciler.int_cell sc) as [status|];
    cbn [mbind res_bind Reconciler.rec_plate Reconciler.rec_entry Reconciler.rec_status
           Reconciler.rec_payment_time Reconciler.rec_amount];
    destruct (Db.fetchone _ _ _); reflexivity.
Qed.

Lemma matches_update_payment plate entry i st t a r :
  Db.matches plate entry (Reconciler.update_payment i st t a r) = Db.matches plate entry r.
Proof.
  unfold Reconciler.update_payment. destruct (Db.id r =? i); reflexivity.
Qed.

Lemma fetchone_update_payment plate entry i st t a db :
  Db.fetchone plate entry (Reconciler.update_payment i st t a <$> db)
  = Reconciler.update_payment i st t a <$> Db.fetchone plate entry db.
Proof.
  unfold Db.fetchone. induction db as [|r db IH]; [reflexivity|].
  rewrite fmap_cons. cbn [List.find]. rewrite matches_update_payment.
  destruct (Db.matches plate entry r); [reflexivity | exact IH].
Qed.

Lemma fetchone_app plate entry db db' :
  Db.fetchone plate entry (db ++ db')
  = match Db.fetchone plate entry db with
    | Some r => Some r
    | None => Db.fetchone plate entry db'
    end.
Proof.
  unfold Db.fetchone. induction db as [|r db IH]; [reflexivity|].
  cbn [app List.find]. destruct (Db.matches plate entry r); [reflexivity | exact IH].
Qed.

Lemma update_payment_status_nonzero i st t a r :
  st = 1 -> Db.payment_status r <> Some 0 \/ Db.id r = i ->
  Db.payment_status (Reconciler.update_payment i st t a r) <> Some 0.
Proof.
  intros -> H. unfold Reconciler.update_payment.
  destruct (Db.id r =? i) eqn:E; simpl; [discriminate|].
  destruct H as [H|H]; [assumption|]. apply Z.eqb_neq in E. contradiction.
Qed.

(** A record that was applied is settled. *)
Lemma apply_record_settles rec db db' ms :
  Reconciler.apply_record rec db = Ok (db', ms) -> Reconciler.settled rec db'.
Proof.
  unfold Reconciler.apply_record, Reconciler.settled.
  destruct (Db.fetchone _ _ db) as [ex|] eqn:F.
  - destruct ((_ =? 1) && _) eqn:C; intros [= <- <-].
    + apply andb_true_iff in C as [C1 C2]. apply Z.eqb_eq in C1.
      rewrite fetchone_update_payment, F. eexists. split; [reflexivity|].
      intros [_ H]. revert H. apply update_payment_status_nonzero; auto.
    + exists ex. split; [assumption|]. intros [H1 H2].
      apply andb_false_iff in C as [C|C];
        [apply Z.eqb_neq in C; contradiction | apply bool_decide_eq_false in C; contradiction].
  - destruct (Reconciler.rec_plate rec) as [p|] eqn:P; [|discriminate].
    intros [= <- <-]. rewrite fetchone_app, F.
    unfold Db.fetchone. cbn [List.find Db.matches Db.plate_number Db.entry_time].
    rewrite bool_decide_eq_true_2 by reflexivity. rewrite Z.eqb_refl. cbn [andb].
    eexists. split; [reflexivity|]. simpl. intros [-> [=]].
Qed.

(** Applying another record keeps a settled record settled. *)
Lemma apply_record_keeps_settled rec rec' db db' ms :
  Reconciler.settled rec db ->
  Reconciler.apply_record rec' db = Ok (db', ms) ->
  Reconciler.settled rec db'.
Proof.
  intros (ex & F & Hex). unfold Reconciler.apply_record, Reconciler.settled.
  destruct (Db.fetchone (Reconciler.rec_plate rec') (Reconciler.rec_entry rec') db)
    as [ex'|] eqn:F'.
  - destruct ((_ =? 1) && _) eqn:C; intros [= <- <-].
    + apply andb_true_iff in C as [C1 C2]. apply Z.eqb_eq in C1.
      rewrite fetchone_update_payment, F. eexists. split; [reflexivity|].
      intros [H1 H2]. unfold Reconciler.update_payment in H2.
      destruct (Db.id ex =? Db.id ex'); simpl in H2; [congruence | tauto].
    + eauto.
  - destruct (Reconciler.rec_plate rec') as [p|]; [|discriminate].
    intros [= <- <-]. rewrite fetchone_app, F. eauto.
Qed.

(** On a settled record the loop body changes nothing. *)
Lemma apply_record_settled rec db :
  Reconciler.settled rec db -> Reconciler.apply_record rec db = Ok (db, []).
Proof.
  intros (ex & F & Hex). unfold Reconciler.apply_record. rewrite F.
  destruct (_ =? 1) eqn:C1; [|reflexivity].
  destruct (bool_decide _) eqn:C2; [|reflexivity].
  exfalso. apply Hex. split; [apply Z.eqb_eq, C1 | eapply bool_decide_eq_true_1, C2].
Qed.

Lemma merge_row_Ok fieldnames r db db' ms :
  merge_row fieldnames r db = Ok (db', ms) ->
  exists rec, parse_row fieldnames r = Ok rec
              /\ Reconciler.apply_record rec db = Ok (db', ms).
Proof.
  rewrite merge_row_two_steps.
  destruct (parse_row fieldnames r) as [rec|]; [|discriminate]. eauto.
Qed.

Lemma merge_rows_cons_Ok fieldnames r rest db db2 ms :
  r <> [] ->
  merge_rows fieldnames (r :: rest) db = Ok (db2, ms) ->
  exists db1 m1 m2,
    merge_row fieldnames r db = Ok (db1, m1)
    /\ merge_rows fieldnames rest db1 = Ok (db2, m2)
    /\ ms = m1 ++ m2.
Proof.
  intros Hr. cbn [Reconciler.merge_rows].
  destruct r as [|c r]; [congruence|].
  destruct (merge_row fieldnames (c :: r) db) as [[db1 m1]|]; [|discriminate].
  cbn [mbind res_bind].
  destruct (merge_rows fieldnames rest db1) as [[db2' m2]|] eqn:E2; [|discriminate].
  cbn [mbind res_bind]. intros [= <- <-]. exists db1, m1, m2.
  split; [reflexivity | split; [exact E2 | reflexivity]].
Qed.

Lemma merge_rows_keeps_settled fieldnames rows rec db db' ms :
  Reconciler.settled rec db ->
  merge_rows fieldnames rows db = Ok (db', ms) ->
  Reconciler.settled rec db'.
Proof.
  revert db ms. induction rows as [|r rows IH]; intros db ms Hs.
  - intros [= <- <-]. assumption.
  - destruct r as [|c r]; [apply IH; assumption|].
    intros H. apply merge_rows_cons_Ok in H as (db1 & m1 & m2 & H1 & H2 & _); [|discriminate].
    apply merge_row_Ok in H1 as (rec' & _ & H1).
    eapply IH; [|exact H2]. eapply apply_record_keeps_settled; eauto.
Qed.

Lemma merge_rows_settles fieldnames rows db db' ms :
  merge_rows fieldnames rows db = Ok (db', ms) ->
  Forall (row_settled fieldnames db') rows.
Proof.
  revert db ms. induction rows as [|r rows IH]; intros db ms; [constructor|].
  destruct r as [|c r].
  - intros H. constructor; [left; reflexivity | eapply IH; exact H].
  - intros H. apply merge_rows_cons_Ok in H as (db1 & m1 & m2 & H1 & H2 & _); [|discriminate].
    apply merge_row_Ok in H1 as (rec & Hp & H1).
    constructor; [|eapply IH; exact H2].
    right. exists rec. split; [assumption|].
    eapply merge_rows_keeps_settled; [|exact H2].
    eapply apply_record_settles; exact H1.
Qed.

Lemma merge_rows_settled fieldnames rows db :
  Forall (row_settled fieldnames db) rows ->
  merge_rows fieldnames rows db = Ok (db, []).
Proof.
  induction 1 as [|r rows Hr _ IH]; [reflexivity|].
  destruct Hr as [->|(rec & Hp & Hs)]; [exact IH|].
  cbn [Reconciler.merge_rows]. destruct r as [|c r]; [exact IH|].
  rewrite merge_row_two_steps, Hp. cbn [mbind res_bind].
  rewrite (apply_record_settled _ _ Hs). cbn [mbind res_bind].
  rewrite IH. reflexivity.
Qed.

End ReconcilerFacts.

Example clock_parses : Clock.strptime "2024-01-01 10:00:00" = Some 1704103200000000.
Proof. reflexivity. Qed.
Example clock_prints : Clock.strftime 1704103500123456 = "2024-01-01 10:05:00".
Proof. reflexivity. Qed.
Example clock_rejects : Clock.strptime "2024-02-30 10:00:00" = None /\ Clock.strptime "yesterday" = None.
Proof. split; reflexivity. Qed.

Section ReconcilerClaim.

Variable strptime : string -> option Fee.datetime.

Lemma fetchone_None plate entry db old :
  Db.fetchone (Some plate) entry db = None -> old ∈ db ->
  ~ (Db.plate_number old = plate /\ Db.entry_time old = entry).
Proof.
  unfold Db.fetchone. intros Hnone Hin [Hp He].
  apply list_elem_of_In in Hin.
  pose proof (List.find_none _ _ Hnone old Hin) as H.
  unfold Db.matches in H. rewrite bool_decide_eq_true_2 in H by assumption.
  rewrite He, Z.eqb_refl in H. discriminate.
Qed.

Lemma fetchone_Some plate entry db old :
  Db.fetchone plate entry db = Some old ->
  old ∈ db /\ plate = Some (Db.plate_number old) /\ Db.entry_time old = entry.
Proof.
  unfold Db.fetchone. intros H. apply List.find_some in H as [Hin Hm].
  split; [apply list_elem_of_In, Hin|].
  unfold Db.matches in Hm. destruct plate as [p|]; [|discriminate].
  apply andb_true_iff in Hm as [H1 H2].
  apply bool_decide_eq_true_1 in H1. apply Z.eqb_eq in H2. subst. auto.
Qed.

(** What one row of the log may do to the store. *)
Lemma merge_row_mutations fieldnames r db db' ms :
  Reconciler.merge_row strptime fieldnames r db = Ok (db', ms) ->
  exists rec,
    Reconciler.parse_row strptime fieldnames r = Ok rec
    /\ (forall new, Reconciler.Inserted new ∈ ms ->
          ms = [Reconciler.Inserted new] /\ db' = db ++ [new]
          /\ Reconciler.rec_plate rec = Some (Db.plate_number new)
          /\ Reconciler.rec_entry rec = Db.entry_time new
          /\ forall old, old ∈ db ->
               ~ (Db.plate_number old = Db.plate_number new
                  /\ Db.entry_time old = Db.entry_time new))
    /\ (forall i st t a, Reconciler.Updated i st t a ∈ ms ->
          Reconciler.rec_status rec = 1 /\ st = 1
          /\ exists old, old ∈ db /\ Db.id old = i
                         /\ Reconciler.rec_plate rec = Some (Db.plate_number old)
                         /\ Reconciler.rec_entry rec = Db.entry_time old
                         /\ Db.payment_status old = Some 0).
Proof.
  intros H. apply merge_row_Ok in H as (rec & Hp & H).
  exists rec. split; [assumption|].
  unfold Reconciler.apply_record in H.
  destruct (Db.fetchone _ _ db) as [ex|] eqn:F.
  - destruct ((_ =? 1) && _) eqn:C; injection H as <- <-.
    + apply andb_true_iff in C as [C1 C2].
      apply Z.eqb_eq in C1. apply bool_decide_eq_true_1 in C2.
      apply fetchone_Some in F as (Hin & Hpl & Hen).
      split.
      * intros new Hnew. apply list_elem_of_singleton in Hnew. discriminate.
      * intros i st t a Hu. apply list_elem_of_singleton in Hu.
        injection Hu as -> -> -> ->. repeat split; try assumption.
        exists ex. auto.
    + split; intros; exfalso; eapply not_elem_of_nil; eassumption.
  - destruct (Reconciler.rec_plate rec) as [p|] eqn:P; [|discriminate].
    injection H as <- <-. split.
    + intros new Hnew. apply list_elem_of_singleton in Hnew. injection Hnew as ->.
      cbn [Db.plate_number Db.entry_time]. repeat split.
      intros old Hold. eapply fetchone_None; eassumption.
    + intros i st t a Hu. apply list_elem_of_singleton in Hu. discriminate.
Qed.

End ReconcilerClaim.

(** C5: running [sync_csv_to_db] again on the store the first run left
    commits no mutation and leaves that store as it is.  And within a run a
    row of the log is inserted only when the store has no row with its plate
    and entry time, and a row of the store is updated only when the log shows
    the record paid (status 1) while the matching row of the store is unpaid
    (status 0). *)
Theorem sync_csv_to_db_idempotent
    (strptime : string -> option Fee.datetime) (exists_ : bool)
    (f : log_file) (db : Db.table) :
  Reconciler.sync_csv_to_db strptime exists_ f
    (Reconciler.sync_csv_to_db strptime exists_ f db).1
  = ((Reconciler.sync_csv_to_db strptime exists_ f db).1, [])
  /\ (forall fieldnames r db0 db' ms,
         Reconciler.merge_row strptime fieldnames r db0 = Ok (db', ms) ->
         (forall new, Reconciler.Inserted new ∈ ms ->
            forall old, old ∈ db0 ->
              ~ (Db.plate_number old = Db.plate_number new
                 /\ Db.entry_time old = Db.entry_time new))
         /\ (forall i st t a, Reconciler.Updated i st t a ∈ ms ->
               exists rec old,
                 Reconciler.parse_row strptime fieldnames r = Ok rec
                 /\ Reconciler.rec_status rec = 1
                 /\ old ∈ db0 /\ Db.id old = i
                 /\ Reconciler.rec_plate rec = Some (Db.plate_number old)
                 /\ Reconciler.rec_entry rec = Db.entry_time old
                 /\ Db.payment_status old = Some 0)).
Proof.
  split.
  - unfold Reconciler.sync_csv_to_db. destruct exists_; [|reflexivity].
    destruct f as [[|fieldnames data]|]; cbn [open_log mbind res_bind fst]; try reflexivity.
    destruct (Reconciler.merge_rows strptime fieldnames data db) as [[db1 ms]|e] eqn:E;
      cbn [fst].
    + rewrite (merge_rows_settled strptime fieldnames data db1); [reflexivity|].
      eapply merge_rows_settles. exact E.
    + rewrite E. reflexivity.
  - intros fieldnames r db0 db' ms H.
    apply merge_row_mutations in H as (rec & Hp & Hins & Hupd). split.
    + intros new Hnew. apply Hins in Hnew as (_ & _ & _ & _ & H). exact H.
    + intros i st t a Hu. apply Hupd in Hu as (H1 & _ & old & H2 & H3 & H4 & H5 & H6).
      exists rec, old. auto 10.
Qed.

Lemma sync_csv_to_db_idempotent_witness :
  let log := Some [["Plate Number"; "Payment Status"; "Timestamp"; "Payment Timestamp"];
                   ["RAB123C"; "0"; "2024-01-01 10:00:00"; ""];
                   ["RAB123C"; "1"; "2024-01-01 10:00:00"; "2024-01-01 10:05:00"];
                   ["RAX999Z"; "0"; "2024-01-01 11:00:00"; ""]] in
  let db1 := (Reconciler.sync_csv_to_db Clock.strptime true log []).1 in
  Reconciler.sync_csv_to_db Clock.strptime true log db1 = (db1, []).
Proof.
  intros log db1.
  exact (proj1 (sync_csv_to_db_idempotent Clock.strptime true log [])).
Defined.

Example sync_first_run :
  Reconciler.sync_csv_to_db Clock.strptime true
    (Some [["Plate Number"; "Payment Status"; "Timestamp"; "Payment Timestamp"];
           ["RAB123C"; "0"; "2024-01-01 10:00:00"; ""];
           ["RAB123C"; "1"; "2024-01-01 10:00:00"; "2024-01-01 10:05:00"]]) []
  = let paid :=
      {| Db.id := 1; Db.plate_number := "RAB123C";
         Db.entry_time := 1704103200000000; Db.exit_time := None;
         Db.payment_status := Some 1; Db.payment_amount := Some 500;
         Db.payment_time := Some 1704103500000000;
         Db.is_unauthorized_exit := Some 0 |} in
    let unpaid :=
      {| Db.id := 1; Db.plate_number := "RAB123C";
         Db.entry_time := 1704103200000000; Db.exit_time := None;
         Db.payment_status := Some 0; Db.payment_amount := None;
         Db.payment_time := None;
         Db.is_unauthorized_exit := Some 0 |} in
    ([paid],
     [Reconciler.Inserted unpaid;
      Reconciler.Updated 1 1 (Some 1704103500000000) (Some 500)]).
Proof. vm_compute. reflexivity. Qed.

(** ** The settlement transaction *)

Section SettlementFacts.

Variable strptime : string -> option Fee.datetime.
Variable strftime : Fee.datetime -> string.

#[local] Abbreviation process_payment := (Payment.process_payment strptime strftime).

(** What [rollback_changes] does in the outer handler: the backup has as
    many rows as the log had, and the rewrite is the only event. *)
Lemma handler_rollback e (h : list (list string)) w (rows : list (list string)) :
  (length rows <? 2)%nat = false ->
  let backup := Payment.deref h <$> seq 0 (length rows) in
  Payment.rollback_changes e (seq 0 (length rows)) h w []
  = ({| Payment.log := Payment.write_file (Payment.log w) backup (Payment.rollback_write e);
        Payment.db := Payment.db w |},
     [Payment.LogRollback backup (Payment.rollback_write e)]).
Proof.
  intros Hlen. unfold Payment.rollback_changes.
  destruct (seq 0 (length rows)) eqn:Hseq; [|reflexivity].
  apply Nat.ltb_ge in Hlen. destruct rows; simpl in *; [lia | discriminate].
Qed.

(** How a run can go, by the events it leaves. *)
Lemma process_payment_shapes e busy w plate balance :
  let r := process_payment e busy w plate balance in
  (r = (w, []))
  \/ (r = (w, [Payment.Signal Payment.INSUFFICIENT]))
  \/ (exists v, r = (w, [Payment.TagWrite v false]))
  \/ (exists v rest, r.2 = Payment.TagWrite v true :: rest)
  \/ (exists content,
        r.2 = [Payment.LogRollback content (Payment.rollback_write e)]
        /\ Payment.db r.1 = Payment.db w
        /\ (Payment.scan_raises strptime (Payment.now e) (Payment.log w) plate = true
            \/ exists total,
                 Payment.total_due strptime (Payment.now e) (Payment.log w) plate
                 = Some total
                 /\ balance < total /\ Payment.signal_write_ok e = false)).
Proof.
  unfold Payment.process_payment, Payment.scan_raises, Payment.total_due.
  destruct busy; [left; reflexivity|].
  destruct (Payment.log w) as [rows|]; [|left; reflexivity].
  destruct (length rows <? 2)%nat eqn:Hlen; [left; reflexivity|].
  destruct (Payment.prepare _ _ _ _ rows) as [h [[valid [[found total] entries]]|ex]].
  - destruct found; cbn [negb]; [|left; reflexivity].
    destruct (balance <? total) eqn:Hlt.
    { destruct (Payment.signal_write_ok e); [right; left; reflexivity|].
      right; right; right; right. rewrite (handler_rollback e h w rows Hlen).
      eexists. split; [reflexivity|]. split; [reflexivity|].
      right. exists total. apply Z.ltb_lt in Hlt. auto. }
    destruct (Payment.write_rfid_card (Payment.debit_reply e)); cbn [negb];
      [|right; right; left; eexists; reflexivity].
    right; right; right; left.
    destruct (Payment.mark _ _ _ h) as [h1 [[]|ex]].
    + destruct (Payment.log_write e); [destruct (Payment.db_io e)| |];
        cbv zeta; unfold Payment.compensate, Payment.rollback_changes;
        destruct (seq 0 (length rows)); cbn [snd app]; eauto.
    + unfold Payment.compensate, Payment.rollback_changes;
        destruct (seq 0 (length rows)); cbn [snd app]; eauto.
  - right; right; right; right. rewrite (handler_rollback e h w rows Hlen).
    eexists. split; [reflexivity|]. split; [reflexivity|]. left. reflexivity.
Qed.

End SettlementFacts.

(** On a log whose rows have as many cells as the header and no blank
    first cell, the amount the settlement finds due is the sum of the fees
    of the unpaid rows of the plate. *)

Section TotalDue.

Variable strptime : string -> option Fee.datetime.

Lemma validate_well_formed ncols refs valid (h : list (list string)) :
  Forall (fun r => Payment.well_formed ncols (Payment.deref h r)) refs ->
  Payment.validate ncols refs valid h = (h, Ok (valid ++ refs)).
Proof.
  revert valid. induction refs as [|r refs IH]; intros valid Hall.
  - simpl. rewrite app_nil_r. reflexivity.
  - apply Forall_cons in Hall as [(Hlen & c0 & Hc0 & Hne) Hall].
    cbn [Payment.validate]. unfold mbind, Payment.M_bind, Payment.get_row, Payment.lift, item.
    rewrite Hc0, Hne. cbn [negb].
    rewrite Hlen, Nat.ltb_irrefl.
    rewrite IH by assumption. rewrite <- app_assoc. reflexivity.
Qed.

Lemma fees_due_cons plate now cells data :
  Payment.fees_due strptime plate now (cells :: data)
  = (if Payment.unpaid_for plate cells then Payment.fee_of strptime now cells else 0)
    + Payment.fees_due strptime plate now data.
Proof. reflexivity. Qed.

Lemma scan_well_formed plate now ncols refs i found total entries (h : list (list string)) :
  (3 <= ncols)%nat ->
  Forall (fun r => Payment.well_formed ncols (Payment.deref h r)) refs ->
  exists entries',
    Payment.scan strptime plate now refs i (found, total, entries) h
    = (h, Ok (found || existsb (Payment.unpaid_for plate) (Payment.deref h <$> refs),
              total + Payment.fees_due strptime plate now (Payment.deref h <$> refs),
              entries')).
Proof.
  intros Hn. revert i found total entries.
  induction refs as [|r refs IH]; intros i found total entries Hall.
  - exists entries. simpl. rewrite orb_false_r, Z.add_0_r. reflexivity.
  - apply Forall_cons in Hall as [(Hlen & c0 & Hc0 & Hne) Hall].
    destruct (lookup_lt_is_Some_2 (Payment.deref h r) 1%nat ltac:(lia)) as [c1 Hc1].
    destruct (lookup_lt_is_Some_2 (Payment.deref h r) 2%nat ltac:(lia)) as [c2 Hc2].
    cbn [Payment.scan]. unfold mbind, Payment.M_bind, Payment.get_row, Payment.lift, item.
    cbn beta iota. rewrite Hc0. rewrite fmap_cons, fees_due_cons. cbn [existsb].
    assert (Payment.unpaid_for plate (Payment.deref h r)
            = bool_decide (c0 = plate) && bool_decide (c1 = "0")) as ->.
    { unfold Payment.unpaid_for. rewrite Hc0, Hc1.
      f_equal; apply bool_decide_ext; split; congruence. }
    unfold Payment.fee_of at 1. rewrite Hc2.
    cbn [mbind option_bind].
    destruct (decide (c0 = plate)) as [->|Hp].
    + rewrite !bool_decide_eq_true_2 by reflexivity. cbn [andb]. rewrite Hc1.
      destruct (decide (c1 = "0")) as [->|H0].
      * rewrite !bool_decide_eq_true_2 by reflexivity.
        cbn beta iota. destruct (strptime c2) as [t|].
        -- destruct (IH (S i) true (total + Fee.hours_spent t now * Fee.RATE_PER_HOUR)
                       (entries ++ [(i, Fee.hours_spent t now * Fee.RATE_PER_HOUR,
                                     Fee.hours_spent t now, t)]) Hall) as [en ->].
           exists en. rewrite orb_true_r. cbn [orb andb]. unfold Fee.amount_due.
           rewrite Z.add_assoc. reflexivity.
        -- destruct (IH (S i) true total entries Hall) as [en ->].
           exists en. rewrite orb_true_r. cbn [orb andb]. rewrite Z.add_0_l. reflexivity.
      * rewrite !bool_decide_eq_false_2 by congruence. cbn beta iota.
        destruct (IH (S i) found total entries Hall) as [en ->].
        exists en. cbn [orb andb]. reflexivity.
    + rewrite !bool_decide_eq_false_2 by congruence. cbn [andb]. cbn beta iota.
      destruct (IH (S i) found total entries Hall) as [en ->].
      exists en. cbn [orb andb]. reflexivity.
Qed.

Lemma deref_tail (header : list string) data :
  Payment.deref (header :: data) <$> seq 1 (length data) = data.
Proof.
  rewrite <- fmap_S_seq, <- list_fmap_compose.
  apply list_eq. intros i. rewrite list_lookup_fmap.
  destruct (data !! i) as [x|] eqn:E.
  - rewrite lookup_seq_lt by (eapply lookup_lt_Some; eassumption).
    simpl. unfold Payment.deref. simpl. rewrite E. reflexivity.
  - rewrite lookup_seq_ge by (apply lookup_ge_None; assumption). reflexivity.
Qed.

Lemma total_due_well_formed plate now header data :
  data <> [] -> (3 <= length header)%nat ->
  Forall (Payment.well_formed (length header)) data ->
  Payment.total_due strptime now (Some (header :: data)) plate
  = if existsb (Payment.unpaid_for plate) data
    then Some (Payment.fees_due strptime plate now data)
    else None.
Proof.
  intros Hne Hcols Hall. unfold Payment.total_due.
  replace (length (header :: data) <? 2)%nat with false
    by (symmetry; apply Nat.ltb_ge; destruct data; [congruence | simpl; lia]).
  assert (Forall (fun r => Payment.well_formed (length header)
                             (Payment.deref (header :: data) r))
                 (seq 1 (length data))) as Hrefs.
  { assert (Forall (Payment.well_formed (length header))
                   (Payment.deref (header :: data) <$> seq 1 (length data))) as H
      by (rewrite deref_tail; exact Hall).
    exact (proj1 (Forall_fmap _ _ _) H). }
  unfold Payment.prepare, mbind, Payment.M_bind, Payment.get_row.
  cbn [length]. replace (S (length data) - 1)%nat with (length data) by lia.
  change (Payment.deref (header :: data) 0) with header.
  rewrite validate_well_formed by exact Hrefs. cbn [app].
  destruct (scan_well_formed plate now (length header) (seq 1 (length data)) 0 false 0 []
              (header :: data) Hcols Hrefs) as [en ->].
  rewrite deref_tail. cbn [orb]. unfold mret, Payment.M_ret.
  destruct (existsb _ data); reflexivity.
Qed.

End TotalDue.




Section SettlementOrder.

Lemma singleton_split {A} (x : A) pre ev post :
  [x] = pre ++ ev :: post -> pre = [] /\ ev = x /\ post = [].
Proof.
  destruct pre as [|a pre]; simpl.
  - intros [= -> <-]. auto.
  - intros [= _ H]. destruct pre; discriminate.
Qed.


End SettlementOrder.

(** C3, as stated, fails on the code: on a log with a short row followed by
    an empty line, the scan pads the short row in place and then raises; the
    handler rewrites the log from the backup, which shares the padded row.
    The log is written, and changed, and no tag write was even attempted. *)
Lemma log_rewritten_without_acknowledged_write :
  let w := {| Payment.log :=
                Some [["Plate Number"; "Payment Status"; "Timestamp"; "Payment Timestamp"];
                      ["RAB123C"; "0"];
                      []];
              Payment.db := [] |} in
  let e := {| Payment.now := 1704103500000000;
              Payment.signal_write_ok := true;
              Payment.debit_reply := (0, [(10, Some "[UPDATED]")]);
              Payment.compensation_reply := (0, [(10, Some "[UPDATED]")]);
              Payment.log_write := Payment.IoOk;
              Payment.rollback_write := Payment.IoOk;
              Payment.db_io := Payment.DbOk |} in
  let r := Payment.process_payment Clock.strptime Clock.strftime e false w "RAB123C" 1000 in
  (forall a, a ∈ r.2 -> Payment.acknowledged_write a = false)
  /\ (exists ev, ev ∈ r.2 /\ Payment.store_event ev = true)
  /\ Payment.log r.1
     = Some [["Plate Number"; "Payment Status"; "Timestamp"; "Payment Timestamp"];
             ["RAB123C"; "0"; ""; ""];
             []]
  /\ Payment.log r.1 <> Payment.log w.
Proof.
  intros w e r. vm_compute. split; [|split; [|split]].
  - intros a Ha. apply list_elem_of_singleton in Ha. subst a. reflexivity.
  - eexists. split; [apply list_elem_of_singleton; reflexivity | reflexivity].
  - reflexivity.
  - discriminate.
Qed.

(** C3 (amended): in every run of [process_payment], an event that touches
    the log or the relational store comes after an acknowledged tag write,
    with two exceptions, in which the handler rewrites the log from the
    backup ([rollback_changes]) and that rewrite is the only event of the
    run: reading or scanning the log raised; or the scan found more due than
    the balance and writing the insufficient-balance signal to the port
    raised.  The relational store is as it was then.  When a tag write was
    attempted and none was acknowledged, the run ends with the world as it
    was and that failed write as its only event. *)
Theorem store_events_follow_acknowledged_write
    (strptime : string -> option Fee.datetime) (strftime : Fee.datetime -> string)
    (e : Payment.env) (busy : bool) (w : Payment.world) (plate : string) (balance : Z) :
  let r := Payment.process_payment strptime strftime e busy w plate balance in
  (forall pre ev post,
      r.2 = pre ++ ev :: post -> Payment.store_event ev = true ->
      (exists a, a ∈ pre /\ Payment.acknowledged_write a = true)
      \/ (exists content,
            ev = Payment.LogRollback content (Payment.rollback_write e)
            /\ pre = [] /\ post = []
            /\ Payment.db r.1 = Payment.db w
            /\ (Payment.scan_raises strptime (Payment.now e) (Payment.log w) plate = true
                \/ exists total,
                     Payment.total_due strptime (Payment.now e) (Payment.log w) plate
                     = Some total
                     /\ balance < total /\ Payment.signal_write_ok e = false)))
  /\ (forall v,
        Payment.TagWrite v false ∈ r.2 ->
        (forall a, a ∈ r.2 -> Payment.acknowledged_write a = false) ->
        r = (w, [Payment.TagWrite v false])).
Proof.
  intros r.
  destruct (process_payment_shapes strptime strftime e busy w plate balance)
    as [H|[H|[[v H]|[(v & rest & H)|(content & H & Hdb & Hwhy)]]]]; fold r in H.
  - rewrite H. cbn [snd]. split.
    + intros pre ev post Heq. destruct pre; discriminate.
    + intros v Hin. inversion Hin.
  - rewrite H. cbn [snd]. split.
    + intros pre ev post Heq Hst. apply singleton_split in Heq as (_ & -> & _). discriminate.
    + intros v Hin. apply list_elem_of_singleton in Hin. discriminate.
  - rewrite H. cbn [snd]. split.
    + intros pre ev post Heq Hst. apply singleton_split in Heq as (_ & -> & _). discriminate.
    + intros v' Hin _. apply list_elem_of_singleton in Hin. injection Hin as ->. reflexivity.
  - rewrite H. split.
    + intros pre ev post Heq Hst. left. destruct pre as [|a pre].
      * injection Heq as <- _. discriminate.
      * injection Heq as <- _. exists (Payment.TagWrite v true). split; [left | reflexivity].
    + intros v' _ Hall. specialize (Hall (Payment.TagWrite v true) ltac:(left)). discriminate.
  - fold r in Hdb. rewrite H. split.
    + intros pre ev post Heq Hst. right. apply singleton_split in Heq as (-> & -> & ->).
      exists content. auto.
    + intros v Hin. apply list_elem_of_singleton in Hin. discriminate.
Qed.

Lemma store_events_follow_acknowledged_write_witness :
  let w := {| Payment.log :=
                Some [["Plate Number"; "Payment Status"; "Timestamp"; "Payment Timestamp"];
                      ["RAB123C"; "0"; "2024-01-01 10:00:00"; ""]];
              Payment.db := [] |} in
  let e := {| Payment.now := 1704103500000000;
              Payment.signal_write_ok := true;
              Payment.debit_reply := (0, [(10, Some "[ERROR] write failed")]);
              Payment.compensation_reply := (0, []);
              Payment.log_write := Payment.IoOk;
              Payment.rollback_write := Payment.IoOk;
              Payment.db_io := Payment.DbOk |} in
  Payment.process_payment Clock.strptime Clock.strftime e false w "RAB123C" 1000
  = (w, [Payment.TagWrite 500 false]).
Proof.
  intros w e.
  refine (proj2 (store_events_follow_acknowledged_write
                   Clock.strptime Clock.strftime e false w "RAB123C" 1000) 500 _ _).
  - vm_compute. left.
  - vm_compute. intros a Ha. apply list_elem_of_singleton in Ha. subst a. reflexivity.
Defined.

(** ** What the marking and the updates leave *)

Section SettlementMarks.

Variable strptime : string -> option Fee.datetime.

Lemma mark_cells_length stamp (cells : list string) :
  length (PaymentProps.mark_cells stamp cells) = length cells.
Proof. unfold PaymentProps.mark_cells. rewrite !length_insert. reflexivity. Qed.

Lemma mark_cells_idem stamp (cells : list string) :
  PaymentProps.mark_cells stamp (PaymentProps.mark_cells stamp cells)
  = PaymentProps.mark_cells stamp cells.
Proof.
  unfold PaymentProps.mark_cells.
  rewrite (list_insert_insert_ne _ 1 3) by lia.
  rewrite !list_insert_insert_eq. reflexivity.
Qed.

Lemma deref_insert (h : list (list string)) r r' v :
  (r < length h)%nat ->
  Payment.deref (<[r := v]> h) r' = if decide (r' = r) then v else Payment.deref h r'.
Proof.
  intros Hr. unfold Payment.deref. destruct (decide (r' = r)) as [->|Hne].
  - rewrite list_lookup_insert_eq by exact Hr. reflexivity.
  - rewrite list_lookup_insert_ne by congruence. reflexivity.
Qed.

Lemma deref_length_lt (h : list (list string)) r n :
  (0 < n)%nat -> (n <= length (Payment.deref h r))%nat -> (r < length h)%nat.
Proof.
  unfold Payment.deref. intros Hn Hlen.
  destruct (h !! r) eqn:E; [eapply lookup_lt_Some; eassumption | simpl in Hlen; lia].
Qed.

Lemma mark_heap_deref stamp refs (h : list (list string)) r :
  Forall (fun r => (r < length h)%nat) refs ->
  Payment.deref (PaymentProps.mark_heap stamp refs h) r
  = if bool_decide (r ∈ refs) then PaymentProps.mark_cells stamp (Payment.deref h r)
    else Payment.deref h r.
Proof.
  revert h. induction refs as [|a refs IH]; intros h Hall.
  - reflexivity.
  - apply Forall_cons in Hall as [Ha Hall].
    cbn [PaymentProps.mark_heap fold_left].
    change (fold_left _ refs ?x) with (PaymentProps.mark_heap stamp refs x).
    rewrite IH by (rewrite length_insert; exact Hall).
    rewrite !deref_insert by exact Ha.
    destruct (decide (r = a)) as [->|Hne].
    + rewrite (bool_decide_eq_true_2 (a ∈ a :: refs)) by left.
      destruct (bool_decide (a ∈ refs)); [apply mark_cells_idem | reflexivity].
    + destruct (decide (r ∈ refs)) as [Hin|Hnin].
      * rewrite !bool_decide_eq_true_2 by (try right; exact Hin). reflexivity.
      * rewrite !bool_decide_eq_false_2; [reflexivity | | exact Hnin].
        intros H. apply elem_of_cons in H as [?|?]; contradiction.
Qed.










End SettlementMarks.


(** The same slip without any input/output failure: with a header of three
    columns, marking the row raises on the payment-timestamp cell after the
    status cell was set; the compensating write is attempted and the
    rollback writes the row back with status 1. *)
Example rollback_after_marking_raised :
  let w := {| Payment.log :=
                Some [["Plate Number"; "Payment Status"; "Timestamp"];
                      ["RAB123C"; "0"; "2024-01-01 10:00:00"]];
              Payment.db := [] |} in
  let e := {| Payment.now := 1704103500000000;
              Payment.signal_write_ok := true;
              Payment.debit_reply := (0, [(10, Some "[UPDATED]")]);
              Payment.compensation_reply := (0, [(10, Some "[UPDATED]")]);
              Payment.log_write := Payment.IoOk;
              Payment.rollback_write := Payment.IoOk;
              Payment.db_io := Payment.DbOk |} in
  Payment.process_payment Clock.strptime Clock.strftime e false w "RAB123C" 1000
  = ({| Payment.log :=
          Some [["Plate Number"; "Payment Status"; "Timestamp"];
                ["RAB123C"; "1"; "2024-01-01 10:00:00"]];
        Payment.db := [] |},
     [Payment.TagWrite 500 true; Payment.TagWrite 1000 true;
      Payment.LogRollback
        [["Plate Number"; "Payment Status"; "Timestamp"];
         ["RAB123C"; "1"; "2024-01-01 10:00:00"]]
        Payment.IoOk]).
Proof. vm_compute. reflexivity. Qed.

(** A row that was cut to the width of the header is a new object, which the
    backup does not share: there the rollback does restore the log. *)
Example rollback_restores_truncated_row :
  let before := [["Plate Number"; "Payment Status"; "Timestamp"; "Payment Timestamp"];
                 ["RAB123C"; "0"; "2024-01-01 10:00:00"; ""; "extra"]] in
  let w := {| Payment.log := Some before; Payment.db := [] |} in
  let e := {| Payment.now := 1704103500000000;
              Payment.signal_write_ok := true;
              Payment.debit_reply := (0, [(10, Some "[UPDATED]")]);
              Payment.compensation_reply := (0, [(10, Some "[UPDATED]")]);
              Payment.log_write := Payment.IoOpenFails;
              Payment.rollback_write := Payment.IoOk;
              Payment.db_io := Payment.DbOk |} in
  (Payment.process_payment Clock.strptime Clock.strftime e false w "RAB123C" 1000).1 = w.
Proof. vm_compute. reflexivity. Qed.



Example two_unpaid_sessions_one_batch :
  let w := {| Payment.log :=
                Some [["Plate Number"; "Payment Status"; "Timestamp"; "Payment Timestamp"];
                      ["RAB123C"; "0"; "2024-01-01 08:00:00"; ""];
                      ["RAX999Z"; "0"; "2024-01-01 09:00:00"; ""];
                      ["RAB123C"; "0"; "2024-01-01 10:00:00"; ""]];
              Payment.db := [] |} in
  let e := {| Payment.now := 1704103500000000;
              Payment.signal_write_ok := true;
              Payment.debit_reply := (0, [(10, Some "[UPDATED]")]);
              Payment.compensation_reply := (0, []);
              Payment.log_write := Payment.IoOk;
              Payment.rollback_write := Payment.IoOk;
              Payment.db_io := Payment.DbOk |} in
  Payment.total_due Clock.strptime (Payment.now e) (Payment.log w) "RAB123C" = Some 2000
  /\ Payment.process_payment Clock.strptime Clock.strftime e false w "RAB123C" 5000
     = ({| Payment.log :=
             Some [["Plate Number"; "Payment Status"; "Timestamp"; "Payment Timestamp"];
                   ["RAB123C"; "1"; "2024-01-01 08:00:00"; "2024-01-01 10:05:00"];
                   ["RAX999Z"; "0"; "2024-01-01 09:00:00"; ""];
                   ["RAB123C"; "1"; "2024-01-01 10:00:00"; "2024-01-01 10:05:00"]];
           Payment.db := [] |},
        [Payment.TagWrite 3000 true;
         Payment.LogWrite
           [["Plate Number"; "Payment Status"; "Timestamp"; "Payment Timestamp"];
            ["RAB123C"; "1"; "2024-01-01 08:00:00"; "2024-01-01 10:05:00"];
            ["RAX999Z"; "0"; "2024-01-01 09:00:00"; ""];
            ["RAB123C"; "1"; "2024-01-01 10:00:00"; "2024-01-01 10:05:00"]]
           Payment.IoOk;
         Payment.DbUpdate "RAB123C" 1704096000000000 1500;
         Payment.DbUpdate "RAB123C" 1704103200000000 500;
         Payment.DbCommit]).
Proof. split; vm_compute; reflexivity. Qed.

(** * Further properties of the code *)

(** ** The exit lane *)

Section ExitLaneFacts.

Implicit Types (t : list Db.vehicle_log) (r entry : Db.vehicle_log).

Lemma latest_spec best rows :
  ExitLane.latest best rows ∈ best :: rows
  /\ forall r, r ∈ best :: rows ->
       Db.entry_time r <= Db.entry_time (ExitLane.latest best rows).
Proof.
  revert best. induction rows as [|x rows IH]; intros best; simpl.
  - split; [left|]. intros r Hr. apply list_elem_of_singleton in Hr. subst. lia.
  - destruct (IH (if Db.entry_time best <? Db.entry_time x then x else best)) as [Hin Hmax].
    split.
    + apply elem_of_cons in Hin as [Hin|Hin].
      * rewrite Hin. destruct (_ <? _); [right; left | left].
      * right; right; exact Hin.
    + intros r Hr.
      destruct (Db.entry_time best <? Db.entry_time x) eqn:E;
        [apply Z.ltb_lt in E | apply Z.ltb_ge in E];
        apply elem_of_cons in Hr as [->|Hr].
      * specialize (Hmax x ltac:(left)). lia.
      * apply Hmax. exact Hr.
      * apply Hmax. left.
      * apply elem_of_cons in Hr as [->|Hr].
        -- specialize (Hmax best ltac:(left)). lia.
        -- apply Hmax. right. exact Hr.
Qed.

Lemma select_open_Some plate t entry :
  ExitLane.select_open plate t = Some entry ->
  entry ∈ t /\ ExitLane.is_open plate entry = true
  /\ forall r, r ∈ t -> ExitLane.is_open plate r = true ->
       Db.entry_time r <= Db.entry_time entry.
Proof.
  unfold ExitLane.select_open.
  destruct (filter _ t) as [|x rest] eqn:F; [discriminate|].
  intros [= <-]. destruct (latest_spec x rest) as [Hin Hmax].
  rewrite <- F in Hin, Hmax.
  apply list_elem_of_filter in Hin as [Hopen Hin].
  split; [assumption|]. split; [assumption|].
  intros r Hr Hopen'. apply Hmax. apply list_elem_of_filter. auto.
Qed.

Lemma select_open_None plate t :
  ExitLane.select_open plate t = None <-> ExitLane.open_sessions plate t = 0%nat.
Proof.
  unfold ExitLane.select_open, ExitLane.open_sessions.
  destruct (filter _ t); simpl; split; congruence.
Qed.

Lemma is_open_close plate i now u r :
  ExitLane.is_open plate (ExitLane.close i now u r)
  = ExitLane.is_open plate r && negb (Db.id r =? i).
Proof.
  unfold ExitLane.close, ExitLane.is_open.
  destruct (Db.id r =? i); cbn [Db.exit_time Db.plate_number negb].
  - rewrite (bool_decide_eq_false_2 (Some now = None)) by discriminate.
    rewrite !andb_false_r. reflexivity.
  - rewrite andb_true_r. reflexivity.
Qed.

Lemma open_sessions_close plate i now u t :
  ExitLane.open_sessions plate (ExitLane.close i now u <$> t)
  = length (filter (fun r => ExitLane.is_open plate r = true /\ Db.id r <> i) t).
Proof.
  unfold ExitLane.open_sessions. induction t as [|r t IH]; [reflexivity|].
  rewrite fmap_cons, !filter_cons.
  assert (ExitLane.is_open plate (ExitLane.close i now u r) = true
          <-> ExitLane.is_open plate r = true /\ Db.id r <> i) as Hiff.
  { rewrite is_open_close, andb_true_iff, negb_true_iff, Z.eqb_neq. reflexivity. }
  destruct (decide (ExitLane.is_open plate (ExitLane.close i now u r) = true)) as [H|H];
    destruct (decide (ExitLane.is_open plate r = true /\ Db.id r <> i)) as [H'|H'];
    try tauto; cbn [length]; rewrite IH; reflexivity.
Qed.

Lemma filter_length_drop_one {A} (P Q : A -> Prop)
    `{!forall x, Decision (P x)} `{!forall x, Decision (Q x)} (l : list A) (a : A) :
  NoDup l -> a ∈ l -> P a -> ~ Q a ->
  (forall x, x ∈ l -> x <> a -> (Q x <-> P x)) ->
  S (length (filter Q l)) = length (filter P l).
Proof.
  intros Hnd Hin HP HQ Hrest.
  apply list_elem_of_split in Hin as (l1 & l2 & ->).
  apply NoDup_app in Hnd as (_ & Hdisj & Hnd2).
  apply NoDup_cons in Hnd2 as [Ha2 _].
  assert (forall l' : list A, (forall x, x ∈ l' -> x ∈ l1 ++ a :: l2 /\ x <> a) ->
                     filter Q l' = filter P l') as Hsame.
  { induction l' as [|x l' IH]; intros Hl'; [reflexivity|].
    destruct (Hl' x ltac:(left)) as [Hx Hne].
    rewrite !filter_cons. pose proof (Hrest x Hx Hne) as Hiff.
    rewrite IH by (intros y Hy; apply Hl'; right; exact Hy).
    destruct (decide (Q x)), (decide (P x)); tauto || reflexivity. }
  rewrite !filter_app, !filter_cons, !length_app.
  rewrite decide_False by assumption. rewrite decide_True by assumption.
  rewrite (Hsame l1), (Hsame l2); [simpl; lia | |].
  - intros x Hx. split; [apply elem_of_app; right; right; exact Hx|].
    intros ->. contradiction.
  - intros x Hx. split; [apply elem_of_app; left; exact Hx|].
    intros ->. apply (Hdisj a Hx). left.
Qed.

End ExitLaneFacts.

Lemma close_selected_session now u t plate entry :
  NoDup (Db.id <$> t) ->
  ExitLane.select_open plate t = Some entry ->
  (forall s, s ∈ t -> s <> entry -> s ∈ ExitLane.close (Db.id entry) now u <$> t)
  /\ S (ExitLane.open_sessions plate (ExitLane.close (Db.id entry) now u <$> t))
     = ExitLane.open_sessions plate t.
Proof.
  intros Hnd Hsel.
  pose proof (select_open_Some _ _ _ Hsel) as (Hin & Hopen & Hmax).
  assert (forall s, s ∈ t -> s <> entry -> Db.id s <> Db.id entry) as Hid.
  { intros s Hs Hne Heq. apply Hne.
    apply list_elem_of_lookup in Hs as [i Hi]. apply list_elem_of_lookup in Hin as [j Hj].
    assert (i = j) as ->.
    { apply (NoDup_lookup (Db.id <$> t) i j (Db.id s)); [exact Hnd | |];
        rewrite list_lookup_fmap; [rewrite Hi | rewrite Hj]; simpl;
        [reflexivity | rewrite Heq; reflexivity]. }
    congruence. }
  split.
  - intros s Hs Hne. apply list_elem_of_fmap. exists s. split; [|assumption].
    unfold ExitLane.close. rewrite (proj2 (Z.eqb_neq _ _) (Hid s Hs Hne)). reflexivity.
  - rewrite open_sessions_close. unfold ExitLane.open_sessions.
    apply (filter_length_drop_one _ _ t entry).
    + eapply NoDup_fmap_1. exact Hnd.
    + assumption.
    + assumption.
    + intros [_ H]. apply H. reflexivity.
    + intros s Hs Hne. split; [tauto|]. intros H. split; [assumption | apply Hid; assumption].
Qed.

Lemma log_vehicle_exit_result io now t plate auth :
  (ExitLane.log_vehicle_exit io now t plate auth).2 = true
  <-> io = Payment.DbOk /\ (0 < ExitLane.open_sessions plate t)%nat.
Proof.
  unfold ExitLane.log_vehicle_exit.
  destruct (ExitLane.select_open plate t) as [entry|] eqn:Hsel.
  - assert (0 < ExitLane.open_sessions plate t)%nat.
    { destruct (ExitLane.open_sessions plate t) eqn:E; [|lia].
      apply select_open_None in E. congruence. }
    destruct io; simpl; split; try discriminate; auto; intros [? ?]; discriminate.
  - apply select_open_None in Hsel.
    destruct io; simpl; split; try discriminate; intros [? ?]; try discriminate; lia.
Qed.

(** X1: [log_vehicle_exit] succeeds exactly when the database answers and the
    plate has an open session; it then closes the open session of the plate
    with the latest entry time, and only that row: the plate has one open
    session less and every other row is as it was.  When it fails the table
    is unchanged. *)
Theorem log_vehicle_exit_closes_latest_session
    (io : Payment.db_outcome) (now : Fee.datetime) (t : list Db.vehicle_log)
    (plate : string) (is_authorized : bool) :
  NoDup (Db.id <$> t) ->
  let r := ExitLane.log_vehicle_exit io now t plate is_authorized in
  (r.2 = true <-> io = Payment.DbOk /\ (0 < ExitLane.open_sessions plate t)%nat)
  /\ (r.2 = false -> r.1 = t)
  /\ (r.2 = true ->
      exists entry,
        entry ∈ t /\ ExitLane.is_open plate entry = true
        /\ (forall s, s ∈ t -> ExitLane.is_open plate s = true ->
              Db.entry_time s <= Db.entry_time entry)
        /\ r.1 = ExitLane.close (Db.id entry) now (if is_authorized then 0 else 1) <$> t
        /\ (forall s, s ∈ t -> s <> entry -> s ∈ r.1)
        /\ S (ExitLane.open_sessions plate r.1) = ExitLane.open_sessions plate t).
Proof.
  intros Hnd r. subst r.
  split; [apply log_vehicle_exit_result|].
  unfold ExitLane.log_vehicle_exit.
  destruct (ExitLane.select_open plate t) as [entry|] eqn:Hsel.
  - pose proof (select_open_Some _ _ _ Hsel) as (Hin & Hopen & Hmax).
    destruct (close_selected_session now (if is_authorized then 0 else 1) t plate entry
                Hnd Hsel) as [Hrest Hcount].
    destruct io; cbn [fst snd]; (split; [try discriminate; reflexivity|]); try discriminate.
    intros _. exists entry. repeat split; assumption.
  - destruct io; cbn [fst snd]; (split; [reflexivity | discriminate]).
Qed.

Lemma on_plate_actions
    (arduino : bool) (io : Payment.db_outcome) (now : Fee.datetime)
    (w : Payment.world) (plate : string) :
  let r := ExitLane.on_plate arduino io now w plate in
  Payment.log r.1 = Payment.log w
  /\ (Sent "1" ∈ r.2 <->
      arduino = true /\ Exit.is_payment_complete (Payment.log w) plate = true
      /\ io = Payment.DbOk /\ (0 < ExitLane.open_sessions plate (Payment.db w))%nat)
  /\ (Sent "1" ∈ r.2 -> r.2 = [Sent "1"; Sent "0"])
  /\ (Sent "2" ∈ r.2 <->
      arduino = true /\ Exit.is_payment_complete (Payment.log w) plate = false).
Proof.
  intros r. subst r. unfold ExitLane.on_plate.
  destruct (Exit.is_payment_complete (Payment.log w) plate) eqn:Hpaid.
  - pose proof (log_vehicle_exit_result io now (Payment.db w) plate true) as Hres.
    destruct (ExitLane.log_vehicle_exit io now (Payment.db w) plate true) as [t [|]];
      cbn [fst snd Payment.log] in *.
    + destruct (proj1 Hres eq_refl) as [Hio Hopen].
      destruct arduino; (split; [reflexivity|]); split.
      * split; [auto | intros; left].
      * split; [reflexivity|].
        split; [intros H; repeat (apply elem_of_cons in H as [H|H]; [discriminate|]);
                inversion H | intros [_ ?]; discriminate].
      * split; [intros H; inversion H | intros [? _]; discriminate].
      * split; [intros H; inversion H|].
        split; [intros H; inversion H | intros [? _]; discriminate].
    + split; [reflexivity|]. split; [|split].
      * split; [intros H; inversion H|].
        intros (_ & _ & Hio & Hopen). destruct Hres as [_ Hres].
        specialize (Hres (conj Hio Hopen)). discriminate.
      * intros H; inversion H.
      * split; [intros H; inversion H | intros [_ ?]; discriminate].
  - destruct (ExitLane.log_vehicle_exit io now (Payment.db w) plate false) as [t b].
    cbn [fst snd Payment.log].
    split; [reflexivity|]. destruct arduino; (split; [|split]).
    + split; [intros H; apply list_elem_of_singleton in H; discriminate|].
      intros (_ & ? & _); discriminate.
    + intros H; apply list_elem_of_singleton in H; discriminate.
    + split; [auto | intros; left].
    + split; [intros H; inversion H | intros (? & _); discriminate].
    + intros H; inversion H.
    + split; [intros H; inversion H | intros (? & _); discriminate].
Qed.


(** X2: What the exit loop does with a voted plate: the log is not written; the
    gate is opened only when [is_payment_complete] holds and the exit was
    logged (the database answered and the plate had an open session), and it
    is then closed again; the alarm is sent exactly when payment is not
    complete (and the port was found). *)
Theorem exit_gate_opens_only_for_paid_open_session
    (arduino : bool) (io : Payment.db_outcome) (now : Fee.datetime)
    (w : Payment.world) (plate : string) :
  let r := ExitLane.on_plate arduino io now w plate in
  Payment.log r.1 = Payment.log w
  /\ (Sent "1" ∈ r.2 <->
      arduino = true /\ Exit.is_payment_complete (Payment.log w) plate = true
      /\ io = Payment.DbOk /\ (0 < ExitLane.open_sessions plate (Payment.db w))%nat)
  /\ (Sent "1" ∈ r.2 -> r.2 = [Sent "1"; Sent "0"])
  /\ (Sent "2" ∈ r.2 <->
      arduino = true /\ Exit.is_payment_complete (Payment.log w) plate = false).
Proof. exact (on_plate_actions arduino io now w plate). Qed.

(** X3: An exit attempt uses up the open session whether it is authorised or
    denied: [exit_time] is set in both branches.  For a plate with exactly
    one open session, after one attempt that reached the database no later
    attempt opens the gate as long as no new session is opened, whatever the
    log says then; in particular a vehicle that was denied and pays
    afterwards is not let out. *)
Theorem exit_attempt_uses_up_open_session
    (arduino : bool) (now : Fee.datetime) (w : Payment.world) (plate : string) :
  NoDup (Db.id <$> Payment.db w) ->
  ExitLane.open_sessions plate (Payment.db w) = 1%nat ->
  let w1 := (ExitLane.on_plate arduino Payment.DbOk now w plate).1 in
  ExitLane.open_sessions plate (Payment.db w1) = 0%nat
  /\ forall arduino' io' now' log',
       Sent "1" ∉ (ExitLane.on_plate arduino' io' now'
                     {| Payment.log := log'; Payment.db := Payment.db w1 |} plate).2.
Proof.
  intros Hnd Hone w1.
  assert (ExitLane.open_sessions plate (Payment.db w1) = 0%nat) as Hzero.
  { subst w1. unfold ExitLane.on_plate, ExitLane.log_vehicle_exit.
    destruct (ExitLane.select_open plate (Payment.db w)) as [entry|] eqn:Hsel.
    - destruct (Exit.is_payment_complete (Payment.log w) plate); cbn [fst Payment.db].
      + destruct (close_selected_session now 0 _ plate entry Hnd Hsel) as [_ H]. lia.
      + destruct (close_selected_session now 1 _ plate entry Hnd Hsel) as [_ H]. lia.
    - apply select_open_None in Hsel. lia. }
  split; [exact Hzero|].
  intros arduino' io' now' log' Hsent.
  apply on_plate_actions in Hsent as (_ & _ & _ & Hopen).
  cbn [Payment.db] in Hopen. lia.
Qed.

(** ** The entry lane *)

Section EntryLaneFacts.

Variable strftime : Fee.datetime -> string.

Lemma spaced_from_app_unlogged last tr tr' :
  Forall (fun a => Entry.is_logged a = false) tr ->
  EntryProps.spaced_from last (tr ++ tr') <-> EntryProps.spaced_from last tr'.
Proof.
  induction 1 as [|a tr Ha _ IH]; [reflexivity|].
  destruct a; try discriminate; simpl; exact IH.
Qed.

Lemma on_text_spaced arduino e st text :
  let r := Entry.on_text strftime arduino e st text in
  forall tr',
    EntryProps.spaced_from (EntryProps.last_saved r.1) tr' ->
    EntryProps.spaced_from (EntryProps.last_saved st) (r.2 ++ tr').
Proof.
  intros r tr'. subst r. unfold Entry.on_text.
  destruct (Plate.on_text _ _ _) as [[mc|] buf]; [|intros H; exact H].
  destruct (negb _ || _) eqn:C; [|intros H; exact H].
  destruct (Entry.log_vehicle_entry strftime e (Entry.world st) mc) as [w [|]];
    [|intros H; exact H].
  cbn [fst snd]. intros H.
  change (EntryProps.spaced_from (EntryProps.last_saved st)
            (EntryLogged mc (Entry.current_time e)
             :: (if arduino then [Sent "1"; Sent "0"] else []) ++ tr')).
  cbn [EntryProps.spaced_from]. split.
  - unfold EntryProps.last_saved. destruct (Entry.last_saved_plate st) as [p0|]; [|exact I].
    intros ->. apply orb_true_iff in C as [C|C].
    + apply negb_true_iff, bool_decide_eq_false in C. congruence.
    + apply Z.ltb_lt in C. exact C.
  - apply spaced_from_app_unlogged; [|exact H].
    destruct arduino; repeat constructor.
Qed.

Lemma run_spaced arduino st inputs :
  EntryProps.spaced_from (EntryProps.last_saved st)
    (Entry.run strftime arduino st inputs).2.
Proof.
  revert st. induction inputs as [|[e text] inputs IH]; intros st; [exact I|].
  cbn [Entry.run].
  pose proof (on_text_spaced arduino e st text) as Hstep. cbv zeta in Hstep.
  destruct (Entry.on_text strftime arduino e st text) as [st1 a1].
  specialize (IH st1).
  destruct (Entry.run strftime arduino st1 inputs) as [st2 a2].
  cbn [fst snd] in *. apply Hstep, IH.
Qed.

Lemma spaced_from_split last a p t1 mid q t2 b :
  EntryProps.spaced_from last (a ++ EntryLogged p t1 :: mid ++ EntryLogged q t2 :: b) ->
  Forall (fun x => Entry.is_logged x = false) mid ->
  p = q -> Entry.entry_cooldown < t2 - t1.
Proof.
  revert last. induction a as [|x a IH]; intros last.
  - cbn [app EntryProps.spaced_from]. intros [_ H] Hmid Hpq.
    apply spaced_from_app_unlogged in H; [|exact Hmid].
    destruct H as [H _]. apply H. congruence.
  - destruct x; cbn [app EntryProps.spaced_from]; try apply IH.
    intros [_ H]. revert H. apply IH.
Qed.

Lemma on_text_gated arduino e st text :
  EntryProps.gated (Entry.on_text strftime arduino e st text).2.
Proof.
  unfold Entry.on_text.
  assert (forall x : action, x <> Sent "1" -> EntryProps.gated [x]) as Hone.
  { intros x Hx a b Heq. destruct a as [|y [|z a]]; try discriminate.
    injection Heq as -> _. congruence. }
  assert (EntryProps.gated []) as Hnil by (intros [|? ?] b Heq; discriminate).
  destruct (Plate.on_text _ _ _) as [[mc|] buf]; [|exact Hnil].
  destruct (negb _ || _); [|apply Hone; discriminate].
  destruct (Entry.log_vehicle_entry strftime e (Entry.world st) mc) as [w [|]];
    [|apply Hone; discriminate].
  cbn [snd]. destruct arduino; [|apply Hone; discriminate].
  intros a b Heq.
  destruct a as [|x [|y [|z a]]]; try discriminate.
  - injection Heq as <- <-. exists [], mc, (Entry.current_time e), []. auto.
  - injection Heq as _ _ _ Heq. destruct a; discriminate.
Qed.

Lemma gated_app x y : EntryProps.gated x -> EntryProps.gated y -> EntryProps.gated (x ++ y).
Proof.
  intros Hx Hy a b Heq.
  apply List.app_eq_app in Heq as [l [[-> Hb]|[-> Hy']]].
  - destruct l as [|z l].
    + simpl in Hb. subst y.
      destruct (Hy [] b eq_refl) as (a' & p & t & b' & Ha & _).
      destruct a'; discriminate.
    + injection Hb as Hz Hb'. subst z b.
      destruct (Hx a l eq_refl) as (a' & p & t & b' & -> & ->).
      exists a', p, t, (b' ++ y). auto.
  - destruct (Hy l b Hy') as (a' & p & t & b' & -> & ->).
    exists (x ++ a'), p, t, b'. rewrite app_assoc. auto.
Qed.

Lemma run_gated arduino st inputs :
  EntryProps.gated (Entry.run strftime arduino st inputs).2.
Proof.
  revert st. induction inputs as [|[e text] inputs IH]; intros st.
  - intros [|? ?] b Heq; discriminate.
  - cbn [Entry.run].
    pose proof (on_text_gated arduino e st text) as H1.
    destruct (Entry.on_text strftime arduino e st text) as [st1 a1].
    specialize (IH st1). destruct (Entry.run strftime arduino st1 inputs) as [st2 a2].
    cbn [snd] in *. apply gated_app; assumption.
Qed.

End EntryLaneFacts.

(** X4: Between two logged entries of the same plate with no logged entry in
    between, more than the cooldown of 300 s has passed. *)
Theorem entry_cooldown_between_logged_entries
    (strftime : Fee.datetime -> string) (arduino : bool) (w : Payment.world)
    (inputs : list (Entry.env * string)) a p t1 mid t2 b :
  (Entry.run strftime arduino (Entry.initial w) inputs).2
  = a ++ EntryLogged p t1 :: mid ++ EntryLogged p t2 :: b ->
  Forall (fun x => Entry.is_logged x = false) mid ->
  Entry.entry_cooldown < t2 - t1.
Proof.
  intros Heq Hmid.
  pose proof (run_spaced strftime arduino (Entry.initial w) inputs) as H.
  rewrite Heq in H. eapply spaced_from_split; [exact H | exact Hmid | reflexivity].
Qed.

Lemma entry_cooldown_between_logged_entries_witness :
  let w := {| Payment.log := Some [["Plate Number"; "Payment Status"; "Timestamp";
                                    "Payment Timestamp"]];
              Payment.db := [] |} in
  let at_ t := {| Entry.now := 1704103200000000 + t;
                  Entry.current_time := 1704103200000000 + t;
                  Entry.log_terminated := true; Entry.csv_append_ok := true;
                  Entry.db_io := Payment.DbOk |} in
  Entry.entry_cooldown < (1704103200000000 + 400000000) - (1704103200000000 + 1000000).
Proof.
  intros w at_.
  apply (entry_cooldown_between_logged_entries Clock.strftime true w
           [(at_ 0, "RAB123C"); (at_ 1000000, "RAB123C");
            (at_ 100000000, "RAB123C"); (at_ 101000000, "RAB123C");
            (at_ 399000000, "RAB123C"); (at_ 400000000, "RAB123C")]
           [] "RAB123C" _ [Sent "1"; Sent "0"; EntrySkipped "RAB123C"] _ [Sent "1"; Sent "0"]).
  - vm_compute. reflexivity.
  - repeat constructor.
Defined.

(** The cooldown only looks at the plate saved last: the same plate is logged
    again within the cooldown when another plate was logged in between. *)
Example entry_cooldown_forgets_earlier_plates :
  let w := {| Payment.log := Some [["Plate Number"; "Payment Status"; "Timestamp";
                                    "Payment Timestamp"]];
              Payment.db := [] |} in
  let at_ t := {| Entry.now := 1704103200000000 + t;
                  Entry.current_time := 1704103200000000 + t;
                  Entry.log_terminated := true; Entry.csv_append_ok := true;
                  Entry.db_io := Payment.DbOk |} in
  (Entry.run Clock.strftime false (Entry.initial w)
     [(at_ 0, "RAB123C"); (at_ 1000000, "RAB123C");
      (at_ 2000000, "RAX999Z"); (at_ 3000000, "RAX999Z");
      (at_ 4000000, "RAB123C"); (at_ 5000000, "RAB123C")]).2
  = [EntryLogged "RAB123C" 1704103201000000;
     EntryLogged "RAX999Z" 1704103203000000;
     EntryLogged "RAB123C" 1704103205000000].
Proof. vm_compute. reflexivity. Qed.

(** X5: In a run of the entry loop the gate is opened only right after an entry
    was logged, and it is closed right after it was opened. *)
Theorem entry_gate_opens_after_logged_entry
    (strftime : Fee.datetime -> string) (arduino : bool) (st : Entry.state)
    (inputs : list (Entry.env * string)) a b :
  (Entry.run strftime arduino st inputs).2 = a ++ Sent "1" :: b ->
  exists a' p t b', a = a' ++ [EntryLogged p t] /\ b = Sent "0" :: b'.
Proof. intros H. exact (run_gated strftime arduino st inputs a b H). Qed.

Lemma entry_gate_opens_after_logged_entry_witness :
  let w := {| Payment.log := Some [["Plate Number"; "Payment Status"; "Timestamp";
                                    "Payment Timestamp"]];
              Payment.db := [] |} in
  let e := {| Entry.now := 1704103200000000;
              Entry.current_time := 1704103200000000;
              Entry.log_terminated := true; Entry.csv_append_ok := true;
              Entry.db_io := Payment.DbExecFails |} in
  exists a' p t b',
    [EntryLogged "RAB123C" 1704103200000000] = a' ++ [EntryLogged p t]
    /\ [Sent "0"] = Sent "0" :: b'.
Proof.
  intros w e.
  apply (entry_gate_opens_after_logged_entry Clock.strftime true (Entry.initial w)
           [(e, "RAB123C"); (e, "XRAB123CX")]).
  vm_compute. reflexivity.
Defined.

(** X6: After [log_vehicle_entry] appended its line to a log file that ends
    with a line terminator (or is empty or missing), [is_payment_complete]
    answers false for the plate, whatever rows the log held before: the exit
    check looks at the last row of the plate, which is the new unpaid one. *)
Theorem new_entry_is_not_paid
    (strftime : Fee.datetime -> string) (e : Entry.env) (w : Payment.world)
    (plate : string) :
  Entry.log_terminated e = true ->
  Entry.csv_append_ok e = true ->
  Exit.is_payment_complete
    (Payment.log (Entry.log_vehicle_entry strftime e w plate).1) plate = false.
Proof.
  intros Hterm Hok. unfold Entry.log_vehicle_entry, Entry.append_line. rewrite Hok, Hterm.
  set (new := Entry.entry_row strftime plate (Entry.now e)).
  assert (Exit.is_payment_complete (Some (default [] (Payment.log w) ++ [new])) plate = false)
    as Hgoal.
  { destruct (Exit.is_payment_complete _ plate) eqn:E; [|reflexivity].
    apply is_payment_complete_true in E
      as (header & data & latest & cell & Hlog & Hall & Hlast & Hcell & Hint).
    exfalso.
    destruct (default [] (Payment.log w)) as [|h rows].
    - injection Hlog as <- <-. discriminate Hlast.
    - injection Hlog as <- <-.
      unfold Exit.rows_of in Hlast. rewrite filter_app in Hlast.
      rewrite (filter_cons _ new), filter_nil in Hlast.
      rewrite decide_True in Hlast by reflexivity.
      rewrite last_snoc in Hlast. injection Hlast as <-.
      injection Hcell as <-. discriminate Hint. }
  destruct (Entry.db_io e); exact Hgoal.
Qed.

Lemma new_entry_is_not_paid_witness :
  Exit.is_payment_complete
    (Some [["Plate Number"; "Payment Status"; "Timestamp"; "Payment Timestamp"];
           ["RAB123C"; "1"; "2024-01-01 08:00:00"; "2024-01-01 09:00:00"];
           ["RAB123C"; "0"; "2024-01-01 10:00:00"; ""]])
    "RAB123C" = false.
Proof.
  exact (new_entry_is_not_paid Clock.strftime
           {| Entry.now := 1704103200000000; Entry.current_time := 0;
              Entry.log_terminated := true; Entry.csv_append_ok := true; Entry.db_io := Payment.DbOk |}
           {| Payment.log :=
                Some [["Plate Number"; "Payment Status"; "Timestamp"; "Payment Timestamp"];
                      ["RAB123C"; "1"; "2024-01-01 08:00:00"; "2024-01-01 09:00:00"]];
              Payment.db := [] |}
           "RAB123C" eq_refl eq_refl).
Defined.

(** Without the terminator the appended bytes continue the last line: after
    a paid row of the plate the new cells are glued onto that row, and the
    exit check still reads the paid status. *)
Example entry_glued_onto_unterminated_line :
  let e := {| Entry.now := 1704189600000000; Entry.current_time := 0;
              Entry.log_terminated := false; Entry.csv_append_ok := true;
              Entry.db_io := Payment.DbOk |} in
  let w := {| Payment.log :=
                Some [["Plate Number"; "Payment Status"; "Timestamp"; "Payment Timestamp"];
                      ["RAB123C"; "1"; "2024-01-01 08:00:00"; "2024-01-01 09:00:00"]];
              Payment.db := [] |} in
  let w1 := (Entry.log_vehicle_entry Clock.strftime e w "RAB123C").1 in
  Payment.log w1
  = Some [["Plate Number"; "Payment Status"; "Timestamp"; "Payment Timestamp"];
          ["RAB123C"; "1"; "2024-01-01 08:00:00"; "2024-01-01 09:00:00RAB123C";
           "0"; "2024-01-02 10:00:00"; ""]]
  /\ Exit.is_payment_complete (Payment.log w1) "RAB123C" = true.
Proof. vm_compute. split; reflexivity. Qed.

(** ** The RFID link *)

Section LinkFacts.

Lemma await_update_passed_over start ev rest :
  LinkProps.passed_over start ev ->
  Link.await_update start (ev :: rest) = Link.await_update start rest.
Proof.
  destruct ev as [now text]. intros (Ht & raw & Hraw & H1 & H2 & H3 & H4).
  simpl in Ht, Hraw. subst text. cbn [Link.await_update].
  rewrite (proj2 (Z.ltb_lt _ _) Ht). cbv zeta. rewrite H1, H2, H3, H4. reflexivity.
Qed.

Lemma await_update_true start evs :
  Link.await_update start evs = true <->
  exists pre now raw post,
    evs = pre ++ (now, Some raw) :: post
    /\ Forall (LinkProps.passed_over start) pre
    /\ now - start < Link.WRITE_TIMEOUT
    /\ Py.contains "[UPDATED]" (Py.strip raw) = true.
Proof.
  split.
  - induction evs as [|[now text] rest IH]; [discriminate|].
    cbn [Link.await_update].
    destruct (now - start <? Link.WRITE_TIMEOUT) eqn:T; [|discriminate].
    apply Z.ltb_lt in T. destruct text as [raw|]; [|discriminate]. cbv zeta.
    destruct (Py.contains "[UPDATED]" (Py.strip raw)) eqn:U.
    + intros _. exists [], now, raw, rest. auto.
    + destruct (Py.contains "[ERROR]" (Py.strip raw)) eqn:E; [discriminate|].
      destruct (Py.contains "[DENIED]" (Py.strip raw)) eqn:D; [discriminate|].
      cbn [orb]. destruct (Py.contains "[TIMEOUT]" (Py.strip raw)) eqn:O; [discriminate|].
      intros H. destruct (IH H) as (pre & now' & raw' & post & -> & Hpre & Ht & Hu).
      exists ((now, Some raw) :: pre), now', raw', post.
      split; [reflexivity|]. split; [|auto].
      constructor; [|exact Hpre]. split; [exact T|]. exists raw. auto.
  - intros (pre & now & raw & post & -> & Hpre & Ht & Hu).
    induction Hpre as [|ev pre Hev _ IH].
    + cbn [app Link.await_update]. rewrite (proj2 (Z.ltb_lt _ _) Ht). cbv zeta.
      rewrite Hu. reflexivity.
    + cbn [app]. rewrite await_update_passed_over by exact Hev. exact IH.
Qed.

Lemma poll_skipped start ev rest :
  LinkProps.skipped start ev ->
  Link.poll start None (ev :: rest) = Link.poll start None rest.
Proof.
  destruct ev as [now text]. intros (Ht & raw & Hraw & H).
  simpl in Ht, Hraw. subst text. cbn [Link.poll].
  rewrite (proj2 (Z.ltb_lt _ _) Ht). cbv zeta.
  destruct H as [H|H]; [rewrite H; reflexivity|].
  rewrite H. destruct (_ && _); reflexivity.
Qed.

Lemma poll_not_ready start plate balance ready_time ev rest :
  LinkProps.not_ready ready_time ev ->
  Link.poll start (Some (plate, balance, ready_time)) (ev :: rest)
  = Link.poll start (Some (plate, balance, ready_time)) rest.
Proof.
  destruct ev as [now text]. intros (Ht & raw & Hraw & H).
  simpl in Ht, Hraw. subst text. cbn [Link.poll].
  rewrite (proj2 (Z.ltb_lt _ _) Ht). rewrite decide_False by exact H. reflexivity.
Qed.

End LinkFacts.

(** X7: [write_rfid_card] reports success exactly when a response containing
    [[UPDATED]] is read within the 5 s timeout and every response read before
    it arrived in time, decoded, and contained none of [[UPDATED]],
    [[ERROR]], [[DENIED]], [[TIMEOUT]].  No response, a late response, bytes
    that do not decode, or an earlier error marker make it a failure. *)
Theorem write_acknowledged_iff (reply : Z * list Link.event) :
  Payment.write_rfid_card reply = true <->
  exists pre now raw post,
    reply.2 = pre ++ (now, Some raw) :: post
    /\ Forall (LinkProps.passed_over reply.1) pre
    /\ now - reply.1 < Link.WRITE_TIMEOUT
    /\ Py.contains "[UPDATED]" (Py.strip raw) = true.
Proof. unfold Payment.write_rfid_card. apply await_update_true. Qed.

Lemma write_acknowledged_iff_witness :
  Payment.write_rfid_card
    (0, [(10, Some "writing block 4"); (20, Some "[UPDATED] new balance 500");
         (30, Some "[ERROR] late")]) = true.
Proof.
  apply (proj2 (write_acknowledged_iff _)).
  exists [(10, Some "writing block 4")], 20, "[UPDATED] new balance 500",
         [(30, Some "[ERROR] late")].
  split; [reflexivity|]. split; [|split; reflexivity].
  constructor; [|constructor]. split; [reflexivity|].
  eexists. repeat split; reflexivity.
Defined.

(** X8: [read_rfid_card] does accept a tag when, on an open port, the lines read
    before the card line are within the timeout and are skipped (no comma, a
    leading bracket, or a balance that does not parse), the card line arrives
    within 5 s and parses, the lines read after it are within 2 s of it and
    are not [READY], and then a [READY] line is read within these 2 s. *)
Theorem read_accepts_card_then_ready
    (start : Z) (skip : list Link.event) (now : Z) (raw : string)
    (plate : string) (balance : Z) (mid : list Link.event)
    (now' : Z) (raw' : string) (post : list Link.event) :
  Forall (LinkProps.skipped start) skip ->
  now - start < Link.CARD_TIMEOUT ->
  Py.contains "," (Py.strip raw) = true ->
  Py.startswith "[" (Py.strip raw) = false ->
  Link.parse_card (Py.strip raw) = Some (plate, balance) ->
  Forall (LinkProps.not_ready now) mid ->
  now' - now < Link.READY_TIMEOUT ->
  Py.strip raw' = "READY" ->
  Link.read_rfid_card true start
    (skip ++ (now, Some raw) :: mid ++ (now', Some raw') :: post)
  = Some (plate, balance).
Proof.
  intros Hskip Ht Hc Hb Hp Hmid Ht' Hr. unfold Link.read_rfid_card.
  induction Hskip as [|ev skip Hev _ IH].
  - cbn [app Link.poll]. rewrite (proj2 (Z.ltb_lt _ _) Ht). cbv zeta.
    rewrite Hc, Hb, Hp. cbn [negb andb].
    induction Hmid as [|ev mid Hev _ IH].
    + cbn [app Link.poll]. rewrite (proj2 (Z.ltb_lt _ _) Ht').
      rewrite decide_True by exact Hr. reflexivity.
    + cbn [app]. rewrite poll_not_ready by exact Hev. exact IH.
  - cbn [app]. rewrite poll_skipped by exact Hev. exact IH.
Qed.

Lemma read_accepts_card_then_ready_witness :
  Link.read_rfid_card true 0
    ([(10, Some "[INFO] place card"); (20, Some "RAB123C,abc")]
     ++ (120, Some "RAB123C, 1000") :: [(130, Some "noise")]
     ++ (150, Some " READY") :: [])
  = Some ("RAB123C", 1000).
Proof.
  apply read_accepts_card_then_ready; try reflexivity.
  - constructor; [|constructor; [|constructor]].
    + split; [reflexivity|]. eexists. split; [reflexivity|]. left. reflexivity.
    + split; [reflexivity|]. eexists. split; [reflexivity|]. right. reflexivity.
  - constructor; [|constructor]. split; [reflexivity|].
    eexists. split; [reflexivity|]. discriminate.
Defined.

(** ** The dashboard's fee *)

Section FeeMore.

Lemma round_up_hours_nonpos d : d <= 0 -> Fee.round_up_hours d <= 1.
Proof.
  intros Hd. unfold Fee.round_up_hours.
  assert (Z.quot d Fee.hour <= 0) as Hq.
  { replace d with (- - d) by lia. rewrite Z.quot_opp_l by (unfold Fee.hour; lia).
    pose proof (Z.quot_pos (- d) Fee.hour ltac:(lia) ltac:(unfold Fee.hour; lia)). lia. }
  destruct (0 <? d mod Fee.hour); lia.
Qed.

Lemma ceil_hours_nonpos d : d <= 0 -> Fee.ceil_hours d <= 0.
Proof.
  intros Hd. unfold Fee.ceil_hours.
  assert ((d + Fee.hour - 1) / Fee.hour <= (Fee.hour - 1) / Fee.hour) as H
    by (apply Z.div_le_mono; unfold Fee.hour; lia).
  rewrite (Z.div_small (Fee.hour - 1)) in H by (unfold Fee.hour; lia). exact H.
Qed.

Lemma billable_hours d : Z.max 1 (Fee.round_up_hours d) = Z.max 1 (Fee.ceil_hours d).
Proof.
  destruct (Z.le_gt_cases d 0) as [Hd|Hd].
  - pose proof (round_up_hours_nonpos d Hd). pose proof (ceil_hours_nonpos d Hd). lia.
  - rewrite round_up_hours_ceil by lia. reflexivity.
Qed.

End FeeMore.

(** X9: [calculate_payment_amount] is [None] exactly without a payment time.
    With one, for two times at most a hundred years apart (where the double
    precision of the source is exact enough), it is 500 times the number of
    started hours, at least one, also when the payment time is not after the
    entry time: it is at least 500, a multiple of 500, and does not decrease
    when the payment time grows within that range. *)
Theorem calculate_payment_amount_total (entry_time : Fee.datetime) :
  Fee.calculate_payment_amount entry_time None = None
  /\ forall p,
       Z.abs (p - entry_time) <= FeeProps.EXACT_RANGE ->
       Fee.calculate_payment_amount entry_time (Some p)
       = Some (500 * Z.max 1 (Fee.ceil_hours (p - entry_time)))
       /\ forall p' a a',
            Z.abs (p' - entry_time) <= FeeProps.EXACT_RANGE ->
            p <= p' ->
            Fee.calculate_payment_amount entry_time (Some p) = Some a ->
            Fee.calculate_payment_amount entry_time (Some p') = Some a' ->
            500 <= a <= a' /\ a mod 500 = 0.
Proof.
  split; [reflexivity|]. intros p _.
  assert (forall q, Fee.calculate_payment_amount entry_time (Some q)
                    = Some (500 * Z.max 1 (Fee.ceil_hours (q - entry_time)))) as Hcalc.
  { intros q. unfold Fee.calculate_payment_amount. rewrite billable_hours.
    f_equal. lia. }
  split; [apply Hcalc|].
  intros p' a a' _ Hle. rewrite !Hcalc. intros [= <-] [= <-].
  pose proof (ceil_hours_mono (p - entry_time) (p' - entry_time) ltac:(lia)).
  split; [lia|]. rewrite Z.mul_comm. apply Z.mod_mul. lia.
Qed.

Lemma calculate_payment_amount_total_witness :
  500 <= 500 <= 1000 /\ 500 mod 500 = 0.
Proof.
  apply (proj2 (proj2 (calculate_payment_amount_total 7200000000) 0
                  ltac:(vm_compute; discriminate))
           10800000001 500 1000);
    [vm_compute; discriminate | lia | reflexivity | reflexivity].
Defined.

(** ** The reconciler, further *)

Section ReconcilerMore.

Variable strptime : string -> option Fee.datetime.

Lemma merge_rows_raises fieldnames rows r e db :
  r ∈ rows -> r <> [] ->
  Reconciler.parse_row strptime fieldnames r = Raise e ->
  exists e', Reconciler.merge_rows strptime fieldnames rows db = Raise e'.
Proof.
  intros Hin Hne Hparse. revert db.
  induction rows as [|x rows IH]; intros db; [inversion Hin|].
  apply elem_of_cons in Hin as [<-|Hin].
  - cbn [Reconciler.merge_rows]. destruct r as [|c r]; [congruence|].
    rewrite merge_row_two_steps, Hparse. cbn [mbind res_bind]. eauto.
  - cbn [Reconciler.merge_rows]. destruct x as [|c x]; [apply IH, Hin|].
    destruct (Reconciler.merge_row strptime fieldnames (c :: x) db) as [[db1 m1]|e1];
      cbn [mbind res_bind]; [|eauto].
    destruct (IH Hin db1) as [e' ->]. cbn [mbind res_bind]. eauto.
Qed.

Lemma next_id_fresh (t : list Db.vehicle_log) s : s ∈ t -> Db.id s < Db.next_id t.
Proof.
  unfold Db.next_id. induction t as [|x t IH]; [inversion 1|].
  intros H. rewrite fmap_cons. cbn [fold_right].
  apply elem_of_cons in H as [->|H]; [lia|]. specialize (IH H). lia.
Qed.

Lemma update_payment_id i st tm a s :
  Db.id (Reconciler.update_payment i st tm a s) = Db.id s.
Proof. unfold Reconciler.update_payment. destruct (_ =? _); reflexivity. Qed.

Lemma same_session_update_payment i st tm a s :
  ReconcilerProps.same_session s (Reconciler.update_payment i st tm a s).
Proof.
  unfold ReconcilerProps.same_session, Reconciler.update_payment.
  destruct (_ =? _); simpl; auto.
Qed.

Lemma keeps_refl t : ReconcilerProps.keeps t t.
Proof.
  intros s Hs. exists s. split; [assumption|].
  split; [unfold ReconcilerProps.same_session; auto | reflexivity].
Qed.

Lemma keeps_trans t1 t2 t3 :
  ReconcilerProps.keeps t1 t2 -> ReconcilerProps.keeps t2 t3 -> ReconcilerProps.keeps t1 t3.
Proof.
  intros H12 H23 s Hs.
  destruct (H12 s Hs) as (s' & Hs' & (A1 & A2 & A3 & A4 & A5) & Hsame).
  destruct (H23 s' Hs') as (s'' & Hs'' & (B1 & B2 & B3 & B4 & B5) & Hsame').
  exists s''. split; [assumption|]. split.
  - unfold ReconcilerProps.same_session. repeat split; congruence.
  - intros Hpaid. specialize (Hsame Hpaid). subst s'. apply Hsame', Hpaid.
Qed.

(** One record of the log keeps the sessions and the uniqueness of the ids. *)
Lemma apply_record_keeps rec db db' ms :
  NoDup (Db.id <$> db) ->
  Reconciler.apply_record rec db = Ok (db', ms) ->
  ReconcilerProps.keeps db db' /\ NoDup (Db.id <$> db') /\ (length db <= length db')%nat.
Proof.
  intros Hnd. unfold Reconciler.apply_record.
  destruct (Db.fetchone _ _ db) as [ex|] eqn:F.
  - destruct ((_ =? 1) && _) eqn:C; intros [= <- <-];
      [|split; [apply keeps_refl | split; [assumption | lia]]].
    apply andb_true_iff in C as [_ C]. apply bool_decide_eq_true_1 in C.
    apply fetchone_Some in F as (Hex & _ & _).
    split; [|split].
    + intros s Hs. exists (Reconciler.update_payment (Db.id ex) (Reconciler.rec_status rec)
                             (Reconciler.rec_payment_time rec) (Reconciler.rec_amount rec) s).
      split; [apply list_elem_of_fmap; eauto|].
      split; [apply same_session_update_payment|].
      intros Hpaid. unfold Reconciler.update_payment.
      destruct (Db.id s =? Db.id ex) eqn:E; [|reflexivity].
      apply Z.eqb_eq in E. exfalso.
      apply list_elem_of_lookup in Hs as [i Hi]. apply list_elem_of_lookup in Hex as [j Hj].
      assert (i = j) as ->.
      { apply (NoDup_lookup (Db.id <$> db) i j (Db.id s)); [exact Hnd | |];
          rewrite list_lookup_fmap; [rewrite Hi | rewrite Hj]; simpl;
          [reflexivity | rewrite E; reflexivity]. }
      congruence.
    + rewrite <- list_fmap_compose.
      erewrite list_fmap_ext; [exact Hnd|].
      intros i s _. apply update_payment_id.
    + rewrite length_fmap. lia.
  - destruct (Reconciler.rec_plate rec) as [p|]; [|discriminate].
    intros [= <- <-]. split; [|split].
    + intros s Hs. exists s. split; [apply elem_of_app; left; assumption|].
      split; [unfold ReconcilerProps.same_session; auto | reflexivity].
    + rewrite fmap_app. apply NoDup_app. split; [assumption|].
      split; [|apply NoDup_singleton].
      intros i Hi Hi'. apply list_elem_of_singleton in Hi'. cbn [Db.id] in Hi'.
      apply list_elem_of_fmap in Hi as (s & -> & Hs).
      pose proof (next_id_fresh db s Hs). lia.
    + rewrite length_app. lia.
Qed.

Lemma merge_rows_keeps fieldnames rows db db' ms :
  NoDup (Db.id <$> db) ->
  Reconciler.merge_rows strptime fieldnames rows db = Ok (db', ms) ->
  ReconcilerProps.keeps db db' /\ NoDup (Db.id <$> db') /\ (length db <= length db')%nat.
Proof.
  revert db ms. induction rows as [|r rows IH]; intros db ms Hnd.
  - intros [= <- <-]. split; [apply keeps_refl | split; [assumption | lia]].
  - destruct r as [|c r]; [apply IH; assumption|].
    intros H. apply merge_rows_cons_Ok in H as (db1 & m1 & m2 & H1 & H2 & _); [|discriminate].
    apply merge_row_Ok in H1 as (rec & _ & H1).
    destruct (apply_record_keeps rec db db1 m1 Hnd H1) as (K1 & Hnd1 & L1).
    destruct (IH db1 m2 Hnd1 H2) as (K2 & Hnd2 & L2).
    split; [eapply keeps_trans; eassumption | split; [assumption | lia]].
Qed.

Lemma sync_keeps exists_ f db :
  NoDup (Db.id <$> db) ->
  ReconcilerProps.keeps db (Reconciler.sync_csv_to_db strptime exists_ f db).1
  /\ NoDup (Db.id <$> (Reconciler.sync_csv_to_db strptime exists_ f db).1)
  /\ (length db <= length (Reconciler.sync_csv_to_db strptime exists_ f db).1)%nat.
Proof.
  intros Hnd. unfold Reconciler.sync_csv_to_db.
  assert (ReconcilerProps.keeps db db /\ NoDup (Db.id <$> db) /\ (length db <= length db)%nat)
    as Hsame by (split; [apply keeps_refl | split; [assumption | lia]]).
  destruct exists_; [|exact Hsame].
  destruct f as [[|fieldnames data]|]; cbn [open_log mbind res_bind fst]; try exact Hsame.
  destruct (Reconciler.merge_rows strptime fieldnames data db) as [[db1 ms]|e] eqn:E;
    cbn [fst]; [|exact Hsame].
  eapply merge_rows_keeps; eassumption.
Qed.

(** When every record has a plate, the loop does not raise. *)
Lemma merge_rows_total fieldnames rows db :
  Forall (fun r => r = [] \/ exists rec p,
              Reconciler.parse_row strptime fieldnames r = Ok rec
              /\ Reconciler.rec_plate rec = Some p) rows ->
  exists db' ms, Reconciler.merge_rows strptime fieldnames rows db = Ok (db', ms).
Proof.
  intros Hall. revert db. induction Hall as [|r rows Hr _ IH]; intros db; [simpl; eauto|].
  cbn [Reconciler.merge_rows]. destruct r as [|c r]; [apply IH|].
  destruct Hr as [Hr|(rec & p & Hp & Hplate)]; [discriminate|].
  rewrite merge_row_two_steps, Hp. cbn [mbind res_bind].
  assert (exists db1 m1, Reconciler.apply_record rec db = Ok (db1, m1)) as (db1 & m1 & ->).
  { unfold Reconciler.apply_record. rewrite Hplate.
    destruct (Db.fetchone _ _ db); [destruct (_ && _)|]; eauto. }
  cbn [mbind res_bind]. destruct (IH db1) as (db2 & m2 & ->).
  cbn [mbind res_bind]. eauto.
Qed.

End ReconcilerMore.

(** X10: One row of the log that cannot be read (a missing column, a timestamp or
    a status that does not parse) makes [sync_csv_to_db] roll everything
    back: the store is as before, also for the rows that could be read. *)
Theorem sync_csv_to_db_all_or_nothing
    (strptime : string -> option Fee.datetime)
    (fieldnames : row) (data : list row) (db : Db.table) (r : row) (e : exn) :
  r ∈ data -> r <> [] ->
  Reconciler.parse_row strptime fieldnames r = Raise e ->
  Reconciler.sync_csv_to_db strptime true (Some (fieldnames :: data)) db = (db, []).
Proof.
  intros Hin Hne Hparse. unfold Reconciler.sync_csv_to_db. cbn [open_log mbind res_bind].
  destruct (merge_rows_raises strptime fieldnames data r e db Hin Hne Hparse) as [e' ->].
  reflexivity.
Qed.

Lemma sync_csv_to_db_all_or_nothing_witness :
  Reconciler.sync_csv_to_db Clock.strptime true
    (Some [ReconcilerProps.HEADER;
           ["RAB123C"; "0"; "2024-01-01 10:00:00"; ""];
           ["RAX999Z"; "0"; "yesterday"; ""]]) []
  = ([], []).
Proof.
  apply (sync_csv_to_db_all_or_nothing Clock.strptime _ _ []
           ["RAX999Z"; "0"; "yesterday"; ""] ValueError).
  - right; left.
  - discriminate.
  - reflexivity.
Defined.

(** X11: [sync_csv_to_db] never deletes a session and never changes the id, plate,
    entry time, exit time or unauthorised flag of one; a session whose
    payment status is not 0 is left exactly as it is.  The ids stay distinct
    and the table does not shrink. *)
Theorem sync_csv_to_db_keeps_sessions
    (strptime : string -> option Fee.datetime) (exists_ : bool)
    (f : log_file) (db : Db.table) :
  NoDup (Db.id <$> db) ->
  let db' := (Reconciler.sync_csv_to_db strptime exists_ f db).1 in
  (forall s, s ∈ db ->
     exists s', s' ∈ db' /\ ReconcilerProps.same_session s s'
                /\ (Db.payment_status s <> Some 0 -> s' = s))
  /\ NoDup (Db.id <$> db')
  /\ (length db <= length db')%nat.
Proof. intros Hnd. exact (sync_keeps strptime exists_ f db Hnd). Qed.

Lemma sync_csv_to_db_keeps_sessions_witness :
  let paid := {| Db.id := 1; Db.plate_number := "RAB123C";
                 Db.entry_time := 1704103200000000; Db.exit_time := None;
                 Db.payment_status := Some 1; Db.payment_amount := Some 1500;
                 Db.payment_time := Some 1704110000000000;
                 Db.is_unauthorized_exit := Some 0 |} in
  paid ∈ (Reconciler.sync_csv_to_db Clock.strptime true
            (Some [ReconcilerProps.HEADER;
                   ["RAB123C"; "1"; "2024-01-01 10:00:00"; "2024-01-01 10:05:00"]])
            [paid]).1.
Proof.
  intros paid.
  destruct (proj1 (sync_csv_to_db_keeps_sessions Clock.strptime true
                     (Some [ReconcilerProps.HEADER;
                            ["RAB123C"; "1"; "2024-01-01 10:00:00"; "2024-01-01 10:05:00"]])
                     [paid] ltac:(apply NoDup_singleton)) paid ltac:(left))
    as (s' & Hin & _ & Hsame).
  rewrite (Hsame ltac:(discriminate)) in Hin. exact Hin.
Defined.

(** X12: When every record of the log can be read and has a plate,
    [sync_csv_to_db] goes through, and afterwards the store has a session for
    every record, with its plate and entry time; where the log shows the
    record paid (status 1), the first such session is not unpaid. *)
Theorem sync_csv_to_db_covers_log
    (strptime : string -> option Fee.datetime)
    (fieldnames : row) (data : list row) (db : Db.table) :
  Forall (fun r => r = [] \/ exists rec p,
              Reconciler.parse_row strptime fieldnames r = Ok rec
              /\ Reconciler.rec_plate rec = Some p) data ->
  let db' := (Reconciler.sync_csv_to_db strptime true (Some (fieldnames :: data)) db).1 in
  forall r rec,
    r ∈ data -> r <> [] -> Reconciler.parse_row strptime fieldnames r = Ok rec ->
    exists s,
      Db.fetchone (Reconciler.rec_plate rec) (Reconciler.rec_entry rec) db' = Some s
      /\ s ∈ db'
      /\ Reconciler.rec_plate rec = Some (Db.plate_number s)
      /\ Db.entry_time s = Reconciler.rec_entry rec
      /\ (Reconciler.rec_status rec = 1 -> Db.payment_status s <> Some 0).
Proof.
  intros Hall db' r rec Hin Hne Hparse. subst db'.
  unfold Reconciler.sync_csv_to_db. cbn [open_log mbind res_bind].
  destruct (merge_rows_total strptime fieldnames data db Hall) as (db1 & ms & E).
  rewrite E. cbn [fst].
  pose proof (merge_rows_settles strptime fieldnames data db db1 ms E) as Hset.
  rewrite Forall_forall in Hset. destruct (Hset r Hin) as [->|(rec' & Hp & s & F & Hs)];
    [congruence|].
  rewrite Hparse in Hp. injection Hp as <-.
  exists s. split; [exact F|].
  destruct (fetchone_Some _ _ _ _ F) as (H1 & H2 & H3).
  repeat split; try assumption. intros H Hzero. apply Hs. auto.
Qed.

Lemma sync_csv_to_db_covers_log_witness :
  exists s,
    Db.fetchone (Some "RAB123C") 1704103200000000
      (Reconciler.sync_csv_to_db Clock.strptime true
         (Some [ReconcilerProps.HEADER;
                ["RAB123C"; "1"; "2024-01-01 10:00:00"; "2024-01-01 10:05:00"]]) []).1
    = Some s.
Proof.
  destruct (sync_csv_to_db_covers_log Clock.strptime ReconcilerProps.HEADER
              [["RAB123C"; "1"; "2024-01-01 10:00:00"; "2024-01-01 10:05:00"]] [])
    with (r := ["RAB123C"; "1"; "2024-01-01 10:00:00"; "2024-01-01 10:05:00"])
         (rec := {| Reconciler.rec_plate := Some "RAB123C";
                    Reconciler.rec_entry := 1704103200000000;
                    Reconciler.rec_status := 1;
                    Reconciler.rec_payment_time := Some 1704103500000000;
                    Reconciler.rec_amount := Some 500 |})
    as (s & F & _).
  - constructor; [|constructor]. right. do 2 eexists. split; reflexivity.
  - left.
  - discriminate.
  - reflexivity.
  - exists s. exact F.
Defined.

(** ** Instances for the exit lane *)

Lemma log_vehicle_exit_closes_latest_session_witness :
  let s1 := {| Db.id := 1; Db.plate_number := "RAB123C";
               Db.entry_time := 1704103200000000; Db.exit_time := None;
               Db.payment_status := Some 1; Db.payment_amount := Some 500;
               Db.payment_time := Some 1704103500000000;
               Db.is_unauthorized_exit := Some 0 |} in
  let s2 := {| Db.id := 2; Db.plate_number := "RAB123C";
               Db.entry_time := 1704189600000000; Db.exit_time := None;
               Db.payment_status := Some 0; Db.payment_amount := None;
               Db.payment_time := None;
               Db.is_unauthorized_exit := Some 0 |} in
  (ExitLane.log_vehicle_exit Payment.DbOk 1704193200000000 [s1; s2] "RAB123C" true).2 = true
  /\ s1 ∈ (ExitLane.log_vehicle_exit Payment.DbOk 1704193200000000 [s1; s2] "RAB123C" true).1.
Proof.
  intros s1 s2.
  assert (NoDup (Db.id <$> [s1; s2])) as Hnd.
  { cbn [fmap list_fmap Db.id s1 s2]. apply NoDup_cons. split.
    - intros H. apply list_elem_of_singleton in H. discriminate.
    - apply NoDup_singleton. }
  pose proof (log_vehicle_exit_closes_latest_session Payment.DbOk 1704193200000000
                [s1; s2] "RAB123C" true Hnd) as (Hres & _ & Hclosed).
  assert ((ExitLane.log_vehicle_exit Payment.DbOk 1704193200000000 [s1; s2] "RAB123C" true).2
          = true) as Hok.
  { apply Hres. split; [reflexivity | vm_compute; lia]. }
  split; [exact Hok|].
  destruct (Hclosed Hok) as (entry & Hin & _ & Hmax & _ & Hrest & _).
  apply Hrest; [left|].
  intros Heq. specialize (Hmax s2 ltac:(right; left) eq_refl).
  rewrite <- Heq in Hmax. cbn in Hmax. lia.
Defined.

Lemma exit_attempt_uses_up_open_session_witness :
  let s := {| Db.id := 1; Db.plate_number := "RAB123C";
              Db.entry_time := 1704103200000000; Db.exit_time := None;
              Db.payment_status := Some 0; Db.payment_amount := None;
              Db.payment_time := None;
              Db.is_unauthorized_exit := Some 0 |} in
  let unpaid := Some [ReconcilerProps.HEADER;
                      ["RAB123C"; "0"; "2024-01-01 10:00:00"; ""]] in
  let paid := Some [ReconcilerProps.HEADER;
                    ["RAB123C"; "1"; "2024-01-01 10:00:00"; "2024-01-01 11:30:00"]] in
  let denied := ExitLane.on_plate true Payment.DbOk 1704106800000000
                  {| Payment.log := unpaid; Payment.db := [s] |} "RAB123C" in
  denied.2 = [Sent "2"]
  /\ Exit.is_payment_complete paid "RAB123C" = true
  /\ Sent "1" ∉ (ExitLane.on_plate true Payment.DbOk 1704108700000000
                   {| Payment.log := paid; Payment.db := Payment.db denied.1 |} "RAB123C").2.
Proof.
  intros s unpaid paid denied.
  split; [reflexivity|]. split; [reflexivity|].
  assert (NoDup (Db.id <$> [s])) as Hnd by apply NoDup_singleton.
  exact (proj2 (exit_attempt_uses_up_open_session true 1704106800000000
                  {| Payment.log := unpaid; Payment.db := [s] |} "RAB123C" Hnd eq_refl)
           true Payment.DbOk 1704108700000000 paid).
Defined.

Lemma exit_gate_opens_only_for_paid_open_session_witness :
  let s := {| Db.id := 1; Db.plate_number := "RAB123C";
              Db.entry_time := 1704103200000000; Db.exit_time := None;
              Db.payment_status := Some 1; Db.payment_amount := Some 1000;
              Db.payment_time := Some 1704108600000000;
              Db.is_unauthorized_exit := Some 0 |} in
  let paid := Some [ReconcilerProps.HEADER;
                    ["RAB123C"; "1"; "2024-01-01 10:00:00"; "2024-01-01 11:30:00"]] in
  (ExitLane.on_plate true Payment.DbOk 1704108700000000
     {| Payment.log := paid; Payment.db := [s] |} "RAB123C").2 = [Sent "1"; Sent "0"].
Proof.
  intros s paid.
  destruct (exit_gate_opens_only_for_paid_open_session true Payment.DbOk 1704108700000000
              {| Payment.log := paid; Payment.db := [s] |} "RAB123C")
    as (_ & Hopen & Hseq & _).
  apply Hseq, Hopen. repeat split. vm_compute. lia.
Defined.

(** ** The settlement, further *)

Section SettlementMore.

Variable strptime : string -> option Fee.datetime.
Variable strftime : Fee.datetime -> string.

#[local] Abbreviation chargeable := (PaymentProps.chargeable strptime).
#[local] Abbreviation settle_row := (PaymentProps.settle_row strptime).
#[local] Abbreviation picked := (PaymentProps.picked strptime).

Lemma picked_times_cons plate (cells : list string) rows :
  PaymentProps.picked_times strptime plate (cells :: rows)
  = match (if chargeable plate cells then cells !! 2%nat ≫= strptime else None) with
    | Some t => t :: PaymentProps.picked_times strptime plate rows
    | None => PaymentProps.picked_times strptime plate rows
    end.
Proof. reflexivity. Qed.

(** The scan on well-formed rows: what it finds, and which rows it picks. *)
Lemma scan_picked plate now ncols refs i found total entries (h : list (list string)) :
  (3 <= ncols)%nat ->
  Forall (fun r => Payment.well_formed ncols (Payment.deref h r)) refs ->
  exists entries',
    Payment.scan strptime plate now refs i (found, total, entries) h
    = (h, Ok (found || existsb (Payment.unpaid_for plate) (Payment.deref h <$> refs),
              total + Payment.fees_due strptime plate now (Payment.deref h <$> refs),
              entries'))
    /\ PaymentProps.index_of <$> entries'
       = (PaymentProps.index_of <$> entries) ++ picked plate (Payment.deref h <$> refs) i
    /\ PaymentProps.time_of <$> entries'
       = (PaymentProps.time_of <$> entries)
         ++ PaymentProps.picked_times strptime plate (Payment.deref h <$> refs).
Proof.
  intros Hn. revert i found total entries.
  induction refs as [|r refs IH]; intros i found total entries Hall.
  - exists entries. simpl. rewrite orb_false_r, Z.add_0_r, !app_nil_r. auto.
  - apply Forall_cons in Hall as [(Hlen & c0 & Hc0 & Hne) Hall].
    destruct (lookup_lt_is_Some_2 (Payment.deref h r) 1%nat ltac:(lia)) as [c1 Hc1].
    destruct (lookup_lt_is_Some_2 (Payment.deref h r) 2%nat ltac:(lia)) as [c2 Hc2].
    assert (Payment.unpaid_for plate (Payment.deref h r)
            = bool_decide (c0 = plate) && bool_decide (c1 = "0")) as Hun.
    { unfold Payment.unpaid_for. rewrite Hc0, Hc1.
      f_equal; apply bool_decide_ext; split; congruence. }
    assert (Payment.deref h r !! 2%nat ≫= strptime = strptime c2) as Ht
      by (rewrite Hc2; reflexivity).
    assert (chargeable plate (Payment.deref h r)
            = bool_decide (c0 = plate) && bool_decide (c1 = "0")
              && bool_decide (is_Some (strptime c2))) as Hch
      by (unfold PaymentProps.chargeable; rewrite Hun, Ht; reflexivity).
    cbn [Payment.scan]. rewrite fmap_cons, fees_due_cons, picked_times_cons.
    cbn [existsb PaymentProps.picked].
    rewrite !Hch. unfold Payment.fee_of at 1. rewrite Hun, Ht.
    unfold mbind, Payment.M_bind, Payment.get_row, Payment.lift, item.
    cbn beta iota. rewrite Hc0.
    destruct (decide (c0 = plate)) as [->|Hp].
    + rewrite !bool_decide_eq_true_2 by reflexivity. cbn [andb]. rewrite Hc1.
      destruct (decide (c1 = "0")) as [->|H0].
      * rewrite !bool_decide_eq_true_2 by reflexivity.
        cbn beta iota. rewrite Hc2. cbn beta iota. destruct (strptime c2) as [t|].
        -- destruct (IH (S i) true (total + Fee.hours_spent t now * Fee.RATE_PER_HOUR)
                       (entries ++ [(i, Fee.hours_spent t now * Fee.RATE_PER_HOUR,
                                     Fee.hours_spent t now, t)]) Hall)
             as (en & -> & Hidx & Htm).
           exists en. rewrite orb_true_r. cbn [orb andb]. unfold Fee.amount_due.
           rewrite Z.add_assoc. split; [reflexivity|].
           rewrite Hidx, Htm, !fmap_app, <- !app_assoc.
           rewrite bool_decide_eq_true_2 by eauto. split; reflexivity.
        -- destruct (IH (S i) true total entries Hall) as (en & -> & Hidx & Htm).
           exists en. rewrite orb_true_r. cbn [orb andb]. rewrite Z.add_0_l.
           split; [reflexivity|]. rewrite Hidx, Htm.
           rewrite bool_decide_eq_false_2 by (intros [? ?]; discriminate).
           split; reflexivity.
      * rewrite !bool_decide_eq_false_2 by congruence. cbn beta iota.
        destruct (IH (S i) found total entries Hall) as (en & -> & Hidx & Htm).
        exists en. cbn [orb andb]. auto.
    + rewrite !bool_decide_eq_false_2 by congruence. cbn [andb]. cbn beta iota.
      destruct (IH (S i) found total entries Hall) as (en & -> & Hidx & Htm).
      exists en. cbn [orb andb]. auto.
Qed.

Lemma picked_spec plate rows i k :
  k ∈ picked plate rows i <->
  exists j cells, k = (i + j)%nat /\ rows !! j = Some cells /\ chargeable plate cells = true.
Proof.
  revert i. induction rows as [|c rows IH]; intros i; cbn [PaymentProps.picked].
  - split; [intros H; inversion H | intros (j & cells & _ & H & _); discriminate].
  - rewrite elem_of_app, IH. split.
    + intros [H|(j & cells & -> & Hj & Hc)].
      * destruct (chargeable plate c) eqn:E; [|inversion H].
        apply list_elem_of_singleton in H as ->.
        exists 0%nat, c. split; [lia | split; [reflexivity | exact E]].
      * exists (S j), cells. split; [lia | split; assumption].
    + intros (j & cells & -> & Hj & Hc). destruct j as [|j].
      * left. injection Hj as ->. rewrite Hc. rewrite Nat.add_0_r. left.
      * right. exists j, cells. split; [lia | split; assumption].
Qed.

(** Marking the entries of [entries_to_update], when every index is in
    range and the rows have four cells. *)
Lemma mark_run stamp n entries (h : list (list string)) :
  Forall (fun x => (PaymentProps.index_of x < n)%nat) entries ->
  (forall r, (1 <= r <= n)%nat -> (4 <= length (Payment.deref h r))%nat) ->
  Payment.mark stamp (seq 1 n) entries h
  = (PaymentProps.mark_heap stamp ((fun x => S (PaymentProps.index_of x)) <$> entries) h,
     Ok ()).
Proof.
  intros Hidx. revert h. induction Hidx as [|[[[i a] hrs] t] entries Hi _ IH]; intros h Hlen.
  - reflexivity.
  - cbn [Payment.mark]. unfold PaymentProps.index_of in Hi. cbn [fst] in Hi.
    unfold mbind, Payment.M_bind, Payment.lift, item.
    rewrite lookup_seq_lt by exact Hi. cbn beta iota.
    pose proof (Hlen (S i) ltac:(lia)) as H4.
    pose proof (deref_length_lt h (S i) 4 ltac:(lia) H4) as Hin.
    unfold Payment.set_cell.
    replace (1 <? length (Payment.deref h (1 + i)))%nat with true
      by (symmetry; apply Nat.ltb_lt; simpl; lia).
    cbn beta iota.
    rewrite deref_insert by exact Hin. rewrite decide_True by reflexivity.
    rewrite length_insert.
    replace (3 <? length (Payment.deref h (1 + i)))%nat with true
      by (symmetry; apply Nat.ltb_lt; simpl; lia).
    cbn beta iota. rewrite list_insert_insert_eq.
    rewrite IH.
    + reflexivity.
    + intros r Hr. rewrite deref_insert by exact Hin.
      destruct (decide (r = (1 + i)%nat)); [|apply Hlen, Hr].
      rewrite !length_insert. exact H4.
Qed.

Lemma well_formed_refs (header : list string) data :
  Forall (Payment.well_formed (length header)) data ->
  Forall (fun r => Payment.well_formed (length header) (Payment.deref (header :: data) r))
         (seq 1 (length data)).
Proof.
  intros Hall.
  assert (Forall (Payment.well_formed (length header))
                 (Payment.deref (header :: data) <$> seq 1 (length data))) as H
    by (rewrite deref_tail; exact Hall).
  exact (proj1 (Forall_fmap _ _ _) H).
Qed.

Lemma prepare_well_formed plate now (header : list string) data :
  (3 <= length header)%nat ->
  Forall (Payment.well_formed (length header)) data ->
  exists entries,
    Payment.prepare strptime plate now (length (header :: data)) (header :: data)
    = (header :: data,
       Ok (seq 1 (length data),
           (existsb (Payment.unpaid_for plate) data,
            Payment.fees_due strptime plate now data, entries)))
    /\ PaymentProps.index_of <$> entries = picked plate data 0
    /\ PaymentProps.time_of <$> entries = PaymentProps.picked_times strptime plate data.
Proof.
  intros Hcols Hall. pose proof (well_formed_refs header data Hall) as Hrefs.
  unfold Payment.prepare, mbind, Payment.M_bind, Payment.get_row.
  cbn [length]. replace (S (length data) - 1)%nat with (length data) by lia.
  change (Payment.deref (header :: data) 0) with header.
  rewrite validate_well_formed by exact Hrefs. cbn [app].
  destruct (scan_picked plate now (length header) (seq 1 (length data)) 0 false 0 []
              (header :: data) Hcols Hrefs) as (en & -> & Hidx & Htm).
  rewrite deref_tail in *. cbn [orb]. rewrite Z.add_0_l. unfold mret, Payment.M_ret.
  exists en. split; [reflexivity | split; [exact Hidx | exact Htm]].
Qed.

(** The rows written back after the marking. *)
Lemma marked_content plate stamp (header : list string) data entries :
  (4 <= length header)%nat ->
  Forall (Payment.well_formed (length header)) data ->
  PaymentProps.index_of <$> entries = picked plate data 0 ->
  exists h1,
    Payment.mark stamp (seq 1 (length data)) entries (header :: data) = (h1, Ok ())
    /\ Payment.deref h1 0 :: (Payment.deref h1 <$> seq 1 (length data))
       = header :: (settle_row plate stamp <$> data).
Proof.
  intros Hcols Hall Hidx.
  assert (forall k, k ∈ PaymentProps.index_of <$> entries <->
                    exists cells, data !! k = Some cells /\ chargeable plate cells = true)
    as Hpick.
  { intros k. rewrite Hidx, picked_spec. split.
    - intros (j & cells & -> & H1 & H2). eauto.
    - intros (cells & H1 & H2). exists k, cells. auto. }
  assert (forall r, (1 <= r <= length data)%nat ->
                    (4 <= length (Payment.deref (header :: data) r))%nat) as Hlen.
  { intros r Hr. destruct r as [|r]; [lia|].
    destruct (lookup_lt_is_Some_2 data r ltac:(lia)) as [cells Hc].
    rewrite Forall_forall in Hall.
    destruct (Hall cells (list_elem_of_lookup_2 _ _ _ Hc)) as [Hl _].
    assert (Payment.deref (header :: data) (S r) = cells) as ->
      by (unfold Payment.deref; simpl; rewrite Hc; reflexivity).
    lia. }
  eexists. split.
  - apply mark_run; [|exact Hlen].
    apply Forall_forall. intros x Hx.
    destruct (proj1 (Hpick (PaymentProps.index_of x))
                (list_elem_of_fmap_2 _ _ _ Hx)) as (cells & Hc & _).
    eapply lookup_lt_Some; eassumption.
  - assert (Forall (fun r => (r < length (header :: data))%nat)
                   ((fun x => S (PaymentProps.index_of x)) <$> entries)) as Hin.
    { apply Forall_fmap, Forall_forall. intros x Hx. cbn [length].
      destruct (proj1 (Hpick (PaymentProps.index_of x))
                  (list_elem_of_fmap_2 _ _ _ Hx)) as (cells & Hc & _).
      apply lookup_lt_Some in Hc. simpl. lia. }
    f_equal.
    + rewrite mark_heap_deref by exact Hin.
      rewrite bool_decide_eq_false_2; [reflexivity|].
      intros H. apply list_elem_of_fmap in H as (x & Hx & _). discriminate.
    + apply list_eq. intros k. rewrite !list_lookup_fmap.
      destruct (data !! k) as [cells|] eqn:Hc.
      * rewrite lookup_seq_lt by (eapply lookup_lt_Some; eassumption).
        cbn [fmap option_fmap option_map]. f_equal.
        rewrite mark_heap_deref by exact Hin.
        assert (Payment.deref (header :: data) (1 + k) = cells) as ->.
        { unfold Payment.deref. simpl. rewrite Hc. reflexivity. }
        unfold PaymentProps.settle_row.
        destruct (chargeable plate cells) eqn:Ech.
        -- rewrite bool_decide_eq_true_2; [reflexivity|].
           rewrite (list_fmap_compose PaymentProps.index_of S).
           apply list_elem_of_fmap_2, Hpick. eauto.
        -- rewrite bool_decide_eq_false_2; [reflexivity|].
           rewrite (list_fmap_compose PaymentProps.index_of S).
           intros H. apply list_elem_of_fmap in H as (k' & Hk & H).
           injection Hk as <-. apply Hpick in H as (cells' & Hc' & Hch). congruence.
      * rewrite lookup_seq_ge by (apply lookup_ge_None; assumption). reflexivity.
Qed.

Lemma tag_after_no_write balance trace :
  Forall (fun ev => PaymentProps.is_tag_write ev = false) trace ->
  Payment.tag_after balance trace = balance.
Proof.
  unfold Payment.tag_after. revert balance.
  induction trace as [|ev trace IH]; intros balance Hall; [reflexivity|].
  apply Forall_cons in Hall as [Hev Hall]. cbn [fold_left].
  destruct ev as [| v [|] | | | | |]; try discriminate; apply IH, Hall.
Qed.

Lemma db_events_no_write plate entries :
  Forall (fun ev => PaymentProps.is_tag_write ev = false) (Payment.db_events plate entries).
Proof.
  unfold Payment.db_events. apply Forall_fmap, Forall_forall.
  intros [[[i a] hrs] t] _. reflexivity.
Qed.

(** A run on a well-formed log in which the debit is acknowledged, the log
    is rewritten and the database is reached. *)
Lemma settlement_goes_through e w plate balance (header : list string) data :
  Payment.log w = Some (header :: data) ->
  (4 <= length header)%nat ->
  Forall (Payment.well_formed (length header)) data ->
  existsb (Payment.unpaid_for plate) data = true ->
  Payment.fees_due strptime plate (Payment.now e) data <= balance ->
  Payment.write_rfid_card (Payment.debit_reply e) = true ->
  Payment.log_write e = Payment.IoOk ->
  Payment.db_io e <> Payment.DbConnectFails ->
  let content := header :: (settle_row plate (strftime (Payment.now e)) <$> data) in
  let new_balance := balance - Payment.fees_due strptime plate (Payment.now e) data in
  exists entries rest,
    Payment.process_payment strptime strftime e false w plate balance
    = ({| Payment.log := Some content;
          Payment.db := match Payment.db_io e with
                        | Payment.DbOk =>
                            Payment.db_updates plate (Payment.now e) entries (Payment.db w)
                        | _ => Payment.db w
                        end |},
       Payment.TagWrite new_balance true :: Payment.LogWrite content Payment.IoOk :: rest)
    /\ Forall (fun ev => PaymentProps.is_tag_write ev = false) rest
    /\ PaymentProps.time_of <$> entries = PaymentProps.picked_times strptime plate data.
Proof.
  intros Hlog Hcols Hall Hfound Hbal Hack Hio Hdb content new_balance.
  unfold Payment.process_payment. rewrite Hlog.
  assert (data <> []) as Hne by (intros ->; discriminate).
  replace (length (header :: data) <? 2)%nat with false
    by (symmetry; apply Nat.ltb_ge; destruct data; [congruence | simpl; lia]).
  destruct (prepare_well_formed plate (Payment.now e) header data ltac:(lia) Hall)
    as (entries & -> & Hidx & Htm).
  rewrite Hfound. cbn [negb].
  replace (balance <? _) with false by (symmetry; apply Z.ltb_ge; exact Hbal).
  rewrite Hack. cbn [negb].
  destruct (marked_content plate (strftime (Payment.now e)) header data entries
              Hcols Hall Hidx) as (h1 & -> & Hcontent).
  cbv zeta. rewrite Hcontent, Hio. cbn [Payment.write_file Payment.log Payment.db app].
  exists entries.
  destruct (Payment.db_io e); [| congruence |].
  - eexists. split; [reflexivity|]. split; [|exact Htm].
    apply Forall_app. split; [apply db_events_no_write|].
    constructor; [reflexivity | constructor].
  - eexists. split; [reflexivity|]. split; [|exact Htm].
    constructor; [reflexivity | constructor].
Qed.

Lemma well_formed_settle_row n plate stamp cells :
  Payment.well_formed n cells -> Payment.well_formed n (settle_row plate stamp cells).
Proof.
  intros (Hlen & c0 & Hc0 & Hne). unfold PaymentProps.settle_row.
  destruct (chargeable plate cells); [|split; eauto].
  split; [rewrite mark_cells_length; exact Hlen|].
  exists c0. split; [|exact Hne].
  unfold PaymentProps.mark_cells. rewrite !list_lookup_insert_ne by lia. exact Hc0.
Qed.

Lemma settle_row_first plate stamp (cells : list string) :
  settle_row plate stamp cells !! 0%nat = cells !! 0%nat.
Proof.
  unfold PaymentProps.settle_row, PaymentProps.mark_cells.
  destruct (chargeable plate cells); [|reflexivity].
  rewrite !list_lookup_insert_ne by lia. reflexivity.
Qed.

Lemma settle_row_status plate stamp (cells : list string) :
  (2 <= length cells)%nat -> chargeable plate cells = true ->
  settle_row plate stamp cells !! 1%nat = Some "1".
Proof.
  intros Hlen Hch. unfold PaymentProps.settle_row, PaymentProps.mark_cells. rewrite Hch.
  rewrite list_lookup_insert_ne by lia.
  apply list_lookup_insert_eq. lia.
Qed.

Lemma settled_not_unpaid n plate stamp data :
  (2 <= n)%nat ->
  Forall (Payment.well_formed n) data ->
  Forall (fun cells => Payment.unpaid_for plate cells = true ->
                       chargeable plate cells = true) data ->
  existsb (Payment.unpaid_for plate) (settle_row plate stamp <$> data) = false.
Proof.
  intros Hn Hall Hread. induction data as [|cells data IH]; [reflexivity|].
  apply Forall_cons in Hall as [[Hlen _] Hall].
  apply Forall_cons in Hread as [Hc Hread].
  rewrite fmap_cons. cbn [existsb]. rewrite IH by assumption. rewrite orb_false_r.
  destruct (chargeable plate cells) eqn:Ech.
  - unfold Payment.unpaid_for.
    rewrite (settle_row_status plate stamp cells ltac:(lia) Ech).
    rewrite (bool_decide_eq_false_2 (Some "1" = Some "0")) by discriminate.
    apply andb_false_r.
  - unfold PaymentProps.settle_row. rewrite Ech.
    destruct (Payment.unpaid_for plate cells); [|reflexivity].
    specialize (Hc eq_refl). discriminate.
Qed.

Lemma rows_of_settled plate plate' stamp data :
  Exit.rows_of plate' (settle_row plate stamp <$> data)
  = settle_row plate stamp <$> Exit.rows_of plate' data.
Proof.
  unfold Exit.rows_of. induction data as [|cells data IH]; [reflexivity|].
  rewrite fmap_cons, !filter_cons, settle_row_first.
  destruct (decide (cells !! 0%nat = Some plate')); [rewrite fmap_cons|]; rewrite IH;
    reflexivity.
Qed.

End SettlementMore.

Lemma last_row_unpaid plate (data : list (list string)) cells :
  last (Exit.rows_of plate data) = Some cells ->
  Payment.unpaid_for plate cells = true ->
  existsb (Payment.unpaid_for plate) data = true.
Proof.
  intros Hlast Hun. apply existsb_exists. exists cells. split; [|exact Hun].
  apply list_elem_of_In. apply last_Some_elem_of in Hlast.
  unfold Exit.rows_of in Hlast. apply list_elem_of_filter in Hlast as [_ H]. exact H.
Qed.

Lemma well_formed_nonempty n (data : list (list string)) :
  Forall (Payment.well_formed n) data -> Forall (fun r => r <> []) data.
Proof.
  intros H. eapply Forall_impl; [exact H|].
  intros cells (_ & c0 & Hc0 & _) ->. discriminate.
Qed.

Lemma settled_log_passes_check
    (strptime : string -> option Fee.datetime) plate stamp (header : list string) data latest :
  (2 <= length header)%nat ->
  Forall (Payment.well_formed (length header)) data ->
  last (Exit.rows_of plate data) = Some latest ->
  PaymentProps.chargeable strptime plate latest = true ->
  Exit.is_payment_complete
    (Some (header :: (PaymentProps.settle_row strptime plate stamp <$> data))) plate = true.
Proof.
  intros Hcols Hall Hlast Hch. apply is_payment_complete_true.
  exists header, (PaymentProps.settle_row strptime plate stamp <$> data),
    (PaymentProps.settle_row strptime plate stamp latest), "1".
  split; [reflexivity|]. split; [|split; [|split]].
  - apply (well_formed_nonempty (length header)).
    apply Forall_fmap. eapply Forall_impl; [exact Hall|].
    intros cells. apply well_formed_settle_row.
  - rewrite rows_of_settled, fmap_last, Hlast. reflexivity.
  - apply settle_row_status; [|exact Hch].
    apply last_Some_elem_of in Hlast. unfold Exit.rows_of in Hlast.
    apply list_elem_of_filter in Hlast as [_ Hin].
    rewrite Forall_forall in Hall. destruct (Hall latest Hin) as [-> _]. lia.
  - vm_compute. reflexivity.
Qed.

(** X13: A settlement that goes through marks exactly the unpaid rows of the
    plate whose timestamp can be read: on a log whose rows are full, when the
    balance covers the fees, the debit is acknowledged, the log is rewritten
    and the database is reached, the log afterwards is the old one with these
    rows given status 1 and the payment time, every other row and cell as it
    was; the tag is written once, with the balance less the fees due. *)
Theorem settlement_marks_unpaid_rows
    (strptime : string -> option Fee.datetime) (strftime : Fee.datetime -> string)
    (e : Payment.env) (w : Payment.world) (plate : string) (balance : Z)
    (header : row) (data : list row) :
  Payment.log w = Some (header :: data) ->
  (4 <= length header)%nat ->
  Forall (Payment.well_formed (length header)) data ->
  existsb (Payment.unpaid_for plate) data = true ->
  Payment.fees_due strptime plate (Payment.now e) data <= balance ->
  Payment.write_rfid_card (Payment.debit_reply e) = true ->
  Payment.log_write e = Payment.IoOk ->
  Payment.db_io e <> Payment.DbConnectFails ->
  let r := Payment.process_payment strptime strftime e false w plate balance in
  let new_balance := balance - Payment.fees_due strptime plate (Payment.now e) data in
  Payment.log r.1
  = Some (header ::
          (PaymentProps.settle_row strptime plate (strftime (Payment.now e)) <$> data))
  /\ List.filter PaymentProps.is_tag_write r.2 = [Payment.TagWrite new_balance true]
  /\ Payment.tag_after balance r.2 = new_balance.
Proof.
  intros Hlog Hcols Hall Hfound Hbal Hack Hio Hdb r new_balance. subst r.
  destruct (settlement_goes_through strptime strftime e w plate balance header data
              Hlog Hcols Hall Hfound Hbal Hack Hio Hdb) as (entries & rest & -> & Hrest & _).
  cbn [fst snd Payment.log]. split; [reflexivity|].
  split.
  - cbn [List.filter PaymentProps.is_tag_write]. f_equal.
    clear -Hrest. induction Hrest as [|ev rest Hev _ IH]; [reflexivity|].
    cbn [List.filter]. rewrite Hev. exact IH.
  - unfold Payment.tag_after. cbn [fold_left].
    apply (tag_after_no_write new_balance rest Hrest).
Qed.

Lemma settlement_marks_unpaid_rows_witness :
  let w := {| Payment.log :=
                Some [ReconcilerProps.HEADER;
                      ["RAB123C"; "1"; "2024-01-01 08:00:00"; "2024-01-01 08:30:00"];
                      ["RAX999Z"; "0"; "2024-01-01 09:00:00"; ""];
                      ["RAB123C"; "0"; "2024-01-01 10:00:00"; ""]];
              Payment.db := [] |} in
  let e := {| Payment.now := 1704108600000000;
              Payment.signal_write_ok := true;
              Payment.debit_reply := (0, [(10, Some "[UPDATED]")]);
              Payment.compensation_reply := (0, []);
              Payment.log_write := Payment.IoOk;
              Payment.rollback_write := Payment.IoOk;
              Payment.db_io := Payment.DbExecFails |} in
  Payment.log (Payment.process_payment Clock.strptime Clock.strftime e false w
                 "RAB123C" 1500).1
  = Some [ReconcilerProps.HEADER;
          ["RAB123C"; "1"; "2024-01-01 08:00:00"; "2024-01-01 08:30:00"];
          ["RAX999Z"; "0"; "2024-01-01 09:00:00"; ""];
          ["RAB123C"; "1"; "2024-01-01 10:00:00"; "2024-01-01 11:30:00"]].
Proof.
  intros w e.
  refine (proj1 (settlement_marks_unpaid_rows Clock.strptime Clock.strftime e w
                   "RAB123C" 1500 ReconcilerProps.HEADER _ eq_refl _ _ _ _ _ _ _)).
  - simpl. lia.
  - repeat apply Forall_cons_2; try apply Forall_nil_2;
      (split; [reflexivity | eexists; split; [reflexivity | vm_compute; reflexivity]]).
  - vm_compute. reflexivity.
  - vm_compute. discriminate.
  - vm_compute. reflexivity.
  - reflexivity.
  - discriminate.
Defined.

(** X14: After a settlement that went through, presenting the tag again charges
    nothing: when every unpaid row of the plate had a timestamp that can be
    read, a later run for the plate finds no unpaid row and does nothing, for
    any balance and whatever the link, the file system and the database do. *)
Theorem later_presentation_charges_nothing
    (strptime : string -> option Fee.datetime) (strftime : Fee.datetime -> string)
    (e : Payment.env) (w : Payment.world) (plate : string) (balance : Z)
    (header : row) (data : list row) :
  Payment.log w = Some (header :: data) ->
  (4 <= length header)%nat ->
  Forall (Payment.well_formed (length header)) data ->
  Forall (fun cells => Payment.unpaid_for plate cells = true ->
                       PaymentProps.chargeable strptime plate cells = true) data ->
  existsb (Payment.unpaid_for plate) data = true ->
  Payment.fees_due strptime plate (Payment.now e) data <= balance ->
  Payment.write_rfid_card (Payment.debit_reply e) = true ->
  Payment.log_write e = Payment.IoOk ->
  Payment.db_io e <> Payment.DbConnectFails ->
  let w1 := (Payment.process_payment strptime strftime e false w plate balance).1 in
  forall e' balance',
    Payment.process_payment strptime strftime e' false w1 plate balance' = (w1, []).
Proof.
  intros Hlog Hcols Hall Hread Hfound Hbal Hack Hio Hdb w1 e' balance'. subst w1.
  destruct (settlement_goes_through strptime strftime e w plate balance header data
              Hlog Hcols Hall Hfound Hbal Hack Hio Hdb) as (entries & rest & -> & _ & _).
  cbn [fst]. unfold Payment.process_payment at 1. cbn [Payment.log].
  assert (data <> []) as Hne by (intros ->; discriminate).
  replace (length (header :: _) <? 2)%nat with false
    by (symmetry; apply Nat.ltb_ge; rewrite length_cons, length_fmap;
        destruct data; [congruence | simpl; lia]).
  assert (Forall (Payment.well_formed (length header))
            (PaymentProps.settle_row strptime plate (strftime (Payment.now e)) <$> data))
    as Hall'.
  { apply Forall_fmap. eapply Forall_impl; [exact Hall|].
    intros cells. apply well_formed_settle_row. }
  destruct (prepare_well_formed strptime plate (Payment.now e') header _ ltac:(lia) Hall')
    as (entries' & -> & _ & _).
  rewrite (settled_not_unpaid strptime (length header) plate _ data ltac:(lia) Hall Hread).
  reflexivity.
Qed.

Lemma later_presentation_charges_nothing_witness :
  let w := {| Payment.log :=
                Some [ReconcilerProps.HEADER;
                      ["RAB123C"; "0"; "2024-01-01 10:00:00"; ""]];
              Payment.db := [] |} in
  let e := {| Payment.now := 1704108600000000;
              Payment.signal_write_ok := true;
              Payment.debit_reply := (0, [(10, Some "[UPDATED]")]);
              Payment.compensation_reply := (0, []);
              Payment.log_write := Payment.IoOk;
              Payment.rollback_write := Payment.IoOk;
              Payment.db_io := Payment.DbOk |} in
  let w1 := (Payment.process_payment Clock.strptime Clock.strftime e false w
               "RAB123C" 1500).1 in
  Payment.process_payment Clock.strptime Clock.strftime e false w1 "RAB123C" 500
  = (w1, []).
Proof.
  intros w e.
  refine (later_presentation_charges_nothing Clock.strptime Clock.strftime e w
            "RAB123C" 1500 ReconcilerProps.HEADER _ eq_refl _ _ _ _ _ _ _ _ e 500).
  - simpl. lia.
  - repeat apply Forall_cons_2; try apply Forall_nil_2;
      (split; [reflexivity | eexists; split; [reflexivity | vm_compute; reflexivity]]).
  - repeat apply Forall_cons_2; try apply Forall_nil_2.
    intros _. vm_compute. reflexivity.
  - vm_compute. reflexivity.
  - vm_compute. discriminate.
  - vm_compute. reflexivity.
  - reflexivity.
  - discriminate.
Defined.

(** X15: Paying lets the vehicle out as far as the log is concerned: when the
    latest row of the plate is unpaid with a timestamp that can be read, the
    exit check [is_payment_complete] fails before the settlement and holds on
    the log a settlement that went through leaves. *)
Theorem settled_plate_passes_exit_check
    (strptime : string -> option Fee.datetime) (strftime : Fee.datetime -> string)
    (e : Payment.env) (w : Payment.world) (plate : string) (balance : Z)
    (header : row) (data : list row) (latest : row) :
  Payment.log w = Some (header :: data) ->
  (4 <= length header)%nat ->
  Forall (Payment.well_formed (length header)) data ->
  last (Exit.rows_of plate data) = Some latest ->
  PaymentProps.chargeable strptime plate latest = true ->
  Payment.fees_due strptime plate (Payment.now e) data <= balance ->
  Payment.write_rfid_card (Payment.debit_reply e) = true ->
  Payment.log_write e = Payment.IoOk ->
  Payment.db_io e <> Payment.DbConnectFails ->
  let w1 := (Payment.process_payment strptime strftime e false w plate balance).1 in
  Exit.is_payment_complete (Payment.log w) plate = false
  /\ Exit.is_payment_complete (Payment.log w1) plate = true.
Proof.
  intros Hlog Hcols Hall Hlast Hch Hbal Hack Hio Hdb w1. subst w1.
  pose proof Hch as Hun. apply andb_true_iff in Hun as [Hun _].
  pose proof (last_row_unpaid plate data latest Hlast Hun) as Hfound.
  destruct (settlement_goes_through strptime strftime e w plate balance header data
              Hlog Hcols Hall Hfound Hbal Hack Hio Hdb) as (entries & rest & -> & _ & _).
  cbn [fst Payment.log]. split.
  - destruct (Exit.is_payment_complete (Payment.log w) plate) eqn:E; [|reflexivity].
    apply is_payment_complete_true in E
      as (header' & data' & latest' & cell & Hf & _ & Hl & Hcell & Hint).
    rewrite Hlog in Hf. injection Hf as <- <-.
    rewrite Hlast in Hl. injection Hl as <-.
    unfold Payment.unpaid_for in Hun. apply andb_true_iff in Hun as [_ H0].
    apply bool_decide_eq_true_1 in H0. rewrite Hcell in H0. injection H0 as ->.
    vm_compute in Hint. discriminate.
  - apply (settled_log_passes_check strptime plate _ header data latest);
      [lia | exact Hall | exact Hlast | exact Hch].
Qed.

Lemma settled_plate_passes_exit_check_witness :
  let w := {| Payment.log :=
                Some [ReconcilerProps.HEADER;
                      ["RAB123C"; "1"; "2024-01-01 08:00:00"; "2024-01-01 08:30:00"];
                      ["RAB123C"; "0"; "2024-01-01 10:00:00"; ""]];
              Payment.db := [] |} in
  let e := {| Payment.now := 1704108600000000;
              Payment.signal_write_ok := true;
              Payment.debit_reply := (0, [(10, Some "[UPDATED]")]);
              Payment.compensation_reply := (0, []);
              Payment.log_write := Payment.IoOk;
              Payment.rollback_write := Payment.IoOk;
              Payment.db_io := Payment.DbOk |} in
  Exit.is_payment_complete
    (Payment.log (Payment.process_payment Clock.strptime Clock.strftime e false w
                    "RAB123C" 1000).1) "RAB123C" = true.
Proof.
  intros w e.
  refine (proj2 (settled_plate_passes_exit_check Clock.strptime Clock.strftime e w
                   "RAB123C" 1000 ReconcilerProps.HEADER _
                   ["RAB123C"; "0"; "2024-01-01 10:00:00"; ""]
                   eq_refl _ _ _ _ _ _ _ _)).
  - simpl. lia.
  - repeat apply Forall_cons_2; try apply Forall_nil_2;
      (split; [reflexivity | eexists; split; [reflexivity | vm_compute; reflexivity]]).
  - vm_compute. reflexivity.
  - vm_compute. reflexivity.
  - vm_compute. discriminate.
  - vm_compute. reflexivity.
  - reflexivity.
  - discriminate.
Defined.

(** ** The settlement and the sessions of the store *)

Section SettlementStore.

Variable strptime : string -> option Fee.datetime.
Variable strftime : Fee.datetime -> string.

(** Every entry time the scan collects was read by [strptime]. *)
Lemma scan_times (P : Fee.datetime -> Prop) plate now refs :
  (forall s t, strptime s = Some t -> P t) ->
  forall i found total entries (h h' : list (list string)) found' total' entries',
    Payment.scan strptime plate now refs i (found, total, entries) h
    = (h', Ok (found', total', entries')) ->
    Forall (fun x => P (PaymentProps.time_of x)) entries ->
    Forall (fun x => P (PaymentProps.time_of x)) entries'.
Proof.
  intros HP. induction refs as [|r refs IH];
    intros i found total entries h h' found' total' entries' Hscan Hall.
  - injection Hscan as <- <- <- <-. exact Hall.
  - cbn [Payment.scan] in Hscan.
    unfold mbind, Payment.M_bind, Payment.get_row, Payment.lift in Hscan.
    cbn beta iota in Hscan.
    destruct (item (Payment.deref h r) 0) as [c0|]; [|discriminate].
    destruct (bool_decide (c0 = plate)); [|eapply IH; eassumption].
    destruct (item (Payment.deref h r) 1) as [c1|]; [|discriminate].
    destruct (bool_decide (c1 = "0")); [|eapply IH; eassumption].
    destruct (item (Payment.deref h r) 2) as [c2|]; [|discriminate].
    destruct (strptime c2) as [t|] eqn:Et; [|eapply IH; eassumption].
    eapply IH; [eassumption|].
    apply Forall_app. split; [exact Hall|].
    constructor; [|constructor]. exact (HP c2 t Et).
Qed.

(** The store a run leaves: as it was, or with the [UPDATE]s of the entries
    the scan collected. *)
Lemma process_payment_db (P : Fee.datetime -> Prop) e busy w plate balance :
  (forall s t, strptime s = Some t -> P t) ->
  let r := Payment.process_payment strptime strftime e busy w plate balance in
  Payment.db r.1 = Payment.db w
  \/ exists entries,
       Forall (fun x => P (PaymentProps.time_of x)) entries
       /\ Payment.db r.1 = Payment.db_updates plate (Payment.now e) entries (Payment.db w).
Proof.
  intros HP. unfold Payment.process_payment.
  destruct busy; [left; reflexivity|].
  destruct (Payment.log w) as [rows|]; [|left; reflexivity].
  destruct (length rows <? 2)%nat; [left; reflexivity|].
  destruct (Payment.prepare _ _ _ _ rows) as [h [[valid [[found total] entries]]|ex]] eqn:Ep.
  - destruct found; cbn [negb]; [|left; reflexivity].
    destruct (balance <? total).
    { destruct (Payment.signal_write_ok e); [left; reflexivity|].
      unfold Payment.rollback_changes. destruct (seq 0 (length rows)); left; reflexivity. }
    destruct (Payment.write_rfid_card (Payment.debit_reply e)); cbn [negb];
      [|left; reflexivity].
    destruct (Payment.mark _ _ _ h) as [h1 [[]|ex]].
    + destruct (Payment.log_write e); [destruct (Payment.db_io e)| |];
        cbv zeta; unfold Payment.compensate, Payment.rollback_changes;
        try (destruct (seq 0 (length rows)); left; reflexivity).
      right. exists entries. split; [|reflexivity].
      unfold Payment.prepare, mbind, Payment.M_bind, Payment.get_row in Ep.
      destruct (Payment.validate _ _ _ rows) as [h2 [valid'|]]; [|discriminate].
      destruct (Payment.scan _ _ _ _ _ _ h2) as [h3 [[[f t] en]|]] eqn:Es; [|discriminate].
      unfold mret, Payment.M_ret in Ep. injection Ep as _ _ _ _ <-.
      eapply scan_times; [exact HP | exact Es | constructor].
    + unfold Payment.compensate, Payment.rollback_changes;
        destruct (seq 0 (length rows)); left; reflexivity.
  - unfold Payment.rollback_changes. destruct (seq 0 (length rows)); left; reflexivity.
Qed.

Lemma db_updates_cons plate now x entries (t : list Db.vehicle_log) :
  Payment.db_updates plate now (x :: entries) t
  = Payment.db_updates plate now entries
      (Payment.db_update plate (PaymentProps.time_of x) now x.1.1.2 <$> t).
Proof. destruct x as [[[i a] hrs] et]. reflexivity. Qed.

Lemma db_updates_lookup plate now entries (t : list Db.vehicle_log) i s :
  t !! i = Some s ->
  Forall (fun x => PaymentProps.time_of x <> Db.entry_time s) entries ->
  Payment.db_updates plate now entries t !! i = Some s.
Proof.
  revert t. induction entries as [|x entries IH]; intros t Hi Hall; [exact Hi|].
  apply Forall_cons in Hall as [Hx Hall].
  rewrite db_updates_cons. apply IH; [|exact Hall].
  rewrite list_lookup_fmap, Hi. cbn [fmap option_fmap option_map]. f_equal.
  unfold Payment.db_update.
  replace (Db.entry_time s =? PaymentProps.time_of x) with false
    by (symmetry; apply Z.eqb_neq; congruence).
  rewrite andb_false_r. reflexivity.
Qed.

Lemma is_open_db_update plate et now a s :
  ExitLane.is_open plate (Payment.db_update plate et now a s)
  = ExitLane.is_open plate s && negb (Db.entry_time s =? et).
Proof.
  unfold Payment.db_update, ExitLane.is_open.
  destruct (decide (Db.plate_number s = plate)) as [Hp|Hp].
  - rewrite (bool_decide_eq_true_2 _ Hp). cbn [andb].
    destruct (Db.entry_time s =? et); cbn [negb Db.plate_number Db.exit_time].
    + rewrite (bool_decide_eq_true_2 _ Hp).
      rewrite (bool_decide_eq_false_2 (Some now = None)) by discriminate.
      rewrite !andb_false_r. reflexivity.
    + rewrite (bool_decide_eq_true_2 _ Hp), andb_true_r. reflexivity.
  - rewrite (bool_decide_eq_false_2 _ Hp). cbn [andb].
    rewrite (bool_decide_eq_false_2 _ Hp). reflexivity.
Qed.

Lemma entry_time_db_update plate et now a s :
  Db.entry_time (Payment.db_update plate et now a s) = Db.entry_time s.
Proof. unfold Payment.db_update. destruct (_ && _); reflexivity. Qed.

(** The [UPDATE]s close every session of the plate whose entry time is among
    the entries. *)
Lemma db_updates_close plate now entries (t : list Db.vehicle_log) :
  Forall (fun s => ExitLane.is_open plate s = true ->
                   Db.entry_time s ∈ PaymentProps.time_of <$> entries) t ->
  ExitLane.open_sessions plate (Payment.db_updates plate now entries t) = 0%nat.
Proof.
  revert t. induction entries as [|x entries IH]; intros t Hall.
  - cbn [Payment.db_updates fold_left]. unfold ExitLane.open_sessions.
    induction Hall as [|s t Hs _ IHt]; [reflexivity|].
    rewrite filter_cons. destruct (decide (ExitLane.is_open plate s = true)) as [Ho|_];
      [|exact IHt].
    specialize (Hs Ho). inversion Hs.
  - rewrite db_updates_cons. apply IH.
    apply Forall_fmap, Forall_forall. intros s Hs. cbn [compose].
    rewrite is_open_db_update, entry_time_db_update.
    intros Ho. apply andb_true_iff in Ho as [Ho Hne].
    rewrite Forall_forall in Hall. specialize (Hall s Hs Ho).
    rewrite fmap_cons in Hall. apply elem_of_cons in Hall as [Heq|Hin]; [|exact Hin].
    apply negb_true_iff, Z.eqb_neq in Hne. contradiction.
Qed.

Lemma picked_times_spec plate (data : list (list string)) t :
  t ∈ PaymentProps.picked_times strptime plate data <->
  exists cells, cells ∈ data /\ PaymentProps.chargeable strptime plate cells = true
                /\ cells !! 2%nat ≫= strptime = Some t.
Proof.
  unfold PaymentProps.picked_times. rewrite list_elem_of_omap. split.
  - intros (cells & Hin & H). exists cells. split; [exact Hin|].
    destruct (PaymentProps.chargeable strptime plate cells); [auto | discriminate].
  - intros (cells & Hin & Hch & H). exists cells. split; [exact Hin|].
    rewrite Hch. exact H.
Qed.

Lemma payment_keeps_subsecond_session e busy w plate balance i s :
  (forall c t, strptime c = Some t -> t mod 1000000 = 0) ->
  Payment.db w !! i = Some s ->
  Db.entry_time s mod 1000000 <> 0 ->
  Payment.db (Payment.process_payment strptime strftime e busy w plate balance).1 !! i
  = Some s.
Proof.
  intros Hwhole Hi Hfrac.
  destruct (process_payment_db (fun t => t mod 1000000 = 0)
              e busy w plate balance Hwhole) as [->|(entries & Hall & ->)]; [exact Hi|].
  apply db_updates_lookup; [exact Hi|].
  eapply Forall_impl; [exact Hall|].
  intros x Hx Heq. cbv beta in Hx. rewrite Heq in Hx. contradiction.
Qed.

End SettlementStore.

Lemma strptime_whole_seconds s t :
  Clock.strptime s = Some t -> t mod 1000000 = 0.
Proof.
  unfold Clock.strptime. destruct (_ && _); [|discriminate].
  destruct (Clock.decimal (Py.slice 0 4 s)) as [y|]; [|discriminate].
  destruct (Clock.decimal (Py.slice 5 7 s)) as [m|]; [|discriminate].
  destruct (Clock.decimal (Py.slice 8 10 s)) as [d|]; [|discriminate].
  destruct (Clock.decimal (Py.slice 11 13 s)) as [H|]; [|discriminate].
  destruct (Clock.decimal (Py.slice 14 16 s)) as [M|]; [|discriminate].
  destruct (Clock.decimal (Py.slice 17 19 s)) as [S|]; [|discriminate].
  cbn [mbind option_bind]. destruct (_ && _); [|discriminate].
  intros [= <-]. apply Z_mod_mult.
Qed.

(** X16: [process_payment] finds the sessions to update by the entry time it
    reads from the log, which has whole seconds; [log_vehicle_entry] stores
    [datetime.now()] with its microseconds.  So no run of [process_payment]
    changes a session of the store whose entry time has a fraction of a
    second: it stays as it was, unpaid. *)
Theorem payment_skips_subsecond_sessions
    (strptime : string -> option Fee.datetime) (strftime : Fee.datetime -> string)
    (e : Payment.env) (busy : bool) (w : Payment.world) (plate : string) (balance : Z)
    (i : nat) (s : Db.vehicle_log) :
  (forall c t, strptime c = Some t -> t mod 1000000 = 0) ->
  Payment.db w !! i = Some s ->
  Db.entry_time s mod 1000000 <> 0 ->
  Payment.db (Payment.process_payment strptime strftime e busy w plate balance).1 !! i
  = Some s.
Proof.
  exact (payment_keeps_subsecond_session strptime strftime e busy w plate balance i s).
Qed.

Lemma payment_skips_subsecond_sessions_witness :
  let s := {| Db.id := 1; Db.plate_number := "RAB123C";
              Db.entry_time := 1704103200123456; Db.exit_time := None;
              Db.payment_status := Some 0; Db.payment_amount := None;
              Db.payment_time := None; Db.is_unauthorized_exit := Some 0 |} in
  let w := {| Payment.log :=
                Some [ReconcilerProps.HEADER;
                      ["RAB123C"; "0"; "2024-01-01 10:00:00"; ""]];
              Payment.db := [s] |} in
  let e := {| Payment.now := 1704108600000000;
              Payment.signal_write_ok := true;
              Payment.debit_reply := (0, [(10, Some "[UPDATED]")]);
              Payment.compensation_reply := (0, []);
              Payment.log_write := Payment.IoOk;
              Payment.rollback_write := Payment.IoOk;
              Payment.db_io := Payment.DbOk |} in
  let r := Payment.process_payment Clock.strptime Clock.strftime e false w "RAB123C" 1500 in
  Payment.DbCommit ∈ r.2 /\ Payment.db r.1 !! 0%nat = Some s.
Proof.
  intros s w e r. split.
  - vm_compute. do 3 right. left.
  - apply (payment_skips_subsecond_sessions Clock.strptime Clock.strftime e false w
             "RAB123C" 1500 0 s strptime_whole_seconds eq_refl).
    vm_compute. discriminate.
Defined.

(** X17: Paying closes the session in the store: the [UPDATE] of
    [process_payment] also sets [exit_time].  Take a log whose rows are as
    wide as its header of at least four cells, with non-blank plates and an
    unpaid row of the plate, and a store in which every open session of the
    plate carries the entry time of an unpaid row of the plate with a
    readable timestamp (as the sessions [sync_csv_to_db] creates do).  After
    a settlement that went through and was committed, the plate has no open
    session left, and no later exit attempt opens the gate, whatever the log
    says then.  If moreover the latest row of the plate was unpaid and
    readable, the exit check on the log holds, [log_vehicle_exit] finds no
    active entry, and the exit lane sends nothing for the paid vehicle,
    neither the gate bytes nor the alarm. *)
Theorem paid_session_is_closed_before_exit
    (strptime : string -> option Fee.datetime) (strftime : Fee.datetime -> string)
    (e : Payment.env) (w : Payment.world) (plate : string) (balance : Z)
    (header : row) (data : list row) :
  Payment.log w = Some (header :: data) ->
  (4 <= length header)%nat ->
  Forall (Payment.well_formed (length header)) data ->
  existsb (Payment.unpaid_for plate) data = true ->
  Forall (fun s => ExitLane.is_open plate s = true ->
            exists cells, cells ∈ data
                          /\ PaymentProps.chargeable strptime plate cells = true
                          /\ cells !! 2%nat ≫= strptime = Some (Db.entry_time s))
         (Payment.db w) ->
  Payment.fees_due strptime plate (Payment.now e) data <= balance ->
  Payment.write_rfid_card (Payment.debit_reply e) = true ->
  Payment.log_write e = Payment.IoOk ->
  Payment.db_io e = Payment.DbOk ->
  let w1 := (Payment.process_payment strptime strftime e false w plate balance).1 in
  ExitLane.open_sessions plate (Payment.db w1) = 0%nat
  /\ (forall arduino io exit_time log',
        Sent "1" ∉ (ExitLane.on_plate arduino io exit_time
                      {| Payment.log := log'; Payment.db := Payment.db w1 |} plate).2)
  /\ (forall latest,
        last (Exit.rows_of plate data) = Some latest ->
        PaymentProps.chargeable strptime plate latest = true ->
        Exit.is_payment_complete (Payment.log w1) plate = true
        /\ forall arduino io exit_time,
             (ExitLane.on_plate arduino io exit_time w1 plate).2 = []).
Proof.
  intros Hlog Hcols Hall Hfound Hopen Hbal Hack Hio Hdb w1. subst w1.
  destruct (settlement_goes_through strptime strftime e w plate balance header data
              Hlog Hcols Hall Hfound Hbal Hack Hio ltac:(rewrite Hdb; discriminate))
    as (entries & rest & -> & _ & Htm).
  rewrite Hdb. cbn [fst Payment.log Payment.db].
  assert (ExitLane.open_sessions plate
            (Payment.db_updates plate (Payment.now e) entries (Payment.db w)) = 0%nat)
    as Hclosed.
  { apply db_updates_close. eapply Forall_impl; [exact Hopen|].
    intros s Hs Ho. rewrite Htm. apply picked_times_spec. exact (Hs Ho). }
  split; [exact Hclosed|]. split.
  - intros arduino io exit_time log' Hsent.
    apply on_plate_actions in Hsent as (_ & _ & _ & Hpos).
    cbn [Payment.db] in Hpos. rewrite Hclosed in Hpos. lia.
  - intros latest Hlast Hch.
    assert (Exit.is_payment_complete
              (Some (header :: (PaymentProps.settle_row strptime plate
                                  (strftime (Payment.now e)) <$> data))) plate = true)
      as Hpaid
      by (apply (settled_log_passes_check strptime plate _ header data latest);
          [lia | exact Hall | exact Hlast | exact Hch]).
    split; [exact Hpaid|].
    intros arduino io exit_time. unfold ExitLane.on_plate.
    cbn [Payment.log Payment.db]. rewrite Hpaid.
    pose proof (log_vehicle_exit_result io exit_time
                  (Payment.db_updates plate (Payment.now e) entries (Payment.db w))
                  plate true) as Hres.
    destruct (ExitLane.log_vehicle_exit io exit_time _ plate true) as [t [|]];
      cbn [fst snd] in *; [|reflexivity].
    destruct (proj1 Hres eq_refl) as [_ Hpos]. rewrite Hclosed in Hpos. lia.
Qed.

Lemma paid_session_is_closed_before_exit_witness :
  let log := Some [ReconcilerProps.HEADER;
                   ["RAB123C"; "0"; "2024-01-01 10:00:00"; ""]] in
  let w := {| Payment.log := log;
              Payment.db := (Reconciler.sync_csv_to_db Clock.strptime true log []).1 |} in
  let e := {| Payment.now := 1704108600000000;
              Payment.signal_write_ok := true;
              Payment.debit_reply := (0, [(10, Some "[UPDATED]")]);
              Payment.compensation_reply := (0, []);
              Payment.log_write := Payment.IoOk;
              Payment.rollback_write := Payment.IoOk;
              Payment.db_io := Payment.DbOk |} in
  let w1 := (Payment.process_payment Clock.strptime Clock.strftime e false w
               "RAB123C" 1500).1 in
  ExitLane.open_sessions "RAB123C" (Payment.db w) = 1%nat
  /\ Exit.is_payment_complete (Payment.log w1) "RAB123C" = true
  /\ (ExitLane.on_plate true Payment.DbOk 1704108700000000 w1 "RAB123C").2 = [].
Proof.
  intros log w e w1. split; [reflexivity|].
  destruct (paid_session_is_closed_before_exit Clock.strptime Clock.strftime e w
              "RAB123C" 1500 ReconcilerProps.HEADER
              [["RAB123C"; "0"; "2024-01-01 10:00:00"; ""]]) as (_ & _ & Hlatest).
  - reflexivity.
  - simpl. lia.
  - repeat apply Forall_cons_2; try apply Forall_nil_2;
      (split; [reflexivity | eexists; split; [reflexivity | vm_compute; reflexivity]]).
  - vm_compute. reflexivity.
  - repeat apply Forall_cons_2; try apply Forall_nil_2.
    intros _. eexists. split; [left|]. split; vm_compute; reflexivity.
  - vm_compute. discriminate.
  - vm_compute. reflexivity.
  - reflexivity.
  - reflexivity.
  - destruct (Hlatest ["RAB123C"; "0"; "2024-01-01 10:00:00"; ""])
      as [Hpaid Hshut]; [vm_compute; reflexivity | vm_compute; reflexivity |].
    split; [exact Hpaid | apply Hshut].
Defined.

(** With an unreadable timestamp in the latest row of the plate the
    settlement still closes the session, but the exit check fails: the lane
    sounds the alarm, and the gate stays shut. *)
Example paid_session_closed_latest_row_unreadable :
  let log := Some [ReconcilerProps.HEADER;
                   ["RAB123C"; "0"; "2024-01-01 10:00:00"; ""];
                   ["RAB123C"; "0"; "garbage"; ""]] in
  let s := {| Db.id := 1; Db.plate_number := "RAB123C";
              Db.entry_time := 1704103200000000; Db.exit_time := None;
              Db.payment_status := Some 0; Db.payment_amount := None;
              Db.payment_time := None; Db.is_unauthorized_exit := Some 0 |} in
  let w := {| Payment.log := log; Payment.db := [s] |} in
  let e := {| Payment.now := 1704108600000000;
              Payment.signal_write_ok := true;
              Payment.debit_reply := (0, [(10, Some "[UPDATED]")]);
              Payment.compensation_reply := (0, []);
              Payment.log_write := Payment.IoOk;
              Payment.rollback_write := Payment.IoOk;
              Payment.db_io := Payment.DbOk |} in
  let w1 := (Payment.process_payment Clock.strptime Clock.strftime e false w
               "RAB123C" 1500).1 in
  ExitLane.open_sessions "RAB123C" (Payment.db w1) = 0%nat
  /\ Exit.is_payment_complete (Payment.log w1) "RAB123C" = false
  /\ (ExitLane.on_plate true Payment.DbOk 1704108700000000 w1 "RAB123C").2 = [Sent "2"].
Proof. vm_compute. repeat split; reflexivity. Qed.

(** ** A visit: entry, payment, exit *)

Section Visit.

Variable strptime : string -> option Fee.datetime.
Variable strftime : Fee.datetime -> string.

Lemma entry_row_well_formed plate t :
  Py.nonempty (Py.strip plate) = true ->
  Payment.well_formed 4 (Entry.entry_row strftime plate t).
Proof. intros Hne. split; [reflexivity|]. exists plate. split; [reflexivity | exact Hne]. Qed.

Lemma entry_row_chargeable plate t :
  is_Some (strptime (strftime t)) ->
  PaymentProps.chargeable strptime plate (Entry.entry_row strftime plate t) = true.
Proof.
  intros Hsome. unfold PaymentProps.chargeable, Payment.unpaid_for, Entry.entry_row.
  cbn [lookup list_lookup mbind option_bind].
  rewrite !bool_decide_eq_true_2 by (reflexivity || exact Hsome). reflexivity.
Qed.

Lemma entry_row_latest plate t (data : list (list string)) :
  last (Exit.rows_of plate (data ++ [Entry.entry_row strftime plate t]))
  = Some (Entry.entry_row strftime plate t).
Proof.
  unfold Exit.rows_of. rewrite filter_app.
  rewrite (filter_cons _ (Entry.entry_row strftime plate t)).
  rewrite decide_True by reflexivity. rewrite filter_nil. apply last_snoc.
Qed.

Lemma parse_entry_row plate t t0 :
  strptime (strftime t) = Some t0 ->
  Reconciler.parse_row strptime ReconcilerProps.HEADER (Entry.entry_row strftime plate t)
  = Ok {| Reconciler.rec_plate := Some plate;
          Reconciler.rec_entry := t0;
          Reconciler.rec_status := 0;
          Reconciler.rec_payment_time := None;
          Reconciler.rec_amount := None |}.
Proof.
  intros Ht. unfold Reconciler.parse_row, Entry.entry_row, ReconcilerProps.HEADER.
  assert (forall key v, (key, v) ∈ zip ReconcilerProps.HEADER
                                    [plate; "0"; strftime t; EmptyString] ->
          Reconciler.dict_get ReconcilerProps.HEADER
            [plate; "0"; strftime t; EmptyString] key = Ok (Some v)) as Hget.
  { intros key v Hin. unfold Reconciler.dict_get, ReconcilerProps.HEADER in *.
    cbn [drop length zip zip_with] in *.
    rewrite bool_decide_eq_false_2 by (intros H; inversion H).
    repeat (apply elem_of_cons in Hin as [[= -> ->]|Hin];
            [vm_compute; reflexivity|]).
    inversion Hin. }
  change [("Plate Number" : string); "Payment Status"; "Timestamp"; "Payment Timestamp"]
    with ReconcilerProps.HEADER.
  rewrite (Hget "Timestamp" (strftime t)) by (do 2 right; left).
  cbn [mbind res_bind Reconciler.parse_time]. rewrite Ht. cbn [mbind res_bind].
  rewrite (Hget "Payment Timestamp" EmptyString) by (do 3 right; left).
  cbn [mbind res_bind Reconciler.truthy Py.nonempty].
  rewrite (Hget "Plate Number" plate) by left.
  cbn [mbind res_bind].
  rewrite (Hget "Payment Status" "0") by (right; left).
  reflexivity.
Qed.

End Visit.

(** X18: A whole visit.  The log has a header of four cells, rows as wide as
    it with non-blank plates, and ends with a line terminator.
    [log_vehicle_entry] logs the vehicle in log and store, at a time with a
    fraction of a second whose written form can be read back; then the tag
    pays a settlement that goes through (the balance covers the fees, the
    debit is acknowledged, the log is rewritten, the database connection
    opens); then the plate comes to the exit, with the port found and the
    database answering.  The gate is opened and closed again.  The payment
    left the session of the store untouched, because the time it reads from
    the log has whole seconds: the session is still open, and still unpaid,
    when the exit lane looks for it. *)
Theorem visit_ends_with_open_gate
    (strptime : string -> option Fee.datetime) (strftime : Fee.datetime -> string)
    (ee : Entry.env) (e : Payment.env) (w : Payment.world) (plate : string) (balance : Z)
    (header : row) (data : list row) :
  Payment.log w = Some (header :: data) ->
  length header = 4%nat ->
  Forall (Payment.well_formed 4) data ->
  Py.nonempty (Py.strip plate) = true ->
  Entry.log_terminated ee = true ->
  Entry.csv_append_ok ee = true ->
  Entry.db_io ee = Payment.DbOk ->
  (forall c t, strptime c = Some t -> t mod 1000000 = 0) ->
  Entry.now ee mod 1000000 <> 0 ->
  is_Some (strptime (strftime (Entry.now ee))) ->
  Payment.fees_due strptime plate (Payment.now e)
    (data ++ [Entry.entry_row strftime plate (Entry.now ee)]) <= balance ->
  Payment.write_rfid_card (Payment.debit_reply e) = true ->
  Payment.log_write e = Payment.IoOk ->
  Payment.db_io e <> Payment.DbConnectFails ->
  let w1 := (Entry.log_vehicle_entry strftime ee w plate).1 in
  let w2 := (Payment.process_payment strptime strftime e false w1 plate balance).1 in
  Payment.db w2 !! length (Payment.db w)
  = Some (Entry.new_session (Payment.db w) plate (Entry.now ee))
  /\ forall exit_time,
       (ExitLane.on_plate true Payment.DbOk exit_time w2 plate).2 = [Sent "1"; Sent "0"].
Proof.
  intros Hlog Hcols Hall Hplate Hterm Hcsv Hdbe Hwhole Hfrac Hsome Hbal Hack Hio Hdb w1 w2.
  assert (Payment.log w1
          = Some (header :: (data ++ [Entry.entry_row strftime plate (Entry.now ee)])))
    as Hlog1.
  { subst w1. unfold Entry.log_vehicle_entry, Entry.append_line.
    rewrite Hcsv, Hdbe, Hlog, Hterm. reflexivity. }
  assert (Payment.db w1
          = Payment.db w ++ [Entry.new_session (Payment.db w) plate (Entry.now ee)])
    as Hdb1.
  { subst w1. unfold Entry.log_vehicle_entry. rewrite Hcsv, Hdbe. reflexivity. }
  assert (Forall (Payment.well_formed (length header))
                 (data ++ [Entry.entry_row strftime plate (Entry.now ee)])) as Hall1.
  { rewrite Hcols. apply Forall_app. split; [exact Hall|].
    constructor; [|constructor]. apply entry_row_well_formed, Hplate. }
  pose proof (entry_row_chargeable strptime strftime plate (Entry.now ee) Hsome) as Hch.
  pose proof (entry_row_latest strftime plate (Entry.now ee) data) as Hlast.
  assert (Payment.db w2 !! length (Payment.db w)
          = Some (Entry.new_session (Payment.db w) plate (Entry.now ee))) as Hkept.
  { subst w2. apply payment_keeps_subsecond_session; [exact Hwhole | | exact Hfrac].
    rewrite Hdb1. apply list_lookup_middle. reflexivity. }
  split; [exact Hkept|].
  intros exit_time.
  assert (Exit.is_payment_complete (Payment.log w2) plate = true) as Hpaid.
  { pose proof Hch as Hun. apply andb_true_iff in Hun as [Hun _].
    pose proof (last_row_unpaid plate _ _ Hlast Hun) as Hfound.
    subst w2.
    destruct (settlement_goes_through strptime strftime e w1 plate balance header _
                Hlog1 ltac:(lia) Hall1 Hfound Hbal Hack Hio Hdb)
      as (entries & rest & -> & _ & _).
    cbn [fst Payment.log].
    apply (settled_log_passes_check strptime plate _ header _ _ ltac:(lia) Hall1 Hlast Hch). }
  destruct (on_plate_actions true Payment.DbOk exit_time w2 plate) as (_ & Hopen & Hseq & _).
  apply Hseq, Hopen. repeat split; [exact Hpaid|].
  unfold ExitLane.open_sessions.
  apply list_elem_of_lookup_2 in Hkept.
  assert (Entry.new_session (Payment.db w) plate (Entry.now ee)
          ∈ filter (fun r => ExitLane.is_open plate r = true) (Payment.db w2)) as Hin.
  { apply list_elem_of_filter. split; [|exact Hkept].
    unfold ExitLane.is_open, Entry.new_session. cbn [Db.plate_number Db.exit_time].
    rewrite !bool_decide_eq_true_2 by reflexivity. reflexivity. }
  destruct (filter _ (Payment.db w2)); [inversion Hin | simpl; lia].
Qed.

Lemma visit_ends_with_open_gate_witness :
  let w := {| Payment.log := Some [ReconcilerProps.HEADER]; Payment.db := [] |} in
  let ee := {| Entry.now := 1704103200123456; Entry.current_time := 1704103200123456;
               Entry.log_terminated := true; Entry.csv_append_ok := true; Entry.db_io := Payment.DbOk |} in
  let e := {| Payment.now := 1704108600000000;
              Payment.signal_write_ok := true;
              Payment.debit_reply := (0, [(10, Some "[UPDATED]")]);
              Payment.compensation_reply := (0, []);
              Payment.log_write := Payment.IoOk;
              Payment.rollback_write := Payment.IoOk;
              Payment.db_io := Payment.DbOk |} in
  let w1 := (Entry.log_vehicle_entry Clock.strftime ee w "RAB123C").1 in
  let w2 := (Payment.process_payment Clock.strptime Clock.strftime e false w1
               "RAB123C" 1500).1 in
  (ExitLane.on_plate true Payment.DbOk 1704108700000000 w2 "RAB123C").2
  = [Sent "1"; Sent "0"].
Proof.
  intros w ee e w1 w2.
  refine (proj2 (visit_ends_with_open_gate Clock.strptime Clock.strftime ee e w
                   "RAB123C" 1500 ReconcilerProps.HEADER [] eq_refl eq_refl _ _
                   eq_refl eq_refl eq_refl strptime_whole_seconds _ _ _ _ eq_refl _)
            1704108700000000).
  - constructor.
  - vm_compute. reflexivity.
  - vm_compute. discriminate.
  - vm_compute. eauto.
  - vm_compute. discriminate.
  - vm_compute. reflexivity.
  - discriminate.
Defined.

(** X19: The store is fed twice.  [log_vehicle_entry] stores the session with
    [datetime.now()], microseconds included, and writes the time to the log
    in whole seconds; [sync_csv_to_db] looks the log row up by plate and the
    time it parses.  Take a log with the header [car_entry.py] writes, whose
    other rows can all be read and have a plate, and which ends with a line
    terminator, and a store with distinct ids and no session of the plate at
    the time the new log row will carry.  When the appended timestamp reads
    back as a time other than the one stored, then after one entry (log and
    store written) and one sync the store holds the session of the entry and
    a second new session of the plate, with the time of the log row. *)
Theorem entry_then_sync_duplicates_session
    (strptime : string -> option Fee.datetime) (strftime : Fee.datetime -> string)
    (ee : Entry.env) (w : Payment.world) (plate : string)
    (data : list row) (t0 : Fee.datetime) :
  Payment.log w = Some (ReconcilerProps.HEADER :: data) ->
  Forall (fun r => r = [] \/ exists rec p,
              Reconciler.parse_row strptime ReconcilerProps.HEADER r = Ok rec
              /\ Reconciler.rec_plate rec = Some p) data ->
  NoDup (Db.id <$> Payment.db w) ->
  Entry.log_terminated ee = true ->
  Entry.csv_append_ok ee = true ->
  Entry.db_io ee = Payment.DbOk ->
  strptime (strftime (Entry.now ee)) = Some t0 ->
  t0 <> Entry.now ee ->
  Db.fetchone (Some plate) t0 (Payment.db w) = None ->
  let w1 := (Entry.log_vehicle_entry strftime ee w plate).1 in
  let db' := (Reconciler.sync_csv_to_db strptime true (Payment.log w1) (Payment.db w1)).1 in
  exists s1 s2,
    s1 ∈ db' /\ s2 ∈ db' /\ Db.id s1 <> Db.id s2
    /\ (Db.id s1 ∉ Db.id <$> Payment.db w) /\ (Db.id s2 ∉ Db.id <$> Payment.db w)
    /\ Db.plate_number s1 = plate /\ Db.entry_time s1 = Entry.now ee
    /\ Db.plate_number s2 = plate /\ Db.entry_time s2 = t0.
Proof.
  intros Hlog Hall Hnd Hterm Hcsv Hdbe Ht Hne Hnone w1 db'.
  assert (Payment.log w1
          = Some (ReconcilerProps.HEADER
                  :: (data ++ [Entry.entry_row strftime plate (Entry.now ee)]))) as Hlog1.
  { subst w1. unfold Entry.log_vehicle_entry, Entry.append_line.
    rewrite Hcsv, Hdbe, Hlog, Hterm. reflexivity. }
  assert (Payment.db w1
          = Payment.db w ++ [Entry.new_session (Payment.db w) plate (Entry.now ee)])
    as Hdb1.
  { subst w1. unfold Entry.log_vehicle_entry. rewrite Hcsv, Hdbe. reflexivity. }
  pose proof (parse_entry_row strptime strftime plate (Entry.now ee) t0 Ht) as Hparse.
  assert (NoDup (Db.id <$> Payment.db w1)) as Hnd1.
  { rewrite Hdb1, fmap_app. apply NoDup_app. split; [exact Hnd|].
    split; [|apply NoDup_singleton].
    intros i Hi Hi'. apply list_elem_of_singleton in Hi'. cbn [Db.id Entry.new_session] in Hi'.
    apply list_elem_of_fmap in Hi as (s & -> & Hs).
    pose proof (next_id_fresh (Payment.db w) s Hs). lia. }
  assert (exists db2 ms,
            Reconciler.merge_rows strptime ReconcilerProps.HEADER
              (data ++ [Entry.entry_row strftime plate (Entry.now ee)]) (Payment.db w1)
            = Ok (db2, ms)) as (db2 & ms & Hmerge).
  { apply merge_rows_total. apply Forall_app. split; [exact Hall|].
    constructor; [|constructor]. right. do 2 eexists. split; [exact Hparse | reflexivity]. }
  assert (db' = db2) as ->.
  { subst db'. rewrite Hlog1. unfold Reconciler.sync_csv_to_db.
    cbn [open_log mbind res_bind]. rewrite Hmerge. reflexivity. }
  destruct (merge_rows_keeps strptime _ _ _ _ _ Hnd1 Hmerge) as (Hkeeps & Hnd2 & Hlen).
  destruct (Hkeeps (Entry.new_session (Payment.db w) plate (Entry.now ee)))
    as (s1 & Hs1 & (Hid1 & Hp1 & He1 & _) & _).
  { rewrite Hdb1. apply elem_of_app. right. left. }
  pose proof (merge_rows_settles strptime _ _ _ _ _ Hmerge) as Hset.
  rewrite Forall_forall in Hset.
  destruct (Hset (Entry.entry_row strftime plate (Entry.now ee)))
    as [Hnil|(rec & Hp & s2 & F & _)].
  { apply elem_of_app. right. left. }
  { discriminate Hnil. }
  rewrite Hparse in Hp. injection Hp as <-. cbn [Reconciler.rec_plate Reconciler.rec_entry] in F.
  destruct (fetchone_Some _ _ _ _ F) as (Hs2 & Hp2 & He2).
  cbn [Db.entry_time Db.plate_number Entry.new_session] in *.
  assert (s1 <> s2) as Hdiff by (intros ->; congruence).
  assert (Db.id s1 <> Db.id s2) as Hids.
  { intros Heq. apply Hdiff.
    apply list_elem_of_lookup in Hs1 as [i Hi]. apply list_elem_of_lookup in Hs2 as [j Hj].
    assert (i = j) as ->.
    { apply (NoDup_lookup (Db.id <$> db2) i j (Db.id s1)); [exact Hnd2 | |];
        rewrite list_lookup_fmap; [rewrite Hi | rewrite Hj]; simpl;
        [reflexivity | rewrite Heq; reflexivity]. }
    congruence. }
  injection Hp2 as Hp2.
  assert (forall s s', s ∈ Payment.db w -> s' ∈ db2 -> Db.id s' = Db.id s ->
                       Db.plate_number s' = Db.plate_number s
                       /\ Db.entry_time s' = Db.entry_time s) as Hold.
  { intros s s' Hs Hs' Heq.
    destruct (Hkeeps s) as (s'' & Hs'' & (Hid & Hp & He & _) & _);
      [rewrite Hdb1; apply elem_of_app; left; exact Hs|].
    assert (s' = s'') as ->; [|auto].
    apply list_elem_of_lookup in Hs' as [i Hi]. apply list_elem_of_lookup in Hs'' as [j Hj].
    assert (i = j) as ->; [|congruence].
    apply (NoDup_lookup (Db.id <$> db2) i j (Db.id s)); [exact Hnd2 | |];
      rewrite list_lookup_fmap; [rewrite Hi | rewrite Hj]; simpl;
      [rewrite Heq; reflexivity | rewrite Hid; reflexivity]. }
  exists s1, s2. repeat split; try assumption; try congruence.
  - intros Hin. apply list_elem_of_fmap in Hin as (s & Heq & Hs).
    pose proof (next_id_fresh (Payment.db w) s Hs).
    cbn [Db.id Entry.new_session] in Hid1. lia.
  - intros Hin. apply list_elem_of_fmap in Hin as (s & Heq & Hs).
    destruct (Hold s s2 Hs Hs2 Heq) as [Hp He].
    apply (fetchone_None plate t0 (Payment.db w) s Hnone Hs). split; congruence.
Qed.

Lemma entry_then_sync_duplicates_session_witness :
  let w := {| Payment.log := Some [ReconcilerProps.HEADER]; Payment.db := [] |} in
  let ee := {| Entry.now := 1704103200123456; Entry.current_time := 1704103200123456;
               Entry.log_terminated := true; Entry.csv_append_ok := true; Entry.db_io := Payment.DbOk |} in
  let w1 := (Entry.log_vehicle_entry Clock.strftime ee w "RAB123C").1 in
  length (Reconciler.sync_csv_to_db Clock.strptime true (Payment.log w1) (Payment.db w1)).1
  = 2%nat
  /\ exists s1 s2,
       s1 ∈ (Reconciler.sync_csv_to_db Clock.strptime true
               (Payment.log w1) (Payment.db w1)).1
       /\ s2 ∈ (Reconciler.sync_csv_to_db Clock.strptime true
                  (Payment.log w1) (Payment.db w1)).1
       /\ Db.id s1 <> Db.id s2.
Proof.
  intros w ee w1. split; [reflexivity|].
  destruct (entry_then_sync_duplicates_session Clock.strptime Clock.strftime ee w
              "RAB123C" [] 1704103200000000)
    as (s1 & s2 & H1 & H2 & Hne & _).
  - reflexivity.
  - constructor.
  - constructor.
  - reflexivity.
  - reflexivity.
  - reflexivity.
  - vm_compute. reflexivity.
  - discriminate.
  - reflexivity.
  - exists s1, s2. auto.
Defined.

(** ** The dashboard *)

Lemma cached_upsert date s ds :
  Dashboard.cached date ds = None ->
  Dashboard.cached date (Dashboard.upsert date s ds) = Some s.
Proof.
  unfold Dashboard.cached, Dashboard.upsert. intros Hnone.
  destruct (List.find (fun p => p.1 =? date) ds) as [p|] eqn:F; [discriminate|].
  replace (existsb (fun p => p.1 =? date) ds) with false.
  - induction ds as [|p ds IH]; cbn [app List.find].
    + cbn [fst]. rewrite Z.eqb_refl. reflexivity.
    + cbn [List.find] in F. destruct (p.1 =? date); [discriminate|]. apply IH, F.
  - symmetry. apply not_true_is_false. intros H. apply existsb_exists in H as (p & Hin & Hp).
    pose proof (List.find_none _ _ F p Hin) as H. cbv beta in H. congruence.
Qed.

(** X20: The figures of a day are computed once.  After the first request for a
    date, every later request returns the figures stored then, and leaves
    the table of stored figures alone, whatever has been logged in
    [vehicle_logs] since: entries, exits and payments after the first request
    of the day are not shown. *)
Theorem daily_stats_are_frozen_after_first_request
    (date : Z) (ds : list (Z * Dashboard.stats)) (t t' : Db.table) :
  let first := Dashboard.get_daily_stats date ds t in
  let later := Dashboard.get_daily_stats date first.1 t' in
  later.1 = first.1
  /\ Dashboard.total_entries later.2 = Dashboard.total_entries first.2
  /\ Dashboard.total_exits later.2 = Dashboard.total_exits first.2
  /\ Dashboard.unauthorized_exits later.2 = Dashboard.unauthorized_exits first.2
  /\ Dashboard.total_revenue later.2
     = match Dashboard.cached date ds with
       | Some _ => Dashboard.total_revenue first.2
       | None => Some (default 0 (Dashboard.total_revenue first.2))
       end.
Proof.
  intros first later. subst later first.
  destruct (Dashboard.cached date ds) as [s|] eqn:C.
  - assert (forall x, Dashboard.get_daily_stats date ds x = (ds, s)) as Hget
      by (intros x; unfold Dashboard.get_daily_stats; rewrite C; reflexivity).
    rewrite (Hget t). cbn [fst snd]. rewrite (Hget t'). auto.
  - assert (Dashboard.get_daily_stats date ds t
            = (Dashboard.upsert date
                 {| Dashboard.total_entries :=
                      Dashboard.total_entries (Dashboard.aggregate date t);
                    Dashboard.total_exits :=
                      Dashboard.total_exits (Dashboard.aggregate date t);
                    Dashboard.total_revenue :=
                      Some (default 0 (Dashboard.total_revenue (Dashboard.aggregate date t)));
                    Dashboard.unauthorized_exits :=
                      Dashboard.unauthorized_exits (Dashboard.aggregate date t) |} ds,
               Dashboard.aggregate date t)) as ->
      by (unfold Dashboard.get_daily_stats; rewrite C; reflexivity).
    cbn [fst snd]. unfold Dashboard.get_daily_stats.
    rewrite (cached_upsert date _ ds C). cbn [fst snd].
    repeat split; reflexivity.
Qed.

Lemma sql_sum_indicator {A} (f : A -> Z) (P : A -> Prop) `{!forall x, Decision (P x)}
    (rows : list A) :
  (forall r, f r = if decide (P r) then 1 else 0) ->
  Dashboard.sql_sum ((fun r => Some (f r)) <$> rows)
  = match rows with
    | [] => None
    | _ => Some (Z.of_nat (length (filter P rows)))
    end.
Proof.
  intros Hf. unfold Dashboard.sql_sum.
  assert (omap id ((fun r => Some (f r)) <$> rows) = f <$> rows) as ->.
  { induction rows as [|r rows IH]; [reflexivity|].
    rewrite !fmap_cons. cbn [omap list_omap id]. f_equal. exact IH. }
  destruct rows as [|r rows]; [reflexivity|].
  rewrite fmap_cons. f_equal. rewrite <- fmap_cons.
  generalize (r :: rows). clear r rows. intros l.
  induction l as [|x l IH]; [reflexivity|].
  rewrite fmap_cons, filter_cons. cbn [foldr]. rewrite IH, Hf.
  destruct (decide (P x)); cbn [length]; lia.
Qed.

(** X21: What the first request for a date computes: the number of sessions that
    entered on that day, and, when there is one, how many of them have an
    exit time and how many an unauthorised exit.  On a day without a session
    the three sums are [None], not 0: [SUM] over no row is [NULL]. *)
Theorem daily_stats_first_request_counts
    (date : Z) (ds : list (Z * Dashboard.stats)) (t : Db.table) :
  Dashboard.cached date ds = None ->
  let s := (Dashboard.get_daily_stats date ds t).2 in
  let day := filter (fun r => Dashboard.date_of (Db.entry_time r) = date) t in
  Dashboard.total_entries s = Some (Z.of_nat (length day))
  /\ (day = [] ->
      Dashboard.total_exits s = None /\ Dashboard.total_revenue s = None
      /\ Dashboard.unauthorized_exits s = None)
  /\ (day <> [] ->
      Dashboard.total_exits s
      = Some (Z.of_nat (length (filter (fun r => is_Some (Db.exit_time r)) day)))
      /\ Dashboard.unauthorized_exits s
         = Some (Z.of_nat (length (filter (fun r => Db.is_unauthorized_exit r = Some 1)
                                          day)))).
Proof.
  intros C s day. subst s. unfold Dashboard.get_daily_stats. rewrite C. cbn [snd].
  unfold Dashboard.aggregate. fold day.
  cbn [Dashboard.total_entries Dashboard.total_exits Dashboard.total_revenue
       Dashboard.unauthorized_exits].
  split; [reflexivity|]. split.
  - intros ->. auto.
  - intros Hne. split.
    + rewrite (sql_sum_indicator
                 (fun r => match Db.exit_time r with Some _ => 1 | None => 0 end)
                 (fun r => is_Some (Db.exit_time r)) day).
      * destruct day; [congruence | reflexivity].
      * intros r. destruct (Db.exit_time r) as [x|].
        -- rewrite decide_True by eauto. reflexivity.
        -- rewrite decide_False by (intros [? ?]; discriminate). reflexivity.
    + rewrite (sql_sum_indicator
                 (fun r => if bool_decide (Db.is_unauthorized_exit r = Some 1)
                           then 1 else 0)
                 (fun r => Db.is_unauthorized_exit r = Some 1) day).
      * destruct day; [congruence | reflexivity].
      * intros r. destruct (decide (Db.is_unauthorized_exit r = Some 1)) as [H|H].
        -- rewrite bool_decide_eq_true_2 by exact H. reflexivity.
        -- rewrite bool_decide_eq_false_2 by exact H. reflexivity.
Qed.

Lemma daily_stats_first_request_counts_witness :
  let s1 := {| Db.id := 1; Db.plate_number := "RAB123C";
               Db.entry_time := 1704103200123456; Db.exit_time := Some 1704108700000000;
               Db.payment_status := Some 0; Db.payment_amount := None;
               Db.payment_time := None; Db.is_unauthorized_exit := Some 1 |} in
  let s2 := {| Db.id := 2; Db.plate_number := "RAX999Z";
               Db.entry_time := 1704106800000000; Db.exit_time := None;
               Db.payment_status := Some 1; Db.payment_amount := Some 500;
               Db.payment_time := Some 1704108600000000;
               Db.is_unauthorized_exit := Some 0 |} in
  (Dashboard.get_daily_stats 19723 [] [s1; s2]).2
  = {| Dashboard.total_entries := Some 2; Dashboard.total_exits := Some 1;
       Dashboard.total_revenue := Some 500; Dashboard.unauthorized_exits := Some 1 |}
  /\ Dashboard.total_exits (Dashboard.get_daily_stats 19724 [] [s1; s2]).2 = None.
Proof.
  intros s1 s2. split; [reflexivity|].
  exact (proj1 (proj1 (proj2 (daily_stats_first_request_counts 19724 [] [s1; s2] eq_refl))
                  eq_refl)).
Defined.

Example daily_stats_miss_later_sessions :
  let s1 := {| Db.id := 1; Db.plate_number := "RAB123C";
               Db.entry_time := 1704103200123456; Db.exit_time := None;
               Db.payment_status := Some 0; Db.payment_amount := None;
               Db.payment_time := None; Db.is_unauthorized_exit := Some 0 |} in
  let first := Dashboard.get_daily_stats 19723 [] [] in
  first.2 = {| Dashboard.total_entries := Some 0; Dashboard.total_exits := None;
               Dashboard.total_revenue := None; Dashboard.unauthorized_exits := None |}
  /\ (Dashboard.get_daily_stats 19723 first.1 [s1]).2
     = {| Dashboard.total_entries := Some 0; Dashboard.total_exits := None;
          Dashboard.total_revenue := Some 0; Dashboard.unauthorized_exits := None |}.
Proof. vm_compute. split; reflexivity. Qed.

Lemma not_earlier_trans : Transitive Dashboard.not_earlier.
Proof. unfold Dashboard.not_earlier. intros a b c Hab Hbc. lia. Qed.

Lemma not_earlier_total : Total Dashboard.not_earlier.
Proof. unfold Dashboard.not_earlier. intros a b. lia. Qed.

(** X22: [get_recent_logs] shows the latest sessions: the rows returned are the
    columns of [limit] rows of the table (of all rows when there are fewer,
    or when the limit is negative), the latest entry first, and no row left
    out entered later than a row returned. *)
Theorem recent_logs_are_the_latest (limit : Z) (t : Db.table) :
  exists shown rest,
    Dashboard.get_recent_logs limit t = Dashboard.columns <$> shown
    /\ shown ++ rest ≡ₚ t
    /\ length shown
       = (if limit <? 0 then length t else Nat.min (Z.to_nat limit) (length t))
    /\ StronglySorted Dashboard.not_earlier shown
    /\ forall a b, a ∈ shown -> b ∈ rest -> Db.entry_time b <= Db.entry_time a.
Proof.
  pose proof (merge_sort_Permutation Dashboard.not_earlier t) as Hperm.
  pose proof (@StronglySorted_merge_sort _ Dashboard.not_earlier _
                not_earlier_trans not_earlier_total t) as Hsorted.
  unfold Dashboard.get_recent_logs, Dashboard.most_recent.
  destruct (limit <? 0).
  - exists (merge_sort Dashboard.not_earlier t), [].
    split; [reflexivity|]. rewrite app_nil_r.
    split; [exact Hperm|]. split; [rewrite Hperm; reflexivity|].
    split; [exact Hsorted|]. intros a b _ Hb. inversion Hb.
  - exists (take (Z.to_nat limit) (merge_sort Dashboard.not_earlier t)),
      (drop (Z.to_nat limit) (merge_sort Dashboard.not_earlier t)).
    rewrite <- (take_drop (Z.to_nat limit) (merge_sort Dashboard.not_earlier t)) in Hsorted.
    split; [reflexivity|].
    split; [rewrite take_drop; exact Hperm|].
    split; [rewrite length_take, Hperm; reflexivity|].
    split; [eapply StronglySorted_app_1_l; exact Hsorted|].
    intros a b Ha Hb.
    exact (StronglySorted_app_1_elem_of _ _ _ a b Hsorted Ha Hb).
Qed.

Example recent_logs_latest_two :
  let s i t := {| Db.id := i; Db.plate_number := "RAB123C";
                  Db.entry_time := t; Db.exit_time := None;
                  Db.payment_status := Some 0; Db.payment_amount := None;
                  Db.payment_time := None; Db.is_unauthorized_exit := Some 0 |} in
  Dashboard.entry_time <$> Dashboard.get_recent_logs 2 [s 1 100; s 2 300; s 3 200]
  = [300; 200].
Proof. vm_compute. reflexivity. Qed.


Lemma recent_logs_are_the_latest_witness :
  let s i t := {| Db.id := i; Db.plate_number := "RAB123C";
                  Db.entry_time := t; Db.exit_time := None;
                  Db.payment_status := Some 0; Db.payment_amount := None;
                  Db.payment_time := None; Db.is_unauthorized_exit := Some 0 |} in
  exists shown,
    Dashboard.get_recent_logs 2 [s 1 100; s 2 300; s 3 200] = Dashboard.columns <$> shown
    /\ length shown = 2%nat.
Proof.
  intros s.
  destruct (recent_logs_are_the_latest 2 [s 1 100; s 2 300; s 3 200])
    as (shown & rest & H1 & _ & H2 & _).
  exists shown. split; [exact H1 | exact H2].
Defined.

Lemma daily_stats_are_frozen_after_first_request_witness :
  let s1 := {| Db.id := 1; Db.plate_number := "RAB123C";
               Db.entry_time := 1704103200123456; Db.exit_time := None;
               Db.payment_status := Some 0; Db.payment_amount := None;
               Db.payment_time := None; Db.is_unauthorized_exit := Some 0 |} in
  let first := Dashboard.get_daily_stats 19723 [] [] in
  Dashboard.total_entries (Dashboard.get_daily_stats 19723 first.1 [s1]).2 = Some 0.
Proof.
  intros s1 first.
  exact (proj1 (proj2 (daily_stats_are_frozen_after_first_request 19723 [] [] [s1]))).
Defined.
